(** * Radial and azimuthal profiles of a 2D image

    A shallow embedding of [pyimq/external/radial_profile.py]
    ([azimuthal_average], [azimuthal_average_bins], [radial_average],
    [radial_average_bins]) and the properties of its specification.

    Numbers.  A numpy [float64] is modelled as an extended rational
    ([Fin q], the two infinities, [NaN]): every finite double is a rational,
    and the arithmetic on finite values is taken exact (no rounding, no
    signed zero).  The special values follow IEEE 754 as numpy does:
    [0/0 = NaN], [x/0 = +-inf], [inf - inf = NaN], comparisons with [NaN]
    are false.  Python integers are [Z].

    Rounding.  The program rounds the result of every operation to a
    double and the embedding does not, so that a count or an edge the
    program reaches through a division or a product can differ from the
    exact one (the number of retained bins at a bin size of 0.1, for one).
    The numbered theorems (C1, ..., X1, ...) are stated so as to hold of
    the rounded values as well: they relate the variables of the program
    to each other (the edges [bins], the counts [nr], the lengths of the
    returned arrays), or assume that the quotient concerned is exact, or
    allow for the rounding of the bin size; the lemmas that lead to them
    are about the exact values.  The worked examples use the bin sizes 0.5
    and 1.

    Library.  [np.sqrt] (behind [np.hypot] and [ndarray.std]) and
    [np.arctan2] are not rational functions; they are the fields of the
    class [LibM], and every general theorem holds for any implementation of
    it.  The instance [libm_model] is used to evaluate the program on
    concrete images. *)

From Stdlib Require Import String.
From Stdlib Require Import ZArith QArith Qround Qabs List Bool Lia Lqa.
Import ListNotations.

Set Implicit Arguments.

(** ** Exceptions and results *)

Inductive exn : Type :=
| ValueError (msg : string)
| TypeError (msg : string)
| OverflowError (msg : string)
| UnboundLocalError (msg : string).

Inductive result (A : Type) : Type :=
| Ok (a : A)
| Raise (e : exn).

Arguments Ok {A} a.
Arguments Raise {A} e.

Definition bind {A B : Type} (m : result A) (k : A -> result B) : result B :=
  match m with
  | Ok a => k a
  | Raise e => Raise e
  end.

Notation "x <- m ;; k" := (bind m (fun x => k))
  (at level 61, m at next level, right associativity).
Notation "' pat <- m ;; k" := (bind m (fun x => match x with pat => k end))
  (at level 61, pat pattern, m at next level, right associativity).

(** A list comprehension whose body may raise: the first exception aborts. *)
Fixpoint mapM {A B : Type} (f : A -> result B) (l : list A) : result (list B) :=
  match l with
  | [] => Ok []
  | a :: l' => b <- f a ;; bs <- mapM f l' ;; Ok (b :: bs)
  end.

Definition is_ok {A : Type} (m : result A) : bool :=
  match m with Ok _ => true | Raise _ => false end.

(** ** float64 *)

Inductive float64 : Type :=
| Fin (q : Q)
| PInf
| NInf
| NaN.

Declare Scope f64_scope.
Delimit Scope f64_scope with f64.
Bind Scope f64_scope with float64.

Definition of_Z (z : Z) : float64 := Fin (inject_Z z).

Definition isnan (a : float64) : bool :=
  match a with NaN => true | _ => false end.

Definition isfinite (a : float64) : bool :=
  match a with Fin _ => true | _ => false end.

Definition fopp (a : float64) : float64 :=
  match a with
  | Fin q => Fin (- q)
  | PInf => NInf
  | NInf => PInf
  | NaN => NaN
  end.

Definition fadd (a b : float64) : float64 :=
  match a, b with
  | NaN, _ | _, NaN => NaN
  | Fin p, Fin q => Fin (p + q)
  | PInf, NInf | NInf, PInf => NaN
  | PInf, _ | _, PInf => PInf
  | NInf, _ | _, NInf => NInf
  end.

Definition fsub (a b : float64) : float64 := fadd a (fopp b).

(** The sign of an infinity times a finite factor. *)
Definition scale_inf (pos : bool) (q : Q) : float64 :=
  match (0 ?= q)%Q with
  | Eq => NaN
  | Lt => if pos then PInf else NInf
  | Gt => if pos then NInf else PInf
  end.

Definition fmul (a b : float64) : float64 :=
  match a, b with
  | NaN, _ | _, NaN => NaN
  | Fin p, Fin q => Fin (p * q)
  | PInf, Fin q | Fin q, PInf => scale_inf true q
  | NInf, Fin q | Fin q, NInf => scale_inf false q
  | PInf, PInf | NInf, NInf => PInf
  | PInf, NInf | NInf, PInf => NInf
  end.

Definition fdiv (a b : float64) : float64 :=
  match a, b with
  | NaN, _ | _, NaN => NaN
  | Fin p, Fin q =>
      if Qeq_bool q 0 then
        match (0 ?= p)%Q with
        | Eq => NaN
        | Lt => PInf
        | Gt => NInf
        end
      else Fin (p / q)
  | Fin _, _ => Fin 0
  | PInf, Fin q => if Qle_bool 0 q then PInf else NInf
  | NInf, Fin q => if Qle_bool 0 q then NInf else PInf
  | _, _ => NaN
  end.

Definition fltb (a b : float64) : bool :=
  match a, b with
  | NaN, _ | _, NaN => false
  | Fin p, Fin q => negb (Qle_bool q p)
  | NInf, NInf | PInf, _ => false
  | NInf, _ | _, PInf => true
  | Fin _, NInf => false
  end.

Definition fgtb (a b : float64) : bool := fltb b a.

Definition feqb (a b : float64) : bool :=
  match a, b with
  | Fin p, Fin q => Qeq_bool p q
  | PInf, PInf | NInf, NInf => true
  | _, _ => false
  end.

Definition fleb (a b : float64) : bool := fltb a b || feqb a b.

Infix "+" := fadd : f64_scope.
Infix "-" := fsub : f64_scope.
Infix "*" := fmul : f64_scope.
Infix "/" := fdiv : f64_scope.
Infix "<?" := fltb : f64_scope.
Infix "<=?" := fleb : f64_scope.
Infix ">?" := fgtb : f64_scope.
Infix "=?" := feqb : f64_scope.

(** [np.maximum.reduce] and [np.minimum.reduce] step: a NaN operand wins. *)
Definition fmaximum (a b : float64) : float64 :=
  if isnan a then a else if isnan b then b else if fltb a b then b else a.

Definition fminimum (a b : float64) : float64 :=
  if isnan a then a else if isnan b then b else if fltb b a then b else a.

(** Round half to even, as [np.round] does. *)
Definition round_half_even (q : Q) : Z :=
  let f := Qfloor q in
  match (q - inject_Z f ?= 1 # 2)%Q with
  | Lt => f
  | Gt => (f + 1)%Z
  | Eq => if Z.even f then f else (f + 1)%Z
  end.

Definition np_round (a : float64) : float64 :=
  match a with
  | Fin q => of_Z (round_half_even q)
  | _ => a
  end.

(** Truncation toward zero. *)
Definition Qtrunc (q : Q) : Z :=
  if Qle_bool 0 q then Qfloor q else Qceiling q.

(** Python's [int(x)] on a float. *)
Definition py_int (a : float64) : result Z :=
  match a with
  | Fin q => Ok (Qtrunc q)
  | NaN => Raise (ValueError "cannot convert float NaN to integer")
  | _ => Raise (OverflowError "cannot convert float infinity to integer")
  end.

(** [np.mod] for floats: the result has the sign of the divisor. *)
Definition np_mod (a b : float64) : float64 :=
  match a, b with
  | Fin p, Fin q =>
      if Qeq_bool q 0 then NaN
      else Fin (p - q * inject_Z (Qfloor (p / q)))
  | Fin p, PInf => if Qle_bool 0 p then a else PInf
  | Fin p, NInf => if Qle_bool p 0 then a else NInf
  | _, _ => NaN
  end.

(** [np.pi], the double nearest to pi. *)
Definition pi_q : Q := 884279719003555 # 281474976710656.
Definition np_pi : float64 := Fin pi_q.

(** A Python number where the source lets an integer or a float through. *)
Inductive pynum : Type :=
| PyInt (z : Z)
| PyFloat (f : float64).

(** [operator.index]: what [range] and [np.linspace] apply to a count.  Only
    an integer object qualifies; a float, integral or not, is refused. *)
Definition py_index (n : pynum) : result Z :=
  match n with
  | PyInt z => Ok z
  | PyFloat _ =>
      Raise (TypeError "'numpy.float64' object cannot be interpreted as an integer")
  end.

(** ** numpy arrays and the library routines the module calls *)

(** A 2D array: its shape (rows, columns) and its elements in row-major
    order, which is what [.flat] and [.ravel()] enumerate. *)
Record ndarray (A : Type) : Type := mk_ndarray {
  shape : nat * nat;
  flat : list A
}.

Definition size_of (s : nat * nat) : nat := (fst s * snd s)%nat.

Definition well_shaped {A : Type} (a : ndarray A) : Prop :=
  length (flat a) = size_of (shape a).

(** [np.indices(shape)]: the row index [y] and the column index [x] of every
    element, flattened. *)
Definition np_indices (s : nat * nat) : list Z * list Z :=
  (flat_map (fun i => repeat (Z.of_nat i) (snd s)) (seq 0 (fst s)),
   flat_map (fun _ => map Z.of_nat (seq 0 (snd s))) (seq 0 (fst s))).

Definition zero_size_max : exn :=
  ValueError "zero-size array to reduction operation maximum which has no identity".
Definition zero_size_min : exn :=
  ValueError "zero-size array to reduction operation minimum which has no identity".

(** [max()] and [min()] of an integer array. *)
Definition int_max (l : list Z) : result Z :=
  match l with
  | [] => Raise zero_size_max
  | a :: l' => Ok (fold_left Z.max l' a)
  end.

Definition int_min (l : list Z) : result Z :=
  match l with
  | [] => Raise zero_size_min
  | a :: l' => Ok (fold_left Z.min l' a)
  end.

(** [max()] of a float array. *)
Definition np_max (l : list float64) : result float64 :=
  match l with
  | [] => Raise zero_size_max
  | a :: l' => Ok (fold_left fmaximum l' a)
  end.

Definition np_sum (l : list float64) : float64 := fold_left fadd l (Fin 0).

Definition np_mean (l : list float64) : float64 :=
  (np_sum l / of_Z (Z.of_nat (length l)))%f64.

(** [range(start, stop)]. *)
Definition zrange (start stop : Z) : list Z :=
  map (fun i => (start + Z.of_nat i)%Z) (seq 0 (Z.to_nat (stop - start))).

Definition py_range (start : Z) (stop : pynum) : result (list Z) :=
  n <- py_index stop ;; Ok (zrange start n).

(** [np.linspace(start, stop, num)]: [num] samples, the last one [stop]. *)
Definition linspace_values (start stop : float64) (num : nat) : list float64 :=
  match num with
  | O => []
  | S O => [((Fin 0 * (stop - start)) + start)%f64]
  | S n =>
      let step := ((stop - start) / of_Z (Z.of_nat n))%f64 in
      map (fun i => (of_Z (Z.of_nat i) * step + start)%f64) (seq 0 n) ++ [stop]
  end.

Definition np_linspace (start stop : float64) (num : pynum) : result (list float64) :=
  n <- py_index num ;;
  if (n <? 0)%Z then
    Raise (ValueError "Number of samples must be non-negative.")
  else Ok (linspace_values start stop (Z.to_nat n)).

(** An elementwise operation on two arrays.  ([a[1:]] is [tl a] and
    [a[:-1]] is [removelast a].) *)
Definition map2 {A B C : Type} (f : A -> B -> C) (l : list A) (l' : list B) : list C :=
  map (fun p => f (fst p) (snd p)) (combine l l').

(** [a[0:n]] for a Python integer [n]: a negative [n] counts from the end. *)
Definition slice_to {A : Type} (n : Z) (l : list A) : list A :=
  if (0 <=? n)%Z then firstn (Z.to_nat n) l
  else firstn (length l - Z.to_nat (- n)) l.

(** The order [np.searchsorted] uses: NaN sorts after everything. *)
Definition npy_lt (a b : float64) : bool :=
  fltb a b || (isnan b && negb (isnan a)).

Fixpoint adjacent_all (p : float64 -> float64 -> bool) (l : list float64) : bool :=
  match l with
  | a :: (b :: _) as l' => p a b && adjacent_all p l'
  | _ => true
  end.

(** [np.searchsorted(a, v, side='right')] on a sorted [a]: the number of
    elements that are not above [v]. *)
Definition searchsorted_right (a : list float64) (v : float64) : nat :=
  length (filter (fun e => negb (npy_lt v e)) a).

(** [np.digitize(x, bins)]: [i] with [bins[i-1] <= x < bins[i]]; 0 below the
    first edge, [len(bins)] from the last edge on. *)
Definition np_digitize (x bins : list float64) : result (list Z) :=
  if adjacent_all (fun a b => negb (fgtb a b)) bins then
    Ok (map (fun v => Z.of_nat (searchsorted_right bins v)) x)
  else if adjacent_all (fun a b => negb (fltb a b)) bins then
    Ok (map (fun v => Z.of_nat (length bins - searchsorted_right (rev bins) v)) x)
  else Raise (ValueError "bins must be monotonically increasing or decreasing").

Definition count_eq (v : Z) (l : list Z) : Z :=
  Z.of_nat (length (filter (Z.eqb v) l)).

(** [np.bincount(l)] for non-negative [l]: entry [v] counts the occurrences
    of [v], for [v] from 0 to [max(l)]. *)
Definition np_bincount (l : list Z) : list Z :=
  match l with
  | [] => []
  | a :: l' =>
      map (fun v => count_eq v l) (zrange 0 (fold_left Z.max l' a + 1))
  end.

(** [a * b] on boolean arrays of one dimension, with numpy's broadcasting of
    a one-element operand. *)
Definition np_mul_bool (a b : list bool) : result (list bool) :=
  if (length a =? length b)%nat then Ok (map2 andb a b)
  else match a, b with
       | [u], _ => Ok (map (andb u) b)
       | _, [v] => Ok (map (fun u => andb u v) a)
       | _, _ => Raise (ValueError "operands could not be broadcast together")
       end.

(** [a.flat[idx]] for a boolean [idx]: the elements of [a] where [idx] is
    true; [idx] may not be longer than [a]. *)
Definition flat_getitem {A : Type} (a : list A) (idx : list bool) : result (list A) :=
  if (length a <? length idx)%nat then
    Raise (ValueError "too many boolean indices")
  else Ok (map fst (filter snd (combine a idx))).

(** [image * weights], elementwise.  Only operands of one shape are modelled
    (the docstring requires [weights.shape = image.shape]). *)
Definition np_mul (a b : ndarray float64) : result (ndarray float64) :=
  if ((fst (shape a) =? fst (shape b)) && (snd (shape a) =? snd (shape b)))%nat then
    Ok (mk_ndarray (shape a) (map2 fmul (flat a) (flat b)))
  else Raise (ValueError "operands could not be broadcast together").

Definition np_ones (s : nat * nat) : ndarray float64 :=
  mk_ndarray s (repeat (Fin 1) (size_of s)).

(** [np.interp(x, xp, fp, left, right)], after numpy's [arr_interp]: the
    piecewise linear interpolant through the points [(xp, fp)], [left] and
    [right] outside them.  A sample that coincides with a data point gets
    that point's value; a NaN in a linear piece is retried from the other
    end of the piece. *)
Fixpoint interp_piece (v : float64) (xp fp : list float64) : float64 :=
  match xp, fp with
  | x0 :: ((x1 :: _) as xp'), y0 :: ((y1 :: _) as fp') =>
      if fltb v x1 then
        if feqb x0 v then y0
        else
          let slope := ((y1 - y0) / (x1 - x0))%f64 in
          let res := (slope * (v - x0) + y0)%f64 in
          if isnan res then
            let res' := (slope * (v - x1) + y1)%f64 in
            if isnan res' && feqb y0 y1 then y0 else res'
          else res
      else interp_piece v xp' fp'
  | _, y0 :: _ => y0
  | _, _ => NaN
  end.

Definition interp_at (xp fp : list float64) (lval rval : float64) (v : float64)
  : float64 :=
  if isnan v then v
  else if fgtb v (last xp NaN) then rval
  else if fltb v (hd NaN xp) then lval
  else interp_piece v xp fp.

Definition np_interp (x xp fp : list float64) (left right : option float64)
  : result (list float64) :=
  match xp with
  | [] => Raise (ValueError "array of sample points is empty")
  | _ =>
      if negb (length fp =? length xp)%nat then
        Raise (ValueError "fp and xp are not of the same length.")
      else
        let lval := match left with Some l => l | None => hd NaN fp end in
        let rval := match right with Some r => r | None => last fp NaN end in
        match xp with
        | [x0] =>
            Ok (map (fun v => if fltb v x0 then lval
                              else if fgtb v x0 then rval else hd NaN fp) x)
        | _ => Ok (map (interp_at xp fp lval rval) x)
        end
  end.

(** The mathematical library: the two functions, and the facts about them
    that the general theorems rest on.  The root of a finite non-negative
    number is one; the root of a sum of two squares (the hypotenuse of
    [np.hypot]) is not shorter than the first leg; the angle of a finite
    point lies between [-np.pi] and [np.pi]. *)
Class LibM : Type := {
  np_sqrt : float64 -> float64;
  np_arctan2 : float64 -> float64 -> float64;
  np_sqrt_finite :
    forall q : Q, (0 <= q)%Q -> exists r : Q, np_sqrt (Fin q) = Fin r /\ (0 <= r)%Q;
  np_sqrt_above :
    forall p q r : Q, np_sqrt (Fin (p * p + q * q)) = Fin r -> (Qabs p <= r)%Q;
  np_arctan2_range :
    forall p q : Q, exists t : Q, np_arctan2 (Fin p) (Fin q) = Fin t
                                  /\ (- pi_q <= t <= pi_q)%Q
}.

Section Library.
Context {M : LibM}.

(** [np.hypot]. *)
Definition np_hypot (a b : float64) : float64 := np_sqrt (a * a + b * b)%f64.

(** [a.std()]: the square root of the mean squared deviation from the mean;
    NaN for an empty selection. *)
Definition np_std (l : list float64) : float64 :=
  let m := np_mean l in
  np_sqrt (np_mean (map (fun v => ((v - m) * (v - m))%f64) l)).

End Library.

(** ** The module *)

(** The keyword arguments the four functions read with [kwargs.get]; [None]
    and [false] stand for an absent key. *)
Record kwargs : Type := mk_kwargs {
  kw_center : option (float64 * float64);
  kw_stddev : bool;
  kw_returnradii : bool;
  kw_return_nr : bool;
  kw_return_az : bool;
  kw_return_naz : bool;
  kw_binsize : option float64;
  kw_weights : option (ndarray float64);
  kw_steps : bool;
  kw_interpnan : bool;
  kw_left : option float64;
  kw_right : option float64;
  kw_mask : option (ndarray bool);
  kw_sum_bin : bool
}.

Definition no_kwargs : kwargs :=
  mk_kwargs None false false false false false None None false false None None
            None false.

(** What a call returns: the flags select one of four shapes. *)
Inductive output : Type :=
| StepArrays (xarr yarr : list float64)
| WithCenters (bin_centers prof : list float64)
| WithCounts (nr : list Z) (bin_centers prof : list float64)
| Profile (prof : list float64).

(** [raise ValueError("Weighted standard deviation is not defined.")] *)
Definition InvalidConfiguration : exn :=
  ValueError "Weighted standard deviation is not defined.".

Definition get {A : Type} (o : option A) (default : A) : A :=
  match o with Some a => a | None => default end.

(** [center = np.array([(x.max() - x.min()) / 2.0, (y.max() - y.min()) / 2.0])] *)
Definition default_center (x y : list Z) : result (float64 * float64) :=
  xmax <- int_max x ;; xmin <- int_min x ;;
  ymax <- int_max y ;; ymin <- int_min y ;;
  Ok ((of_Z (xmax - xmin) / Fin 2)%f64, (of_Z (ymax - ymin) / Fin 2)%f64).

(** [if center is None: center = ...] *)
Definition resolve_center (center : option (float64 * float64)) (x y : list Z)
  : result (float64 * float64) :=
  match center with
  | None => default_center x y
  | Some c => Ok c
  end.

(** [np.array(list(zip(a, b))).ravel()] *)
Definition zip_ravel (a b : list float64) : list float64 :=
  flat_map (fun p => [fst p; snd p]) (combine a b).

(** [(bins[1:] + bins[:-1]) / 2.0] *)
Definition centers_of (bins : list float64) : list float64 :=
  map2 (fun hi lo => ((hi + lo) / Fin 2)%f64) (tl bins) (removelast bins).

(** [a.flat[mask * (whichbin == b)]] *)
Definition select_bin {A : Type} (a : list A) (mask : list bool)
           (whichbin : list Z) (b : Z) : result (list A) :=
  idx <- np_mul_bool mask (map (fun w => Z.eqb w b) whichbin) ;;
  flat_getitem a idx.

(** [zip(b[:-1], b[1:])]: the consecutive pairs of boundaries. *)
Definition consecutive (b : list float64) : list (float64 * float64) :=
  combine (removelast b) (tl b).

(** [(theta_deg > (blow % 360)) * (theta_deg < (bhigh % 360))] *)
Definition sector_mask (theta_deg : list float64) (blow bhigh : float64)
  : list bool :=
  map2 andb
       (map (fun t => (t >? np_mod blow (Fin 360))%f64) theta_deg)
       (map (fun t => (t <? np_mod bhigh (Fin 360))%f64) theta_deg).

(** [(r < bhigh) * (r > blow)] *)
Definition band_mask (r : list float64) (blow bhigh : float64) : list bool :=
  map2 andb
       (map (fun d => (d <? bhigh)%f64) r)
       (map (fun d => (d >? blow)%f64) r).

(** The masks of all the passes of the loop, in order. *)
Definition sector_masks (theta_deg azbins : list float64) : list (list bool) :=
  map (fun p => sector_mask theta_deg (fst p) (snd p)) (consecutive azbins).

Definition band_masks (r radbins : list float64) : list (list bool) :=
  map (fun p => band_mask r (fst p) (snd p)) (consecutive radbins).

Definition nondecreasing (l : list float64) : bool := adjacent_all fleb l.

Section RadialProfile.
Context {M : LibM}.

(** The values of the local variables when the aggregation and the optional
    interpolation are done (source lines 35 to 116). *)
Record azimuthal_vars : Type := mk_azimuthal_vars {
  l_center : float64 * float64;
  l_r : list float64;
  l_weights : ndarray float64;
  l_mask : list bool;
  l_nbins : Z;
  l_bins : list float64;
  l_whichbin : list Z;
  l_nr : list Z;
  l_nbins_true : Z;
  l_bin_centers : list float64;
  l_prof : list float64
}.

(** [np.hypot(x - center[0], y - center[1])] *)
Definition distance_map (center : float64 * float64) (x y : list Z)
  : list float64 :=
  map2 (fun xi yi =>
          np_hypot (of_Z xi - fst center)%f64 (of_Z yi - snd center)%f64)
       x y.

(** Source lines 89 to 107: the three list comprehensions. *)
Definition aggregate (image weights : ndarray float64) (mask : list bool)
           (whichbin : list Z) (stddev sum_bin : bool) (nbins nbins_true : Z)
  : result (list float64) :=
  if stddev then
    bs <- py_range 1 (PyInt (nbins + 1)) ;;
    mapM (fun b => sel <- select_bin (flat image) mask whichbin b ;;
                   Ok (np_std sel)) bs
  else if sum_bin then
    bs <- py_range 1 (PyInt (nbins_true + 1)) ;;
    mapM (fun b => iw <- np_mul image weights ;;
                   sel <- select_bin (flat iw) mask whichbin b ;;
                   Ok (np_sum sel)) bs
  else
    bs <- py_range 1 (PyInt (nbins_true + 1)) ;;
    mapM (fun b => iw <- np_mul image weights ;;
                   num <- select_bin (flat iw) mask whichbin b ;;
                   den <- select_bin (flat weights) mask whichbin b ;;
                   Ok (np_sum num / np_sum den)%f64) bs.

Definition azimuthal_locals (image : ndarray float64) (kw : kwargs)
  : result azimuthal_vars :=
  let center := kw_center kw in
  let stddev := kw_stddev kw in
  let binsize := get (kw_binsize kw) (Fin (1 # 2)) in
  let weights := kw_weights kw in
  let interpnan := kw_interpnan kw in
  let mask := kw_mask kw in
  let sum_bin := kw_sum_bin kw in
  let '(y, x) := np_indices (shape image) in
  center <- resolve_center center x y ;;
  let r := distance_map center x y in
  weights <- match weights with
             | None => Ok (np_ones (shape image))
             | Some w => if stddev then Raise InvalidConfiguration else Ok w
             end ;;
  let mask := match mask with
              | None => repeat true (size_of (shape image))
              | Some m => flat m
              end in
  rmax <- np_max r ;;
  nbins <- py_int (np_round (rmax / binsize) + Fin 1)%f64 ;;
  let maxbin := (of_Z nbins * binsize)%f64 in
  bins <- np_linspace (Fin 0) maxbin (PyInt (nbins + 1)) ;;
  let bin_centers := centers_of bins in
  whichbin <- np_digitize r bins ;;
  let nr := tl (np_bincount whichbin) in
  xmax <- int_max x ;; xmin <- int_min x ;;
  let sampling_freq := (of_Z (xmax - xmin) / Fin 2)%f64 in
  nbins_true <- py_int (sampling_freq / binsize)%f64 ;;
  let bin_centers := slice_to nbins_true bin_centers in
  radial_prof <-
    aggregate image weights mask whichbin stddev sum_bin nbins nbins_true ;;
  radial_prof <-
    (if interpnan then
       np_interp bin_centers bin_centers radial_prof (kw_left kw) (kw_right kw)
     else Ok radial_prof) ;;
  Ok (mk_azimuthal_vars center r weights mask nbins bins whichbin nr nbins_true
        bin_centers radial_prof).

(** Source lines 118 to 127. *)
Definition azimuthal_return (kw : kwargs) (l : azimuthal_vars) : output :=
  if kw_steps kw then
    let xarr := zip_ravel (removelast (l_bins l)) (tl (l_bins l)) in
    let yarr := zip_ravel (l_prof l) (l_prof l) in
    StepArrays xarr yarr
  else if kw_returnradii kw then WithCenters (l_bin_centers l) (l_prof l)
  else if kw_return_nr kw then WithCounts (l_nr l) (l_bin_centers l) (l_prof l)
  else Profile (l_prof l).

Definition azimuthal_average (image : ndarray float64) (kw : kwargs)
  : result output :=
  l <- azimuthal_locals image kw ;; Ok (azimuthal_return kw l).


(** [theta = np.arctan2(x - center[0], y - center[1])],
    [theta[theta < 0] += 2 * np.pi], [theta_deg = theta * 180.0 / np.pi] *)
Definition theta_deg_of (center : float64 * float64) (x y : list Z)
  : list float64 :=
  map2 (fun xi yi =>
          let theta :=
            np_arctan2 (of_Z xi - fst center)%f64 (of_Z yi - snd center)%f64 in
          let theta :=
            if (theta <? Fin 0)%f64 then (theta + Fin 2 * np_pi)%f64 else theta in
          (theta * Fin 180 / np_pi)%f64)
       x y.

Record radial_vars : Type := mk_radial_vars {
  a_theta_deg : list float64;
  a_mask : list bool;
  a_nbins : float64;
  a_bins : list float64;
  a_whichbin : list Z;
  a_nr : list Z;
  a_bin_centers : list float64;
  a_prof : list float64
}.

(** [radial_average], source lines 195 to 264.  Line 229 leaves [nbins] the
    float that [np.round] returns, where line 71 of [azimuthal_average]
    converts it with [int]; it is then the count given to [np.linspace]
    (line 231) and the bound given to [range] (lines 246 and 253), which
    both require an integer. *)
Definition radial_locals (image : ndarray float64) (kw : kwargs)
  : result radial_vars :=
  let center := kw_center kw in
  let stddev := kw_stddev kw in
  let binsize := get (kw_binsize kw) (Fin 1) in
  let weights := kw_weights kw in
  let interpnan := kw_interpnan kw in
  let mask := kw_mask kw in
  let '(y, x) := np_indices (shape image) in
  center <- resolve_center center x y ;;
  let theta_deg := theta_deg_of center x y in
  weights <- match weights with
             | None => Ok (np_ones (shape image))
             | Some w => if stddev then Raise InvalidConfiguration else Ok w
             end ;;
  let mask := match mask with
              | None => repeat true (size_of (shape image))
              | Some m => flat m
              end in
  tmax <- np_max theta_deg ;;
  let nbins := (np_round (tmax / binsize) + Fin 1)%f64 in
  let maxbin := (nbins * binsize)%f64 in
  bins <- np_linspace (Fin 0) maxbin (PyFloat (nbins + Fin 1)%f64) ;;
  let bin_centers := centers_of bins in
  whichbin <- np_digitize theta_deg bins ;;
  let nr := tl (np_bincount whichbin) in
  azimuthal_prof <-
    (if stddev then
       bs <- py_range 1 (PyFloat (nbins + Fin 1)%f64) ;;
       mapM (fun b => sel <- select_bin (flat image) mask whichbin b ;;
                      Ok (np_std sel)) bs
     else
       bs <- py_range 1 (PyFloat (nbins + Fin 1)%f64) ;;
       mapM (fun b => iw <- np_mul image weights ;;
                      num <- select_bin (flat iw) mask whichbin b ;;
                      den <- select_bin (flat weights) mask whichbin b ;;
                      Ok (np_sum num / np_sum den)%f64) bs) ;;
  azimuthal_prof <-
    (if interpnan then
       np_interp bin_centers bin_centers azimuthal_prof (kw_left kw) (kw_right kw)
     else Ok azimuthal_prof) ;;
  Ok (mk_radial_vars theta_deg mask nbins bins whichbin nr bin_centers
        azimuthal_prof).

(** Source lines 266 to 275. *)
Definition radial_return (kw : kwargs) (l : radial_vars) : output :=
  if kw_steps kw then
    let xarr := zip_ravel (removelast (a_bins l)) (tl (a_bins l)) in
    let yarr := zip_ravel (a_prof l) (a_prof l) in
    StepArrays xarr yarr
  else if kw_return_az kw then WithCenters (a_bin_centers l) (a_prof l)
  else if kw_return_naz kw then WithCounts (a_nr l) (a_bin_centers l) (a_prof l)
  else Profile (a_prof l).

Definition radial_average (image : ndarray float64) (kw : kwargs)
  : result output :=
  l <- radial_locals image kw ;; Ok (radial_return kw l).

(** The [azbins] or [radbins] argument: an ndarray, an integer, or anything
    else. *)
Inductive bins_arg : Type :=
| BinsArray (a : list float64)
| BinsInt (n : Z)
| BinsOther.

(** [rr, zz = f(...)]: unpacking the returned tuple into two names. *)
Definition unpack2 (o : output) : result (list float64 * list float64) :=
  match o with
  | StepArrays a b | WithCenters a b => Ok (a, b)
  | WithCounts _ _ _ => Raise (ValueError "too many values to unpack (expected 2)")
  | Profile _ => Raise (ValueError "not enough values to unpack (expected 2)")
  end.

(** [f(image, center=center, mask=mask, <flag>=True, **kwargs)]: a key given
    twice is a TypeError. *)
Definition forward_kwargs (kw : kwargs) (flag_given : bool)
           (kw' : kwargs) : result kwargs :=
  match kw_mask kw with
  | Some _ => Raise (TypeError "got multiple values for keyword argument 'mask'")
  | None =>
      if flag_given then
        Raise (TypeError "got multiple values for keyword argument")
      else Ok kw'
  end.

(** The loop [for blow, bhigh in zip(bins[:-1], bins[1:])]: [rr] is the
    second component of the state, unbound until the first pass. *)
Fixpoint bins_loop (body : float64 -> float64 -> result (list float64 * list float64))
         (pairs : list (float64 * float64))
         (rr : option (list float64)) (avlist : list (list float64))
  : result (option (list float64) * list (list float64)) :=
  match pairs with
  | [] => Ok (rr, avlist)
  | (blow, bhigh) :: rest =>
      '(rr', zz) <- body blow bhigh ;;
      bins_loop body rest (Some rr') (avlist ++ [zz])
  end.

(** The sector boundaries and the angle map after lines 140 to 152. *)
Definition sector_setup (theta_deg : list float64) (azbins : bins_arg)
           (symmetric : option Z) : result (list float64 * list float64) :=
  match azbins with
  | BinsArray a => Ok (a, theta_deg)
  | BinsInt n =>
      match symmetric with
      | Some 2%Z =>
          b <- np_linspace (Fin 0) (Fin 90) (PyInt n) ;;
          Ok (b, map (fun t => np_mod t (Fin 90)) theta_deg)
      | Some 1%Z =>
          b <- np_linspace (Fin 0) (Fin 180) (PyInt n) ;;
          Ok (b, map (fun t => np_mod t (Fin 180)) theta_deg)
      | _ =>
          b <- np_linspace (Fin 0) (Fin 360) (PyInt n) ;;
          Ok (b, theta_deg)
      end
  | BinsOther => Raise (ValueError "azbins must be an ndarray or an integer")
  end.

Definition azimuthal_average_bins (image : ndarray float64) (azbins : bins_arg)
           (symmetric : option Z) (center : option (float64 * float64))
           (kw : kwargs)
  : result (list float64 * list float64 * list (list float64)) :=
  let '(y, x) := np_indices (shape image) in
  center <- resolve_center center x y ;;
  let theta_deg := theta_deg_of center x y in
  '(azbins, theta_deg) <- sector_setup theta_deg azbins symmetric ;;
  '(rr, azavlist) <-
    bins_loop
      (fun blow bhigh =>
         let mask := mk_ndarray (shape image) (sector_mask theta_deg blow bhigh) in
         kw' <- forward_kwargs kw (kw_returnradii kw)
                  (mk_kwargs (Some center) (kw_stddev kw) true (kw_return_nr kw)
                     (kw_return_az kw) (kw_return_naz kw) (kw_binsize kw)
                     (kw_weights kw) (kw_steps kw) (kw_interpnan kw)
                     (kw_left kw) (kw_right kw) (Some mask) (kw_sum_bin kw)) ;;
         o <- azimuthal_average image kw' ;;
         unpack2 o)
      (consecutive azbins) None [] ;;
  match rr with
  | None =>
      Raise (UnboundLocalError "local variable 'rr' referenced before assignment")
  | Some rr => Ok (azbins, rr, azavlist)
  end.

(** The band boundaries after lines 285 to 295. *)
Definition band_setup (r : list float64) (center : float64 * float64)
           (x y : list Z) (radbins : bins_arg) (corners : bool)
  : result (list float64) :=
  match radbins with
  | BinsArray a => Ok a
  | BinsInt n =>
      if corners then
        rmax <- np_max r ;; np_linspace (Fin 0) rmax (PyInt n)
      else
        let absf := fun v : float64 => if (v <? Fin 0)%f64 then fopp v else v in
        m <- np_max (map (fun xi => absf (of_Z xi - fst center)%f64) x ++
                     map (fun yi => absf (of_Z yi - snd center)%f64) y) ;;
        np_linspace (Fin 0) m (PyInt n)
  | BinsOther => Raise (ValueError "radbins must be an ndarray or an integer")
  end.

Definition radial_average_bins (image : ndarray float64) (radbins : bins_arg)
           (corners : bool) (center : option (float64 * float64)) (kw : kwargs)
  : result (list float64 * list float64 * list (list float64)) :=
  let '(y, x) := np_indices (shape image) in
  center <- resolve_center center x y ;;
  let r := distance_map center x y in
  radbins <- band_setup r center x y radbins corners ;;
  '(az, radavlist) <-
    bins_loop
      (fun blow bhigh =>
         let mask := mk_ndarray (shape image) (band_mask r blow bhigh) in
         kw' <- forward_kwargs kw (kw_return_az kw)
                  (mk_kwargs (Some center) (kw_stddev kw) (kw_returnradii kw)
                     (kw_return_nr kw) true (kw_return_naz kw) (kw_binsize kw)
                     (kw_weights kw) (kw_steps kw) (kw_interpnan kw)
                     (kw_left kw) (kw_right kw) (Some mask) (kw_sum_bin kw)) ;;
         o <- radial_average image kw' ;;
         unpack2 o)
      (consecutive radbins) None [] ;;
  match az with
  | None =>
      Raise (UnboundLocalError "local variable 'az' referenced before assignment")
  | Some az => Ok (radbins, az, radavlist)
  end.

End RadialProfile.

(** ** An executable library *)

(** The square root to 60 binary digits, rounded up: exact whenever the
    root is a dyadic rational of that precision. *)
Definition sqrt_digits : positive := 60.

Definition sqrt_model (a : float64) : float64 :=
  match a with
  | Fin q =>
      if Qle_bool 0 q then
        let scaled := (Qnum q * 4 ^ Zpos sqrt_digits)%Z in
        let s := Z.sqrt (scaled / Zpos (Qden q)) in
        if (s * s * Zpos (Qden q) =? scaled)%Z
        then Fin (s # 2 ^ sqrt_digits)
        else Fin ((s + 1) # 2 ^ sqrt_digits)
      else NaN
  | PInf => PInf
  | _ => NaN
  end.

(** The angle of the point [(b, a)] in radians, in (-pi, pi]: exact (for
    [np_pi]) on the axes and the diagonals, within 0.004 elsewhere. *)
Definition arctan2_model (a b : float64) : float64 :=
  match a, b with
  | Fin p, Fin q =>
      let ap := Qabs p in
      let aq := Qabs q in
      if Qeq_bool ap 0 && Qeq_bool aq 0 then Fin 0
      else
        let t := if Qle_bool ap aq then (ap / aq)%Q else (aq / ap)%Q in
        let atan_t := (Fin t * (np_pi / Fin 4)
                       + Fin ((273 # 1000) * t * (1 - t)))%f64 in
        let base := if Qle_bool ap aq then atan_t
                    else (np_pi / Fin 2 - atan_t)%f64 in
        let ang := if Qle_bool 0 q then base else (np_pi - base)%f64 in
        if Qle_bool 0 p then ang else fopp ang
  | _, _ => NaN
  end.

(** A canonical form, to display computed values. *)
Definition canon (a : float64) : float64 :=
  match a with Fin q => Fin (Qred q) | _ => a end.

(** [np.ones((rows, cols))] *)
Definition ones (rows cols : nat) : ndarray float64 :=
  np_ones (rows, cols).


(** ** Keyword arguments of the calls studied below *)

Definition set_stddev (kw : kwargs) : kwargs :=
  mk_kwargs (kw_center kw) true (kw_returnradii kw) (kw_return_nr kw)
    (kw_return_az kw) (kw_return_naz kw) (kw_binsize kw) (kw_weights kw)
    (kw_steps kw) (kw_interpnan kw) (kw_left kw) (kw_right kw) (kw_mask kw)
    (kw_sum_bin kw).

Definition set_returnradii (b : bool) (kw : kwargs) : kwargs :=
  mk_kwargs (kw_center kw) (kw_stddev kw) b (kw_return_nr kw)
    (kw_return_az kw) (kw_return_naz kw) (kw_binsize kw) (kw_weights kw)
    (kw_steps kw) (kw_interpnan kw) (kw_left kw) (kw_right kw) (kw_mask kw)
    (kw_sum_bin kw).

Definition set_return_nr (b : bool) (kw : kwargs) : kwargs :=
  mk_kwargs (kw_center kw) (kw_stddev kw) (kw_returnradii kw) b
    (kw_return_az kw) (kw_return_naz kw) (kw_binsize kw) (kw_weights kw)
    (kw_steps kw) (kw_interpnan kw) (kw_left kw) (kw_right kw) (kw_mask kw)
    (kw_sum_bin kw).

Definition set_return_az (b : bool) (kw : kwargs) : kwargs :=
  mk_kwargs (kw_center kw) (kw_stddev kw) (kw_returnradii kw) (kw_return_nr kw)
    b (kw_return_naz kw) (kw_binsize kw) (kw_weights kw)
    (kw_steps kw) (kw_interpnan kw) (kw_left kw) (kw_right kw) (kw_mask kw)
    (kw_sum_bin kw).

Definition set_return_naz (b : bool) (kw : kwargs) : kwargs :=
  mk_kwargs (kw_center kw) (kw_stddev kw) (kw_returnradii kw) (kw_return_nr kw)
    (kw_return_az kw) b (kw_binsize kw) (kw_weights kw)
    (kw_steps kw) (kw_interpnan kw) (kw_left kw) (kw_right kw) (kw_mask kw)
    (kw_sum_bin kw).

Definition set_binsize (v : float64) (kw : kwargs) : kwargs :=
  mk_kwargs (kw_center kw) (kw_stddev kw) (kw_returnradii kw) (kw_return_nr kw)
    (kw_return_az kw) (kw_return_naz kw) (Some v) (kw_weights kw)
    (kw_steps kw) (kw_interpnan kw) (kw_left kw) (kw_right kw) (kw_mask kw)
    (kw_sum_bin kw).

Definition set_weights (w : ndarray float64) (kw : kwargs) : kwargs :=
  mk_kwargs (kw_center kw) (kw_stddev kw) (kw_returnradii kw) (kw_return_nr kw)
    (kw_return_az kw) (kw_return_naz kw) (kw_binsize kw) (Some w)
    (kw_steps kw) (kw_interpnan kw) (kw_left kw) (kw_right kw) (kw_mask kw)
    (kw_sum_bin kw).

Definition set_steps (kw : kwargs) : kwargs :=
  mk_kwargs (kw_center kw) (kw_stddev kw) (kw_returnradii kw) (kw_return_nr kw)
    (kw_return_az kw) (kw_return_naz kw) (kw_binsize kw) (kw_weights kw)
    true (kw_interpnan kw) (kw_left kw) (kw_right kw) (kw_mask kw)
    (kw_sum_bin kw).

Definition set_interpnan (kw : kwargs) : kwargs :=
  mk_kwargs (kw_center kw) (kw_stddev kw) (kw_returnradii kw) (kw_return_nr kw)
    (kw_return_az kw) (kw_return_naz kw) (kw_binsize kw) (kw_weights kw)
    (kw_steps kw) true (kw_left kw) (kw_right kw) (kw_mask kw)
    (kw_sum_bin kw).

Definition unset_interpnan (kw : kwargs) : kwargs :=
  mk_kwargs (kw_center kw) (kw_stddev kw) (kw_returnradii kw) (kw_return_nr kw)
    (kw_return_az kw) (kw_return_naz kw) (kw_binsize kw) (kw_weights kw)
    (kw_steps kw) false (kw_left kw) (kw_right kw) (kw_mask kw)
    (kw_sum_bin kw).

Definition set_mask (m : ndarray bool) (kw : kwargs) : kwargs :=
  mk_kwargs (kw_center kw) (kw_stddev kw) (kw_returnradii kw) (kw_return_nr kw)
    (kw_return_az kw) (kw_return_naz kw) (kw_binsize kw) (kw_weights kw)
    (kw_steps kw) (kw_interpnan kw) (kw_left kw) (kw_right kw) (Some m)
    (kw_sum_bin kw).

Definition set_sum_bin (kw : kwargs) : kwargs :=
  mk_kwargs (kw_center kw) (kw_stddev kw) (kw_returnradii kw) (kw_return_nr kw)
    (kw_return_az kw) (kw_return_naz kw) (kw_binsize kw) (kw_weights kw)
    (kw_steps kw) (kw_interpnan kw) (kw_left kw) (kw_right kw) (kw_mask kw)
    true.

(** ** Images of the worked examples *)

(** A [rows] by [cols] array that holds [v] at flat index [k] and [w]
    elsewhere. *)
Definition spike {A : Type} (rows cols : nat) (k : nat) (v w : A) : ndarray A :=
  mk_ndarray (rows, cols)
    (map (fun i => if (i =? k)%nat then v else w) (seq 0 (rows * cols))).


Definition zsum (l : list Z) : Z := fold_right Z.add 0%Z l.

Definition count_if {A : Type} (p : A -> bool) (l : list A) : Z :=
  Z.of_nat (length (filter p l)).

(** The value the specification expects in an empty bin when [interpnan] is
    set: the straight line through the two neighbouring bins, read at the
    bin's centre. *)
Definition lerp (x0 y0 x1 y1 x : float64) : float64 :=
  (y0 + (y1 - y0) * ((x - x0) / (x1 - x0)))%f64.

Definition float_count_error : exn :=
  TypeError "'numpy.float64' object cannot be interpreted as an integer".

(** The calls the general theorems are about: a non-empty image, a finite
    positive bin size, a finite centre when one is given, weights of the
    shape of the image and no standard deviation with them, a mask with one
    entry per pixel. *)
Record valid_call (image : ndarray float64) (kw : kwargs) (b : Q) : Prop := {
  vc_image : well_shaped image;
  vc_rows : (0 < fst (shape image))%nat;
  vc_cols : (0 < snd (shape image))%nat;
  vc_binsize : get (kw_binsize kw) (Fin (1 # 2)) = Fin b;
  vc_positive : (0 < b)%Q;
  vc_center : forall c, kw_center kw = Some c ->
                        isfinite (fst c) = true /\ isfinite (snd c) = true;
  vc_weights : forall w, kw_weights kw = Some w ->
                         kw_stddev kw = false /\ shape w = shape image
                         /\ well_shaped w;
  vc_mask : forall m, kw_mask kw = Some m ->
                      length (flat m) = size_of (shape image)
}.

(** Half the horizontal index extent, [(x.max() - x.min()) / 2.0], which is
    [(cols - 1) / 2]. *)
Definition sampling_frequency (image : ndarray float64) : Q :=
  inject_Z (Z.of_nat (snd (shape image)) - 1) / 2.

(** What holds of the local variables of a valid call of
    [azimuthal_average] without [interpnan]. *)
Record computed {M : LibM} (image : ndarray float64) (kw : kwargs) (b : Q)
       (l : azimuthal_vars) : Prop := {
  cp_nbins : (1 <= l_nbins l)%Z;
  cp_nbins_true : l_nbins_true l = Qfloor (sampling_frequency image / b);
  cp_nonneg : (0 <= l_nbins_true l)%Z;
  cp_fewer : (l_nbins_true l < l_nbins l)%Z;
  cp_bins : length (l_bins l) = S (Z.to_nat (l_nbins l));
  cp_centers : length (l_bin_centers l) = Z.to_nat (l_nbins_true l);
  cp_increasing : adjacent_all fltb (l_bin_centers l) = true;
  cp_prof : length (l_prof l)
            = Z.to_nat (if kw_stddev kw then l_nbins l else l_nbins_true l);
  cp_whichbin : length (l_whichbin l) = size_of (shape image);
  cp_mask : length (l_mask l) = size_of (shape image);
  cp_weights : shape (l_weights l) = shape image
               /\ length (flat (l_weights l)) = size_of (shape image);
  cp_aggregate :
    aggregate image (l_weights l) (l_mask l) (l_whichbin l) (kw_stddev kw)
              (kw_sum_bin kw) (l_nbins l) (l_nbins_true l)
    = Ok (l_prof l)
}.

(** A finite value that is not negative. *)
Definition finite_nonneg (v : float64) : Prop :=
  exists q : Q, v = Fin q /\ (0 <= q)%Q.

(** Strictly increasing. *)
Definition increasing (l : list float64) : bool := adjacent_all fltb l.

(** What [a.flat[mask * (whichbin == b)]] selects. *)
Definition bin_members {A : Type} (a : list A) (mask : list bool)
           (whichbin : list Z) (b : Z) : list A :=
  map fst (filter snd
             (combine a (map2 andb mask (map (fun w => Z.eqb w b) whichbin)))).

(** ** Calls derived from a call, and when the centre is known *)

(** The centre is found whenever it is given or the image has a pixel. *)
Definition center_known (image : ndarray float64)
           (center : option (float64 * float64)) : Prop :=
  center <> None
  \/ ((0 < fst (shape image))%nat /\ (0 < snd (shape image))%nat).


(** The upper end of the angle range under the [symmetric] argument. *)
Definition sector_range (symmetric : option Z) : float64 :=
  match symmetric with
  | Some 2%Z => Fin 90
  | Some 1%Z => Fin 180
  | _ => Fin 360
  end.

(** The call of a pass of the loop of [azimuthal_average_bins] when [kwargs]
    holds neither [mask] nor [returnradii]. *)
Definition sector_kwargs (kw : kwargs) (c : float64 * float64)
           (mask : ndarray bool) : kwargs :=
  mk_kwargs (Some c) (kw_stddev kw) true (kw_return_nr kw)
    (kw_return_az kw) (kw_return_naz kw) (kw_binsize kw)
    (kw_weights kw) (kw_steps kw) (kw_interpnan kw)
    (kw_left kw) (kw_right kw) (Some mask) (kw_sum_bin kw).

(** The same call without a mask. *)
Definition whole_kwargs (kw : kwargs) (c : float64 * float64) : kwargs :=
  mk_kwargs (Some c) (kw_stddev kw) true (kw_return_nr kw)
    (kw_return_az kw) (kw_return_naz kw) (kw_binsize kw)
    (kw_weights kw) (kw_steps kw) (kw_interpnan kw)
    (kw_left kw) (kw_right kw) None (kw_sum_bin kw).

(** ** Values of a double *)


(** ** Boundaries that fall inside a sector or a band *)

(** The boundary [b], reduced modulo 360, lies strictly inside no sector:
    [blow % 360 < b % 360 < bhigh % 360] fails for every pass
    [(blow, bhigh)] of the loop. *)
Definition outside_sectors (azbins : list float64) (b : float64) : bool :=
  forallb (fun p => negb ((np_mod b (Fin 360) >? np_mod (fst p) (Fin 360))
                          && (np_mod b (Fin 360) <? np_mod (snd p) (Fin 360)))%f64)
          (consecutive azbins).

(** The boundary [b] lies strictly inside no band. *)
Definition outside_bands (radbins : list float64) (b : float64) : bool :=
  forallb (fun p => negb ((b <? snd p) && (b >? fst p))%f64)
          (consecutive radbins).

(** Boundaries of one turn: between 0 and 360, ends included. *)
Definition within_turn (azbins : list float64) : bool :=
  forallb (fun c => (Fin 0 <=? c) && (c <=? Fin 360))%f64 azbins.

(** * Properties *)

(** ** The executable library is a library *)

Lemma sqrt_model_finite (q : Q) :
  (0 <= q)%Q -> exists r : Q, sqrt_model (Fin q) = Fin r /\ (0 <= r)%Q.
Proof.
  intros Hq. unfold sqrt_model.
  apply Qle_bool_iff in Hq. rewrite Hq.
  set (s := Z.sqrt _).
  assert (Hs : (0 <= s)%Z) by apply Z.sqrt_nonneg.
  destruct (_ =? _)%Z; eexists; (split; [reflexivity |]);
    unfold Qle; simpl; lia.
Qed.

Lemma sqrt_model_square (x r : Q) :
  (0 <= x)%Q -> sqrt_model (Fin x) = Fin r -> (0 <= r)%Q /\ (x <= r * r)%Q.
Proof.
  intros Hx. unfold sqrt_model.
  assert (Hb : Qle_bool 0 x = true) by now apply Qle_bool_iff.
  rewrite Hb.
  set (d := Zpos (Qden x)). set (n := Qnum x).
  set (scaled := (n * 4 ^ Zpos sqrt_digits)%Z).
  set (m := (scaled / d)%Z). set (s0 := Z.sqrt m).
  assert (Hn : (0 <= n)%Z) by (unfold Qle in Hx; simpl in Hx; lia).
  assert (Hd : (0 < d)%Z) by (unfold d; lia).
  assert (Hsc : (0 <= scaled)%Z) by (unfold scaled; lia).
  assert (Hm : (0 <= m)%Z) by (unfold m; apply Z.div_pos; lia).
  pose proof (Z.sqrt_spec m Hm) as Hs. fold s0 in Hs. cbv zeta in Hs.
  assert (Hs0 : (0 <= s0)%Z) by apply Z.sqrt_nonneg.
  pose proof (Z.mul_succ_div_gt scaled d Hd) as Hlt. fold m in Hlt.
  assert (Hpow : Zpos (2 ^ sqrt_digits * 2 ^ sqrt_digits) = (4 ^ Zpos sqrt_digits)%Z)
    by reflexivity.
  assert (Hgoal : forall s, (0 <= s)%Z -> (scaled <= s * s * d)%Z ->
                            (0 <= s # 2 ^ sqrt_digits)%Q
                            /\ (x <= (s # 2 ^ sqrt_digits) * (s # 2 ^ sqrt_digits))%Q).
  { intros s Hs1 Hs2. split.
    - unfold Qle. cbn [Qnum Qden]. lia.
    - unfold Qle, Qmult. cbn [Qnum Qden]. rewrite Hpow. fold n d.
      unfold scaled in Hs2. exact Hs2. }
  destruct (s0 * s0 * d =? scaled)%Z eqn:E; intros H; injection H as <-.
  - apply Z.eqb_eq in E. apply Hgoal; lia.
  - apply Hgoal; [lia |]. nia.
Qed.

Lemma sqrt_model_above (p q r : Q) :
  sqrt_model (Fin (p * p + q * q)) = Fin r -> (Qabs p <= r)%Q.
Proof.
  intros H. apply sqrt_model_square in H as [Hr Hx]; [| nra].
  apply Qabs_case; intros Hp; nra.
Qed.

Lemma fdiv_Fin (p b : Q) : (0 < b)%Q -> (Fin p / Fin b)%f64 = Fin (p / b).
Proof.
  intros Hb. unfold fdiv.
  destruct (Qeq_bool b 0) eqn:E; [| reflexivity].
  apply Qeq_bool_iff in E. lra.
Qed.

Lemma arctan2_model_range (p q : Q) :
  exists t : Q, arctan2_model (Fin p) (Fin q) = Fin t
                /\ (- pi_q <= t <= pi_q)%Q.
Proof.
  assert (Hpi : (3 < pi_q)%Q) by reflexivity.
  unfold arctan2_model.
  destruct (Qeq_bool (Qabs p) 0 && Qeq_bool (Qabs q) 0) eqn:Ez.
  - exists 0%Q. split; [reflexivity | lra].
  - pose proof (Qabs_nonneg p) as Hp. pose proof (Qabs_nonneg q) as Hq.
    set (ap := Qabs p) in *. set (aq := Qabs q) in *.
    set (t := if Qle_bool ap aq then (ap / aq)%Q else (aq / ap)%Q).
    assert (Ht : (0 <= t <= 1)%Q).
    { unfold t. destruct (Qle_bool ap aq) eqn:E.
      - apply Qle_bool_iff in E.
        assert (Haq : (0 < aq)%Q).
        { apply Qnot_le_lt. intros H0.
          assert (E1 : (aq == 0)%Q) by lra. assert (E2 : (ap == 0)%Q) by lra.
          apply Qeq_bool_iff in E1, E2. rewrite E1, E2 in Ez. discriminate. }
        split.
        + apply Qle_shift_div_l; [exact Haq | lra].
        + apply Qle_shift_div_r; [exact Haq | lra].
      - assert (Hlt : (aq < ap)%Q).
        { apply Qnot_le_lt. intros H. apply Qle_bool_iff in H. congruence. }
        split.
        + apply Qle_shift_div_l; lra.
        + apply Qle_shift_div_r; lra. }
    change np_pi with (Fin pi_q).
    rewrite !fdiv_Fin by reflexivity. cbn [fmul fadd].
    set (A := (t * (pi_q / 4) + (273 # 1000) * t * (1 - t))%Q).
    assert (HA : (0 <= A <= pi_q / 4)%Q).
    { unfold A. assert (E4 : (pi_q / 4 == pi_q * (1 # 4))%Q) by (field).
      rewrite E4. split; nra. }
    assert (E2 : (pi_q / 2 == pi_q * (1 # 2))%Q) by field.
    assert (E4 : (pi_q / 4 == pi_q * (1 # 4))%Q) by field.
    destruct (Qle_bool ap aq), (Qle_bool 0 q), (Qle_bool 0 p);
      cbn [fsub fopp fadd]; eexists; (split; [reflexivity |]); lra.
Qed.

#[export] Instance libm_model : LibM := {
  np_sqrt := sqrt_model;
  np_arctan2 := arctan2_model;
  np_sqrt_finite := sqrt_model_finite;
  np_sqrt_above := sqrt_model_above;
  np_arctan2_range := arctan2_model_range
}.

(** ** Results and list comprehensions *)

Lemma bind_ok {A B : Type} (m : result A) (k : A -> result B) (b : B) :
  bind m k = Ok b -> exists a, m = Ok a /\ k a = Ok b.
Proof.
  destruct m as [a | e]; simpl; intros H; [eauto | discriminate].
Qed.

Lemma mapM_length {A B : Type} (f : A -> result B) (l : list A) (bs : list B) :
  mapM f l = Ok bs -> length bs = length l.
Proof.
  revert bs. induction l as [| a l IH]; simpl; intros bs H.
  - injection H as <-. reflexivity.
  - destruct (f a) as [b | e]; simpl in H; [| discriminate].
    destruct (mapM f l) as [bs' | e]; simpl in H; [| discriminate].
    injection H as <-. simpl. f_equal. now apply IH.
Qed.

Lemma mapM_total {A B : Type} (f : A -> result B) (l : list A) :
  (forall a, In a l -> is_ok (f a) = true) -> exists bs, mapM f l = Ok bs.
Proof.
  induction l as [| a l IH]; simpl; intros H.
  - eauto.
  - assert (Ha : is_ok (f a) = true) by (apply H; now left).
    destruct (f a) as [b | e]; [| discriminate].
    destruct IH as [bs Hbs]; [intros; apply H; now right |].
    rewrite Hbs. simpl. eauto.
Qed.

Lemma mapM_nth_error {A B : Type} (f : A -> result B) (l : list A)
      (bs : list B) (i : nat) (a : A) :
  mapM f l = Ok bs -> nth_error l i = Some a ->
  exists b, f a = Ok b /\ nth_error bs i = Some b.
Proof.
  revert bs i. induction l as [| a0 l IH]; simpl; intros bs i H Hi.
  - destruct i; discriminate.
  - destruct (f a0) as [b0 | e] eqn:E0; simpl in H; [| discriminate].
    destruct (mapM f l) as [bs' | e]; simpl in H; [| discriminate].
    injection H as <-. destruct i as [| i]; simpl in *.
    + injection Hi as <-. eauto.
    + now apply IH.
Qed.

Lemma length_map2 {A B C : Type} (f : A -> B -> C) (l : list A) (l' : list B) :
  length (map2 f l l') = Nat.min (length l) (length l').
Proof.
  unfold map2. now rewrite length_map, length_combine.
Qed.

Lemma mapM_ext {A B : Type} (f g : A -> result B) (l : list A) :
  (forall a, In a l -> f a = g a) -> mapM f l = mapM g l.
Proof.
  induction l as [| a l IH]; intros H; [reflexivity |].
  simpl. rewrite (H a) by now left. rewrite IH; [reflexivity |].
  intros; apply H; now right.
Qed.

Lemma nth_map2_andb (l l' : list bool) (k : nat) :
  nth k (map2 andb l l') false = nth k l false && nth k l' false.
Proof.
  unfold map2. revert l' k. induction l as [| a l IH]; intros l' k.
  - destruct k; reflexivity.
  - destruct l' as [| b l'].
    + destruct k; simpl; now rewrite andb_false_r.
    + destruct k as [| k]; [reflexivity | simpl; apply IH].
Qed.

Lemma nth_error_map2 {A B C : Type} (f : A -> B -> C) (l : list A)
      (l' : list B) (k : nat) :
  nth_error (map2 f l l') k
  = match nth_error l k, nth_error l' k with
    | Some a, Some b => Some (f a b)
    | _, _ => None
    end.
Proof.
  unfold map2. revert l' k. induction l as [| a l IH]; intros l' k.
  - destruct k; reflexivity.
  - destruct l' as [| b l'].
    + destruct k as [| k]; simpl; [reflexivity |].
      destruct (nth_error l k); reflexivity.
    + destruct k as [| k]; [reflexivity | simpl; apply IH].
Qed.

Lemma length_zrange (a b : Z) : length (zrange a b) = Z.to_nat (b - a).
Proof.
  unfold zrange. now rewrite length_map, length_seq.
Qed.

Lemma length_zip_ravel (a b : list float64) :
  length (zip_ravel a b) = (2 * Nat.min (length a) (length b))%nat.
Proof.
  unfold zip_ravel. revert b.
  induction a as [| x a IH]; intros [| y b]; simpl; try reflexivity.
  rewrite IH. lia.
Qed.

(** ** Comparisons of float64 *)

Lemma fltb_Fin (p q : Q) : fltb (Fin p) (Fin q) = true <-> (p < q)%Q.
Proof.
  simpl. rewrite negb_true_iff. split; intros H.
  - apply Qnot_le_lt. intros Hle. apply Qle_bool_iff in Hle. congruence.
  - apply not_true_iff_false. rewrite Qle_bool_iff. now apply Qlt_not_le.
Qed.

Lemma fltb_Fin_false (p q : Q) : fltb (Fin p) (Fin q) = false <-> (q <= p)%Q.
Proof.
  simpl. rewrite negb_false_iff. apply Qle_bool_iff.
Qed.

Lemma feqb_Fin (p q : Q) : feqb (Fin p) (Fin q) = true <-> (p == q)%Q.
Proof. simpl. apply Qeq_bool_iff. Qed.

Lemma fleb_Fin (p q : Q) : fleb (Fin p) (Fin q) = true <-> (p <= q)%Q.
Proof.
  unfold fleb. rewrite orb_true_iff, fltb_Fin, feqb_Fin. split.
  - intros [H | H]; [now apply Qlt_le_weak | rewrite H; apply Qle_refl].
  - intros H. apply Qle_lteq in H. tauto.
Qed.

(** A value equal to a bound is on neither strict side of it. *)
Lemma feqb_not_fltb (a b : float64) :
  feqb a b = true -> fltb a b = false /\ fltb b a = false.
Proof.
  destruct a as [p | | |], b as [q | | |]; simpl; try discriminate; auto.
  intros H. apply Qeq_bool_iff in H. rewrite !negb_false_iff. split.
  - apply Qle_bool_iff. rewrite H. apply Qle_refl.
  - apply Qle_bool_iff. rewrite H. apply Qle_refl.
Qed.

Lemma fleb_trans (a b c : float64) :
  fleb a b = true -> fleb b c = true -> fleb a c = true.
Proof.
  destruct a as [p | | |], b as [q | | |], c as [r | | |];
    try reflexivity; try discriminate.
  rewrite !fleb_Fin. apply Qle_trans.
Qed.

Lemma fleb_feqb_not_above (x y t : float64) :
  fleb x y = true -> feqb t y = true -> fltb t x = false.
Proof.
  destruct x as [p | | |], y as [q | | |], t as [r | | |];
    try reflexivity; try discriminate.
  rewrite fleb_Fin, feqb_Fin, fltb_Fin_false. intros H1 H2. now rewrite H2.
Qed.

Lemma fleb_feqb_not_below (x y t : float64) :
  fleb y x = true -> feqb t y = true -> fltb x t = false.
Proof.
  destruct x as [p | | |], y as [q | | |], t as [r | | |];
    try reflexivity; try discriminate.
  rewrite fleb_Fin, feqb_Fin, fltb_Fin_false. intros H1 H2. now rewrite H2.
Qed.

(** ** Boundaries and the masks of sectors and bands *)

Lemma consecutive_cons (a b : float64) (l : list float64) :
  consecutive (a :: b :: l) = (a, b) :: consecutive (b :: l).
Proof. reflexivity. Qed.

Lemma consecutive_single (a : float64) : consecutive [a] = [].
Proof. reflexivity. Qed.

Lemma nth_error_consecutive (bs : list float64) (j : nat) (lo hi : float64) :
  nth_error (consecutive bs) j = Some (lo, hi) <->
  nth_error bs j = Some lo /\ nth_error bs (S j) = Some hi.
Proof.
  destruct bs as [| a bs].
  - destruct j; simpl; split; intros H; try discriminate; destruct H; discriminate.
  - revert a j. induction bs as [| b bs IH]; intros a j.
    + rewrite consecutive_single.
      destruct j as [| [| j]]; simpl; split; intros H;
        try discriminate; destruct H; discriminate.
    + rewrite consecutive_cons. destruct j as [| j].
      * simpl. split.
        -- intros H. injection H as <- <-. auto.
        -- intros [H1 H2]. injection H1 as <-. injection H2 as <-. reflexivity.
      * change (nth_error ((a, b) :: consecutive (b :: bs)) (S j))
          with (nth_error (consecutive (b :: bs)) j).
        rewrite IH. reflexivity.
Qed.

Lemma consecutive_map (f : float64 -> float64) (bs : list float64) :
  consecutive (map f bs) = map (fun p => (f (fst p), f (snd p))) (consecutive bs).
Proof.
  destruct bs as [| a bs]; [reflexivity |].
  revert a. induction bs as [| b bs IH]; intros a; [reflexivity |].
  change (map f (a :: b :: bs)) with (f a :: f b :: map f bs).
  rewrite !consecutive_cons. cbn [map fst snd]. f_equal. apply (IH b).
Qed.

Lemma adjacent_all_head (a : float64) (l : list float64) (y : float64) :
  adjacent_all fleb (a :: l) = true -> In y l -> fleb a y = true.
Proof.
  revert a. induction l as [| b l IH]; intros a H Hy; [destruct Hy |].
  simpl in H. apply andb_true_iff in H. destruct H as [Hab Hl].
  destruct Hy as [<- | Hy]; [exact Hab |].
  apply fleb_trans with b; [exact Hab | now apply IH].
Qed.

Lemma adjacent_all_tail (a : float64) (l : list float64) :
  adjacent_all fleb (a :: l) = true -> adjacent_all fleb l = true.
Proof.
  destruct l as [| b l]; [reflexivity |].
  simpl. intros H. apply andb_true_iff in H. tauto.
Qed.

Lemma nondecreasing_nth (l : list float64) (i j : nat) (x y : float64) :
  nondecreasing l = true -> (i < j)%nat ->
  nth_error l i = Some x -> nth_error l j = Some y -> fleb x y = true.
Proof.
  unfold nondecreasing. revert i j.
  induction l as [| a l IH]; intros i j Hs Hij Hi Hj.
  - destruct i; discriminate.
  - destruct j as [| j]; [lia |].
    destruct i as [| i]; simpl in Hi, Hj.
    + injection Hi as <-. apply adjacent_all_head with l; [exact Hs |].
      eapply nth_error_In; eassumption.
    + apply IH with i j; [eapply adjacent_all_tail; eassumption | lia | assumption..].
Qed.

Lemma nth_sector_mask (theta_deg : list float64) (blow bhigh : float64)
      (k : nat) (t : float64) :
  nth_error theta_deg k = Some t ->
  nth k (sector_mask theta_deg blow bhigh) false
  = ((t >? np_mod blow (Fin 360)) && (t <? np_mod bhigh (Fin 360)))%f64.
Proof.
  unfold sector_mask, map2. revert k.
  induction theta_deg as [| a l IH]; intros k H.
  - destruct k; discriminate.
  - destruct k as [| k]; simpl in *.
    + now injection H as <-.
    + now apply IH.
Qed.

Lemma nth_band_mask (r : list float64) (blow bhigh : float64)
      (k : nat) (d : float64) :
  nth_error r k = Some d ->
  nth k (band_mask r blow bhigh) false = ((d <? bhigh) && (d >? blow))%f64.
Proof.
  unfold band_mask, map2. revert k.
  induction r as [| a l IH]; intros k H.
  - destruct k; discriminate.
  - destruct k as [| k]; simpl in *.
    + now injection H as <-.
    + now apply IH.
Qed.

(** A value equal to the boundary at position [i] lies in neither of the
    open intervals that end or start there, and in no open interval at all
    when the boundaries do not decrease. *)
Lemma bound_in_no_open_interval (bs : list float64) (t b : float64) (i : nat) :
  nth_error bs i = Some b -> feqb t b = true ->
  (forall j lo hi, j = i \/ S j = i ->
                   nth_error (consecutive bs) j = Some (lo, hi) ->
                   (fgtb t lo && fltb t hi) = false)
  /\ (nondecreasing bs = true ->
      forall lo hi, In (lo, hi) (consecutive bs) ->
                    (fgtb t lo && fltb t hi) = false).
Proof.
  intros Hi Ht. pose proof (feqb_not_fltb _ _ Ht) as [Htb Hbt]. split.
  - intros j lo hi Hj Hc. apply nth_error_consecutive in Hc as [Hlo Hhi].
    apply andb_false_iff. destruct Hj as [-> | <-].
    + left. rewrite Hi in Hlo. injection Hlo as <-. exact Hbt.
    + right. rewrite Hi in Hhi. injection Hhi as <-. exact Htb.
  - intros Hs lo hi Hin. apply In_nth_error in Hin as [j Hc].
    apply nth_error_consecutive in Hc as [Hlo Hhi].
    apply andb_false_iff.
    destruct (Nat.lt_trichotomy (S j) i) as [Hlt | [Heq | Hgt]].
    + right. apply fleb_feqb_not_above with b; [| exact Ht].
      eapply nondecreasing_nth; eassumption.
    + right. subst i. rewrite Hi in Hhi. injection Hhi as <-. exact Htb.
    + left. unfold fgtb.
      destruct (Nat.eq_dec j i) as [-> | Hne].
      * rewrite Hi in Hlo. injection Hlo as <-. exact Hbt.
      * apply fleb_feqb_not_below with b; [| exact Ht].
        apply nondecreasing_nth with bs i j; [assumption | lia | assumption..].
Qed.

(** ** Index grids *)

Lemma length_flat_map_const {A B : Type} (f : A -> list B) (l : list A) (n : nat) :
  (forall a, In a l -> length (f a) = n) ->
  length (flat_map f l) = (length l * n)%nat.
Proof.
  induction l as [| a l IH]; simpl; intros H; [reflexivity |].
  rewrite length_app, H, IH by auto. reflexivity.
Qed.

Lemma length_np_indices (rows cols : nat) :
  length (fst (np_indices (rows, cols))) = (rows * cols)%nat
  /\ length (snd (np_indices (rows, cols))) = (rows * cols)%nat.
Proof.
  unfold np_indices; cbn [fst snd]. split.
  - rewrite length_flat_map_const with (n := cols), length_seq; [reflexivity |].
    intros a _. apply repeat_length.
  - rewrite length_flat_map_const with (n := cols), length_seq; [reflexivity |].
    intros a _. now rewrite length_map, length_seq.
Qed.

Lemma In_x_indices (rows cols : nat) (v : Z) :
  In v (snd (np_indices (rows, cols))) <->
  (0 < rows)%nat /\ (0 <= v < Z.of_nat cols)%Z.
Proof.
  unfold np_indices; cbn [fst snd]. rewrite in_flat_map. split.
  - intros [i [Hi Hv]]. apply in_seq in Hi. apply in_map_iff in Hv as [j [<- Hj]].
    apply in_seq in Hj. lia.
  - intros [Hr Hv]. exists 0%nat. split; [apply in_seq; lia |].
    apply in_map_iff. exists (Z.to_nat v). split; [lia | apply in_seq; lia].
Qed.

Lemma In_y_indices (rows cols : nat) (v : Z) :
  In v (fst (np_indices (rows, cols))) <->
  (0 < cols)%nat /\ (0 <= v < Z.of_nat rows)%Z.
Proof.
  unfold np_indices; cbn [fst snd]. rewrite in_flat_map. split.
  - intros [i [Hi Hv]]. apply in_seq in Hi. apply repeat_spec in Hv as Hv'.
    destruct cols; [destruct Hv |]. lia.
  - intros [Hc Hv]. exists (Z.to_nat v). split; [apply in_seq; lia |].
    destruct cols as [| c]; [lia |]. cbn [repeat In]. left. lia.
Qed.

Lemma fold_left_Zmax (l : list Z) (a : Z) :
  let m := fold_left Z.max l a in
  (m = a \/ In m l) /\ (a <= m)%Z /\ (forall v, In v l -> (v <= m)%Z).
Proof.
  revert a. induction l as [| b l IH]; intros a; simpl.
  - repeat split; [now left | lia | tauto].
  - destruct (IH (Z.max a b)) as [H1 [H2 H3]]. repeat split.
    + destruct H1 as [H1 | H1]; [| now right; right].
      destruct (Z.max_spec a b) as [[_ E] | [_ E]]; rewrite E in *.
      * right. left. now symmetry.
      * now left.
    + lia.
    + intros v [<- | Hv]; [lia | now apply H3].
Qed.

Lemma fold_left_Zmin (l : list Z) (a : Z) :
  let m := fold_left Z.min l a in
  (m = a \/ In m l) /\ (m <= a)%Z /\ (forall v, In v l -> (m <= v)%Z).
Proof.
  revert a. induction l as [| b l IH]; intros a; simpl.
  - repeat split; [now left | lia | tauto].
  - destruct (IH (Z.min a b)) as [H1 [H2 H3]]. repeat split.
    + destruct H1 as [H1 | H1]; [| now right; right].
      destruct (Z.min_spec a b) as [[_ E] | [_ E]]; rewrite E in *.
      * now left.
      * right. left. now symmetry.
    + lia.
    + intros v [<- | Hv]; [lia | now apply H3].
Qed.

Lemma int_max_spec (l : list Z) (hi : Z) :
  In hi l -> (forall v, In v l -> (v <= hi)%Z) -> int_max l = Ok hi.
Proof.
  destruct l as [| a l]; [intros [] |]. intros Hin Hle. simpl. f_equal.
  destruct (fold_left_Zmax l a) as [H1 [H2 H3]].
  assert (Hm : In (fold_left Z.max l a) (a :: l))
    by (destruct H1 as [-> | H1]; [now left | now right]).
  apply Hle in Hm.
  destruct Hin as [<- | Hin]; [lia |]. apply H3 in Hin. lia.
Qed.

Lemma int_min_spec (l : list Z) (lo : Z) :
  In lo l -> (forall v, In v l -> (lo <= v)%Z) -> int_min l = Ok lo.
Proof.
  destruct l as [| a l]; [intros [] |]. intros Hin Hle. simpl. f_equal.
  destruct (fold_left_Zmin l a) as [H1 [H2 H3]].
  assert (Hm : In (fold_left Z.min l a) (a :: l))
    by (destruct H1 as [-> | H1]; [now left | now right]).
  apply Hle in Hm.
  destruct Hin as [<- | Hin]; [lia |]. apply H3 in Hin. lia.
Qed.

Lemma x_extent (rows cols : nat) :
  (0 < rows)%nat -> (0 < cols)%nat ->
  int_max (snd (np_indices (rows, cols))) = Ok (Z.of_nat cols - 1)%Z
  /\ int_min (snd (np_indices (rows, cols))) = Ok 0%Z.
Proof.
  intros Hr Hc. split.
  - apply int_max_spec; [apply In_x_indices; lia |].
    intros v Hv. apply In_x_indices in Hv. lia.
  - apply int_min_spec; [apply In_x_indices; lia |].
    intros v Hv. apply In_x_indices in Hv. lia.
Qed.

Lemma y_extent (rows cols : nat) :
  (0 < rows)%nat -> (0 < cols)%nat ->
  int_max (fst (np_indices (rows, cols))) = Ok (Z.of_nat rows - 1)%Z
  /\ int_min (fst (np_indices (rows, cols))) = Ok 0%Z.
Proof.
  intros Hr Hc. split.
  - apply int_max_spec; [apply In_y_indices; lia |].
    intros v Hv. apply In_y_indices in Hv. lia.
  - apply int_min_spec; [apply In_y_indices; lia |].
    intros v Hv. apply In_y_indices in Hv. lia.
Qed.

(** The default centre is the midpoint of the index ranges. *)
Lemma default_center_value (rows cols : nat) :
  (0 < rows)%nat -> (0 < cols)%nat ->
  default_center (snd (np_indices (rows, cols))) (fst (np_indices (rows, cols)))
  = Ok (Fin (inject_Z (Z.of_nat cols - 1 - 0) / 2),
        Fin (inject_Z (Z.of_nat rows - 1 - 0) / 2)).
Proof.
  intros Hr Hc. unfold default_center.
  destruct (x_extent Hr Hc) as [-> ->]. destruct (y_extent Hr Hc) as [-> ->].
  reflexivity.
Qed.

Lemma In_combine_app {A B : Type} (a b : list A) (c d : list B) (p : A * B) :
  length a = length c -> In p (combine a c) -> In p (combine (a ++ b) (c ++ d)).
Proof.
  revert c. induction a as [| u a IH]; intros [| v c] Hlen Hp;
    try discriminate; [destruct Hp |].
  simpl in *. destruct Hp as [<- | Hp]; [now left |].
  right. apply IH; [lia | exact Hp].
Qed.

Lemma In_combine_row (cols : nat) (v : Z) (s j : nat) :
  (s <= j < s + cols)%nat ->
  In (Z.of_nat j, v) (combine (map Z.of_nat (seq s cols)) (repeat v cols)).
Proof.
  revert s. induction cols as [| cols IH]; intros s Hj; [lia |].
  simpl. destruct (Nat.eq_dec j s) as [-> | Hne]; [now left |].
  right. apply IH. lia.
Qed.

(** The pixels of the first row: every column index, with the row index 0. *)
Lemma In_first_row (rows cols j : nat) :
  (0 < rows)%nat -> (j < cols)%nat ->
  In (Z.of_nat j, 0%Z)
     (combine (snd (np_indices (rows, cols))) (fst (np_indices (rows, cols)))).
Proof.
  intros Hr Hj. unfold np_indices. cbn [fst snd].
  destruct rows as [| rows]; [lia |].
  cbn [seq flat_map]. apply In_combine_app.
  - now rewrite length_map, length_seq, repeat_length.
  - apply (In_combine_row cols 0%Z (s := 0)). lia.
Qed.

(** ** Distances and their maximum *)


Section Distances.
Context {M : LibM}.

Lemma np_hypot_finite (a b : float64) :
  isfinite a = true -> isfinite b = true -> finite_nonneg (np_hypot a b).
Proof.
  destruct a as [p | | |], b as [q | | |]; try discriminate. intros _ _.
  unfold np_hypot. cbn [fmul fadd].
  destruct (np_sqrt_finite (q := p * p + q * q)) as [r [Hr Hr0]]; [nra |].
  exists r. auto.
Qed.

Lemma distance_map_finite (c : float64 * float64) (x y : list Z) :
  isfinite (fst c) = true -> isfinite (snd c) = true ->
  Forall finite_nonneg (distance_map c x y).
Proof.
  intros Hx Hy. unfold distance_map, map2. apply Forall_forall.
  intros v Hv. apply in_map_iff in Hv as [[xi yi] [<- _]]. cbn [fst snd].
  destruct c as [[cx | | |] [cy | | |]]; try discriminate.
  apply np_hypot_finite; reflexivity.
Qed.

Lemma length_distance_map (c : float64 * float64) (x y : list Z) :
  length (distance_map c x y) = Nat.min (length x) (length y).
Proof. apply length_map2. Qed.

(** The distance map holds, for every column, a distance that is at least
    the horizontal offset of that column from the centre. *)
Lemma distance_first_row (cx cy : Q) (rows cols j : nat) :
  (0 < rows)%nat -> (j < cols)%nat ->
  exists q, In (Fin q) (distance_map (Fin cx, Fin cy)
                          (snd (np_indices (rows, cols)))
                          (fst (np_indices (rows, cols))))
            /\ (Qabs (inject_Z (Z.of_nat j) - cx) <= q)%Q.
Proof.
  intros Hr Hj. unfold distance_map, map2.
  pose proof (In_first_row Hr Hj) as Hin.
  set (dx := (inject_Z (Z.of_nat j) + - cx)%Q).
  set (dy := (inject_Z 0 + - cy)%Q).
  destruct (np_sqrt_finite (q := dx * dx + dy * dy)) as [q [Eq _]]; [nra |].
  exists q. split.
  - apply in_map_iff. exists (Z.of_nat j, 0%Z). split; [| exact Hin].
    cbn [fst snd]. unfold np_hypot, of_Z. cbn [fsub fopp fadd fmul].
    exact Eq.
  - apply (np_sqrt_above _ _ Eq).
Qed.

End Distances.

Lemma fold_left_fmaximum (l : list float64) (p : Q) :
  (0 <= p)%Q -> Forall finite_nonneg l ->
  exists q, fold_left fmaximum l (Fin p) = Fin q /\ (p <= q)%Q
            /\ Forall (fun v => exists r, v = Fin r /\ (r <= q)%Q) l.
Proof.
  revert p. induction l as [| a l IH]; intros p Hp Hl.
  - exists p. simpl. repeat split; [apply Qle_refl | constructor].
  - inversion Hl as [| a' l' [r [-> Hr]] Hl']; subst.
    cbn [fold_left]. unfold fmaximum at 2. cbn [isnan].
    destruct (fltb (Fin p) (Fin r)) eqn:E.
    + apply fltb_Fin in E.
      destruct (IH r Hr Hl') as [q [Hq [Hrq Hall]]].
      exists q. repeat split; [exact Hq | lra |].
      constructor; [exists r; split; [reflexivity | exact Hrq] | exact Hall].
    + apply fltb_Fin_false in E.
      destruct (IH p Hp Hl') as [q [Hq [Hpq Hall]]].
      exists q. repeat split; [exact Hq | exact Hpq |].
      constructor; [exists r; split; [reflexivity | lra] | exact Hall].
Qed.

(** The maximum of a non-empty array of finite non-negative values is one,
    and bounds them all. *)
Lemma np_max_finite (l : list float64) :
  l <> [] -> Forall finite_nonneg l ->
  exists q, np_max l = Ok (Fin q) /\ (0 <= q)%Q
            /\ Forall (fun v => exists r, v = Fin r /\ (r <= q)%Q) l.
Proof.
  destruct l as [| a l]; [congruence |]. intros _ Hl.
  inversion Hl as [| a' l' [p [-> Hp]] Hl']; subst.
  destruct (fold_left_fmaximum Hp Hl') as [q [Hq [Hpq Hall]]].
  exists q. simpl. rewrite Hq. repeat split; [lra |].
  constructor; [exists p; auto | exact Hall].
Qed.

(** ** The number of bins *)

Lemma Qtrunc_nonneg (q : Q) : (0 <= q)%Q -> Qtrunc q = Qfloor q.
Proof.
  intros H. unfold Qtrunc. apply Qle_bool_iff in H. now rewrite H.
Qed.

Lemma Qtrunc_Z_plus_1 (k : Z) : Qtrunc (inject_Z k + 1) = (k + 1)%Z.
Proof.
  assert (E : (inject_Z k + 1 == inject_Z (k + 1))%Q)
    by (rewrite inject_Z_plus; reflexivity).
  unfold Qtrunc. destruct (Qle_bool 0 (inject_Z k + 1)).
  - rewrite E. apply Qfloor_Z.
  - rewrite E. apply Qceiling_Z.
Qed.

Lemma round_half_even_bounds (q : Q) :
  (Qfloor q <= round_half_even q <= Qfloor q + 1)%Z.
Proof.
  unfold round_half_even.
  destruct (q - inject_Z (Qfloor q) ?= 1 # 2)%Q; [destruct (Z.even _) | |]; lia.
Qed.

Lemma round_half_even_above (q : Q) :
  (q < inject_Z (round_half_even q + 1))%Q.
Proof.
  pose proof (round_half_even_bounds q) as [H _].
  apply Qlt_le_trans with (inject_Z (Qfloor q + 1)); [apply Qlt_floor |].
  rewrite <- Zle_Qle. lia.
Qed.

Lemma round_half_even_nonneg (q : Q) :
  (0 <= q)%Q -> (0 <= round_half_even q)%Z.
Proof.
  intros H. pose proof (round_half_even_bounds q) as [H1 _].
  apply Qfloor_resp_le in H. change (Qfloor 0) with 0%Z in H. lia.
Qed.

(** [int(np.round(rmax / binsize) + 1)] *)
Lemma nbins_value (rm b : Q) :
  (0 < b)%Q ->
  py_int (np_round (Fin rm / Fin b) + Fin 1)%f64
  = Ok (round_half_even (rm / b) + 1)%Z.
Proof.
  intros Hb. rewrite fdiv_Fin by exact Hb. cbn [np_round of_Z fadd py_int].
  now rewrite Qtrunc_Z_plus_1.
Qed.

(** ** Bin edges *)

(** [np.linspace(0, nbins * binsize, nbins + 1)]: the edge of index [i] is
    [i * binsize]. *)
Lemma linspace_edges (nb : Z) (b : Q) :
  (1 <= nb)%Z -> (0 < b)%Q ->
  let bins := linspace_values (Fin 0) (of_Z nb * Fin b)%f64 (Z.to_nat (nb + 1)) in
  length bins = S (Z.to_nat nb)
  /\ forall i, (i <= Z.to_nat nb)%nat ->
               exists e, nth_error bins i = Some (Fin e)
                         /\ (e == inject_Z (Z.of_nat i) * b)%Q.
Proof.
  intros Hnb Hb.
  replace (Z.to_nat (nb + 1)) with (S (Z.to_nat nb)) by lia.
  destruct (Z.to_nat nb) as [| n'] eqn:En; [lia |].
  change (linspace_values (Fin 0) (of_Z nb * Fin b)%f64 (S (S n')))
    with (map (fun i => (of_Z (Z.of_nat i)
                         * ((of_Z nb * Fin b - Fin 0) / of_Z (Z.of_nat (S n')))
                         + Fin 0)%f64) (seq 0 (S n'))
          ++ [(of_Z nb * Fin b)%f64]).
  set (n := S n') in *.
  assert (Hn : (inject_Z (Z.of_nat n) == inject_Z nb)%Q)
    by (replace (Z.of_nat n) with nb by lia; reflexivity).
  assert (Hn0 : (0 < inject_Z (Z.of_nat n))%Q)
    by (rewrite Hn; change 0%Q with (inject_Z 0); rewrite <- Zlt_Qlt; lia).
  unfold of_Z. cbn [fmul fsub fopp fadd]. rewrite fdiv_Fin by exact Hn0.
  cbn [fmul fadd].
  split.
  - rewrite length_app, length_map, length_seq. simpl. lia.
  - intros i Hi. destruct (Nat.eq_dec i n) as [-> | Hne].
    + eexists. split.
      * rewrite nth_error_app2 by (rewrite length_map, length_seq; lia).
        rewrite length_map, length_seq, Nat.sub_diag. reflexivity.
      * rewrite Hn. reflexivity.
    + eexists. split.
      * rewrite nth_error_app1 by (rewrite length_map, length_seq; lia).
        rewrite nth_error_map, nth_error_seq.
        destruct (Nat.ltb_spec i n) as [_ | Hge]; [| lia].
        cbn [option_map Nat.add fmul fadd]. reflexivity.
      * rewrite Hn. field. intros E. lra.
Qed.

Lemma adjacent_all_nth (p : float64 -> float64 -> bool) (l : list float64) :
  (forall i x y, nth_error l i = Some x -> nth_error l (S i) = Some y ->
                 p x y = true) ->
  adjacent_all p l = true.
Proof.
  induction l as [| a l IH]; intros H; [reflexivity |].
  destruct l as [| b l]; [reflexivity |].
  change (adjacent_all p (a :: b :: l)) with (p a b && adjacent_all p (b :: l)).
  apply andb_true_iff. split.
  - apply (H 0%nat); reflexivity.
  - apply IH. intros i x y Hx Hy. apply (H (S i)); assumption.
Qed.

Section Edges.
Variables (nb : Z) (b : Q).
Hypothesis Hnb : (1 <= nb)%Z.
Hypothesis Hb : (0 < b)%Q.

Let bins := linspace_values (Fin 0) (of_Z nb * Fin b)%f64 (Z.to_nat (nb + 1)).

Lemma edges_increase :
  adjacent_all (fun u v => negb (fgtb u v)) bins = true.
Proof.
  destruct (linspace_edges Hnb Hb) as [Hlen Hnth]. fold bins in Hlen, Hnth.
  apply adjacent_all_nth. intros i x y Hx Hy.
  assert (Hi : (S i < length bins)%nat)
    by (apply nth_error_Some; rewrite Hy; discriminate).
  destruct (Hnth i) as [e [He Ee]]; [lia |].
  destruct (Hnth (S i)) as [e' [He' Ee']]; [lia |].
  rewrite Hx in He. injection He as ->. rewrite Hy in He'. injection He' as ->.
  unfold fgtb. apply negb_true_iff, fltb_Fin_false.
  rewrite Ee, Ee'. rewrite Nat2Z.inj_succ, <- Z.add_1_r, inject_Z_plus.
  change (inject_Z 1) with 1%Q. nra.
Qed.

Lemma np_digitize_edges (r : list float64) :
  np_digitize r bins
  = Ok (map (fun v => Z.of_nat (searchsorted_right bins v)) r).
Proof.
  unfold np_digitize. now rewrite edges_increase.
Qed.

End Edges.

(** ** Counting *)

Lemma filter_length_index {A : Type} (P : A -> bool) (P' : nat -> bool)
      (l : list A) (s : nat) :
  (forall i x, nth_error l i = Some x -> P x = P' (s + i)%nat) ->
  length (filter P l) = length (filter P' (seq s (length l))).
Proof.
  revert s. induction l as [| a l IH]; intros s H; [reflexivity |].
  cbn [filter length seq].
  rewrite (H 0%nat a eq_refl), Nat.add_0_r.
  assert (IH' : length (filter P l) = length (filter P' (seq (S s) (length l)))).
  { apply IH. intros i x Hx. rewrite (H (S i) x Hx). f_equal. lia. }
  destruct (P' s); cbn [length]; now rewrite IH'.
Qed.

Lemma filter_all_false {A : Type} (P : A -> bool) (l : list A) :
  (forall x, In x l -> P x = false) -> filter P l = [].
Proof.
  induction l as [| a l IH]; intros H; [reflexivity |].
  simpl. rewrite (H a) by now left. apply IH. intros x Hx. apply H. now right.
Qed.

Lemma filter_all_true {A : Type} (P : A -> bool) (l : list A) :
  (forall x, In x l -> P x = true) -> filter P l = l.
Proof.
  induction l as [| a l IH]; intros H; [reflexivity |].
  simpl. rewrite (H a) by now left. f_equal. apply IH. intros x Hx. apply H.
  now right.
Qed.

Lemma antitone_le (P : nat -> bool) :
  (forall i, P (S i) = true -> P i = true) ->
  forall i j, (i <= j)%nat -> P j = true -> P i = true.
Proof.
  intros H i j Hij. induction Hij as [| j Hij IH]; [auto |].
  intros Hj. apply IH, H, Hj.
Qed.

(** Among the first [N] naturals, a downward closed predicate holds of at
    most [m] exactly when it fails at [m]. *)
Lemma count_antitone (P : nat -> bool) (N m : nat) :
  (forall i, P (S i) = true -> P i = true) -> (m < N)%nat ->
  (length (filter P (seq 0 N)) <= m)%nat <-> P m = false.
Proof.
  intros Hanti Hm.
  replace N with (m + (N - m))%nat by lia.
  rewrite seq_app, filter_app, length_app. cbn [Nat.add].
  destruct (P m) eqn:E.
  - split; [| discriminate]. intros Hle. exfalso.
    rewrite (filter_all_true P (seq 0 m)) in Hle.
    + rewrite length_seq in Hle.
      destruct (N - m)%nat as [| d] eqn:Ed; [lia |].
      cbn [seq filter] in Hle. rewrite E in Hle. cbn [length] in Hle. lia.
    + intros x Hx. apply in_seq in Hx.
      apply (antitone_le P Hanti) with m; [lia | exact E].
  - split; [reflexivity |]. intros _.
    rewrite (filter_all_false P (seq m (N - m))).
    + pose proof (filter_length_le P (seq 0 m)) as Hle.
      rewrite length_seq in Hle. simpl. lia.
    + intros x Hx. apply in_seq in Hx.
      destruct (P x) eqn:Ex; [| reflexivity].
      rewrite (antitone_le P Hanti (i := m) (j := x)) in E; [discriminate | lia | exact Ex].
Qed.

Section Digitize.
Variables (nb : Z) (b : Q).
Hypothesis Hnb : (1 <= nb)%Z.
Hypothesis Hb : (0 < b)%Q.

Let bins := linspace_values (Fin 0) (of_Z nb * Fin b)%f64 (Z.to_nat (nb + 1)).

(** A distance [q] below the last edge is put in one of the first [m] bins
    exactly when it is below the edge [m * binsize]. *)
Lemma searchsorted_le (q : Q) (m : nat) :
  (q < inject_Z nb * b)%Q ->
  (searchsorted_right bins (Fin q) <= m)%nat
  <-> (q < inject_Z (Z.of_nat m) * b)%Q.
Proof.
  intros Hq.
  destruct (linspace_edges Hnb Hb) as [Hlen Hnth]. fold bins in Hlen, Hnth.
  set (P' := fun i : nat => Qle_bool (inject_Z (Z.of_nat i) * b) q).
  assert (Hcount : searchsorted_right bins (Fin q)
                   = length (filter P' (seq 0 (S (Z.to_nat nb))))).
  { unfold searchsorted_right. rewrite <- Hlen.
    apply filter_length_index. intros i x Hx. cbn [Nat.add].
    assert (Hi : (i < length bins)%nat)
      by (apply nth_error_Some; rewrite Hx; discriminate).
    destruct (Hnth i) as [e [He Ee]]; [lia |].
    rewrite Hx in He. injection He as ->.
    unfold npy_lt. cbn [isnan andb]. rewrite orb_false_r.
    cbn [fltb]. rewrite negb_involutive. unfold P'.
    destruct (Qle_bool e q) eqn:E1, (Qle_bool (inject_Z (Z.of_nat i) * b) q) eqn:E2;
      try reflexivity; exfalso.
    - apply Qle_bool_iff in E1. rewrite Ee in E1. apply Qle_bool_iff in E1.
      congruence.
    - apply Qle_bool_iff in E2. rewrite <- Ee in E2. apply Qle_bool_iff in E2.
      congruence. }
  assert (Hanti : forall i, P' (S i) = true -> P' i = true).
  { unfold P'. intros i H. apply Qle_bool_iff in H. apply Qle_bool_iff.
    rewrite Nat2Z.inj_succ, <- Z.add_1_r, inject_Z_plus in H.
    change (inject_Z 1) with 1%Q in H. nra. }
  assert (Hfalse : forall i, P' i = false <-> (q < inject_Z (Z.of_nat i) * b)%Q).
  { intros i. unfold P'. rewrite <- not_true_iff_false, Qle_bool_iff.
    split; [apply Qnot_le_lt | apply Qlt_not_le]. }
  assert (Hlast : P' (Z.to_nat nb) = false).
  { apply Hfalse. now rewrite Z2Nat.id by lia. }
  rewrite Hcount.
  destruct (Nat.lt_ge_cases m (S (Z.to_nat nb))) as [Hlt | Hge].
  - rewrite (count_antitone P' Hanti Hlt). apply Hfalse.
  - split.
    + intros _. apply Qlt_le_trans with (inject_Z nb * b); [exact Hq |].
      assert (H : (inject_Z nb <= inject_Z (Z.of_nat m))%Q)
        by (rewrite <- Zle_Qle; lia).
      nra.
    + intros _.
      apply (count_antitone P' Hanti (Nat.lt_succ_diag_r (Z.to_nat nb))) in Hlast.
      lia.
Qed.

End Digitize.

(** ** The aggregation step *)

Lemma select_bin_value {A : Type} (a : list A) (mask : list bool)
      (whichbin : list Z) (b : Z) :
  length mask = length whichbin -> length a = length whichbin ->
  select_bin a mask whichbin b = Ok (bin_members a mask whichbin b).
Proof.
  intros Hm Ha. unfold select_bin, np_mul_bool.
  rewrite length_map, Hm, Nat.eqb_refl. cbn [bind]. unfold flat_getitem.
  rewrite length_map2, length_map, Hm, Nat.min_id, Ha, Nat.ltb_irrefl.
  reflexivity.
Qed.

Lemma np_mul_value (a w : ndarray float64) :
  shape w = shape a ->
  np_mul a w = Ok (mk_ndarray (shape a) (map2 fmul (flat a) (flat w))).
Proof.
  intros H. unfold np_mul. rewrite H, !Nat.eqb_refl. reflexivity.
Qed.

Section Aggregate.
Context {M : LibM}.
Variables (image weights : ndarray float64) (mask : list bool) (whichbin : list Z).
Hypothesis Himage : length (flat image) = length whichbin.
Hypothesis Hweights : length (flat weights) = length whichbin.
Hypothesis Hshape : shape weights = shape image.
Hypothesis Hmask : length mask = length whichbin.

(** Every list comprehension runs to its end: one value per bin index. *)
Lemma aggregate_total (stddev sum_bin : bool) (nbins nbins_true : Z) :
  exists prof,
    aggregate image weights mask whichbin stddev sum_bin nbins nbins_true
    = Ok prof
    /\ length prof = Z.to_nat (if stddev then nbins else nbins_true).
Proof.
  unfold aggregate, py_range, py_index. cbn [bind].
  assert (Hiw : length (map2 fmul (flat image) (flat weights)) = length whichbin)
    by (rewrite length_map2, Himage, Hweights; apply Nat.min_id).
  destruct stddev; [| destruct sum_bin].
  - destruct (mapM_total
                (fun b => sel <- select_bin (flat image) mask whichbin b ;;
                          Ok (np_std sel)) (zrange 1 (nbins + 1))) as [prof Hp].
    { intros b _. rewrite select_bin_value by assumption. reflexivity. }
    exists prof. split; [exact Hp |].
    rewrite (mapM_length _ _ Hp), length_zrange. f_equal. lia.
  - destruct (mapM_total
                (fun b => iw <- np_mul image weights ;;
                          sel <- select_bin (flat iw) mask whichbin b ;;
                          Ok (np_sum sel)) (zrange 1 (nbins_true + 1)))
      as [prof Hp].
    { intros b _. rewrite np_mul_value by assumption. cbn [bind flat].
      rewrite select_bin_value by assumption. reflexivity. }
    exists prof. split; [exact Hp |].
    rewrite (mapM_length _ _ Hp), length_zrange. f_equal. lia.
  - destruct (mapM_total
                (fun b => iw <- np_mul image weights ;;
                          num <- select_bin (flat iw) mask whichbin b ;;
                          den <- select_bin (flat weights) mask whichbin b ;;
                          Ok (np_sum num / np_sum den)%f64)
                (zrange 1 (nbins_true + 1))) as [prof Hp].
    { intros b _. rewrite np_mul_value by assumption. cbn [bind flat].
      rewrite !select_bin_value by assumption. reflexivity. }
    exists prof. split; [exact Hp |].
    rewrite (mapM_length _ _ Hp), length_zrange. f_equal. lia.
Qed.

End Aggregate.

(** ** A valid call, step by step *)

Section ValidCall.
Context {M : LibM}.
Variables (image : ndarray float64) (kw : kwargs) (b : Q).
Hypothesis V : valid_call image kw b.

Let x := snd (np_indices (shape image)).
Let y := fst (np_indices (shape image)).
Let mask := match kw_mask kw with
            | None => repeat true (size_of (shape image))
            | Some m => flat m
            end.
Let weights := match kw_weights kw with
               | None => np_ones (shape image)
               | Some w => w
               end.

Lemma length_x : length x = size_of (shape image).
Proof.
  unfold x. destruct (shape image) as [rows cols].
  apply (length_np_indices rows cols).
Qed.

Lemma length_y : length y = size_of (shape image).
Proof.
  unfold y. destruct (shape image) as [rows cols].
  apply (length_np_indices rows cols).
Qed.

Lemma size_positive : (0 < size_of (shape image))%nat.
Proof.
  unfold size_of. pose proof (vc_rows V). pose proof (vc_cols V). nia.
Qed.

Lemma sampling_freq_value :
  (xmax <- int_max x ;; xmin <- int_min x ;;
   py_int (of_Z (xmax - xmin) / Fin 2 / Fin b)%f64)
  = Ok (Qfloor (sampling_frequency image / b)).
Proof.
  unfold x, sampling_frequency. pose proof (vc_rows V) as Hr.
  pose proof (vc_cols V) as Hc. pose proof (vc_positive V) as Hb.
  destruct (shape image) as [rows cols]. cbn [fst snd] in *.
  destruct (x_extent Hr Hc) as [-> ->]. cbn [bind]. unfold of_Z.
  rewrite fdiv_Fin by reflexivity. rewrite fdiv_Fin by exact Hb.
  cbn [py_int]. rewrite Z.sub_0_r. f_equal. apply Qtrunc_nonneg.
  assert (H : (0 <= inject_Z (Z.of_nat cols - 1))%Q)
    by (change 0%Q with (inject_Z 0); rewrite <- Zle_Qle; lia).
  apply Qle_shift_div_l; [exact Hb |]. rewrite Qmult_0_l.
  apply Qle_shift_div_l; [reflexivity |]. now rewrite Qmult_0_l.
Qed.

Lemma call_aggregate (whichbin : list Z) (stddev sum_bin : bool)
      (nbins nbins_true : Z) :
  length whichbin = size_of (shape image) ->
  exists prof,
    aggregate image weights mask whichbin stddev sum_bin nbins nbins_true
    = Ok prof
    /\ length prof = Z.to_nat (if stddev then nbins else nbins_true).
Proof.
  intros Hw. apply aggregate_total.
  - rewrite Hw. apply (vc_image V).
  - rewrite Hw. unfold weights. destruct (kw_weights kw) as [w |] eqn:E.
    + destruct (vc_weights V E) as [_ [Hs Hws]].
      unfold well_shaped in Hws. now rewrite Hs in Hws.
    + apply repeat_length.
  - unfold weights. destruct (kw_weights kw) as [w |] eqn:E.
    + apply (vc_weights V E).
    + reflexivity.
  - rewrite Hw. unfold mask. destruct (kw_mask kw) as [m |] eqn:E.
    + apply (vc_mask V E).
    + apply repeat_length.
Qed.

(** What the call computes before it aggregates. *)
Lemma azimuthal_locals_run :
  exists (c : float64 * float64) (rm : Q),
    let r := distance_map c x y in
    let nbins := (round_half_even (rm / b) + 1)%Z in
    let bins := linspace_values (Fin 0) (of_Z nbins * Fin b)%f64
                                (Z.to_nat (nbins + 1)) in
    let whichbin := map (fun v => Z.of_nat (searchsorted_right bins v)) r in
    let nbins_true := Qfloor (sampling_frequency image / b) in
    let bin_centers := slice_to nbins_true (centers_of bins) in
    resolve_center (kw_center kw) x y = Ok c
    /\ (0 <= rm)%Q
    /\ (sampling_frequency image <= rm)%Q
    /\ Forall (fun v => exists q, v = Fin q /\ (0 <= q <= rm)%Q) r
    /\ length r = size_of (shape image)
    /\ azimuthal_locals image kw
       = (radial_prof <- aggregate image weights mask whichbin (kw_stddev kw)
                           (kw_sum_bin kw) nbins nbins_true ;;
          radial_prof <-
            (if kw_interpnan kw then
               np_interp bin_centers bin_centers radial_prof
                         (kw_left kw) (kw_right kw)
             else Ok radial_prof) ;;
          Ok (mk_azimuthal_vars c r weights mask nbins bins whichbin
                (tl (np_bincount whichbin)) nbins_true bin_centers radial_prof)).
Proof.
  pose proof (vc_rows V) as Hr. pose proof (vc_cols V) as Hc.
  pose proof (vc_positive V) as Hb.
  assert (Hcenter : exists c,
             resolve_center (kw_center kw) x y = Ok c
             /\ isfinite (fst c) = true /\ isfinite (snd c) = true).
  { unfold resolve_center. destruct (kw_center kw) as [c |] eqn:Ec.
    - exists c. split; [reflexivity | now apply (vc_center V)].
    - unfold x, y. destruct (shape image) as [rows cols]. cbn [fst snd] in *.
      rewrite (default_center_value Hr Hc). eexists. split; [reflexivity |].
      split; reflexivity. }
  destruct Hcenter as [c [Ecenter [Hcx Hcy]]].
  assert (Hlen : length (distance_map c x y) = size_of (shape image))
    by (rewrite length_distance_map, length_x, length_y; apply Nat.min_id).
  destruct (np_max_finite (l := distance_map c x y)) as [rm [Emax [Hrm Hall]]].
  { intros E. rewrite E in Hlen. pose proof size_positive. simpl in Hlen. lia. }
  { now apply distance_map_finite. }
  assert (Hsf : (sampling_frequency image <= rm)%Q).
  { unfold sampling_frequency. unfold x, y in Hall.
    destruct c as [[cx | | |] [cy | | |]]; try discriminate.
    destruct (shape image) as [rows cols]. cbn [fst snd] in *.
    destruct (@distance_first_row _ cx cy rows cols 0%nat Hr Hc)
      as [q0 [Hin0 Hq0]].
    destruct (@distance_first_row _ cx cy rows cols (cols - 1)%nat Hr)
      as [q1 [Hin1 Hq1]]; [lia |].
    rewrite Forall_forall in Hall.
    destruct (Hall _ Hin0) as [q0' [E0 Hle0]]. injection E0 as <-.
    destruct (Hall _ Hin1) as [q1' [E1 Hle1]]. injection E1 as <-.
    apply Qabs_Qle_condition in Hq0, Hq1.
    replace (Z.of_nat (cols - 1)) with (Z.of_nat cols - 1)%Z in Hq1 by lia.
    change (inject_Z (Z.of_nat 0)) with 0%Q in Hq0.
    apply Qle_shift_div_r; [reflexivity |]. lra. }
  exists c, rm. cbn zeta.
  set (nbins := (round_half_even (rm / b) + 1)%Z).
  assert (Hnb : (1 <= nbins)%Z).
  { unfold nbins. apply Z.le_sub_le_add_r. apply round_half_even_nonneg.
    apply Qle_shift_div_l; [exact Hb | now rewrite Qmult_0_l]. }
  repeat split; [exact Ecenter | exact Hrm | exact Hsf | | exact Hlen |].
  - pose proof (@distance_map_finite _ c x y Hcx Hcy) as Hfin.
    rewrite Forall_forall in *. intros v Hv.
    destruct (Hfin v Hv) as [q [-> Hq]]. destruct (Hall _ Hv) as [q' [E Hq']].
    injection E as <-. exists q. auto.
  - unfold azimuthal_locals.
    rewrite (surjective_pairing (np_indices (shape image))).
    fold x. fold y. rewrite Ecenter. cbn [bind].
    assert (Ew : match kw_weights kw with
                 | None => Ok (np_ones (shape image))
                 | Some w => if kw_stddev kw then Raise InvalidConfiguration
                             else Ok w
                 end = Ok weights).
    { unfold weights. destruct (kw_weights kw) as [w |] eqn:E; [| reflexivity].
      destruct (vc_weights V E) as [-> _]. reflexivity. }
    rewrite Ew. cbn [bind]. rewrite Emax. cbn [bind].
    rewrite (vc_binsize V), (nbins_value rm Hb). cbn [bind]. fold nbins.
    unfold np_linspace, py_index. cbn [bind].
    destruct (Z.ltb_spec (nbins + 1) 0) as [Hneg | _]; [lia |]. cbn [bind].
    rewrite (np_digitize_edges Hnb Hb). cbn [bind].
    pose proof sampling_freq_value as Esf. unfold bind at 1 2 in Esf.
    unfold bind at 1 2.
    destruct (int_max x) as [xmax |]; [| discriminate].
    destruct (int_min x) as [xmin |]; [| discriminate].
    rewrite Esf. reflexivity.
Qed.

End ValidCall.

Section Returns.
Context {M : LibM}.
Variables (image : ndarray float64) (kw : kwargs) (b : Q).
Hypothesis V : valid_call image kw b.






End Returns.



(** ** The histogram *)

Lemma count_if_ext {A : Type} (P Q : A -> bool) (l : list A) :
  (forall a, In a l -> P a = Q a) -> count_if P l = count_if Q l.
Proof.
  unfold count_if. intros H. f_equal.
  induction l as [| a l IH]; [reflexivity |].
  simpl. rewrite (H a) by now left.
  assert (IH' : length (filter P l) = length (filter Q l))
    by (apply IH; intros; apply H; now right).
  destruct (Q a); simpl; now rewrite IH'.
Qed.

Lemma count_if_map {A B : Type} (P : B -> bool) (g : A -> B) (l : list A) :
  count_if P (map g l) = count_if (fun a => P (g a)) l.
Proof.
  unfold count_if. f_equal.
  induction l as [| a l IH]; [reflexivity |].
  simpl. destruct (P (g a)); simpl; now rewrite IH.
Qed.

Lemma count_if_cons {A : Type} (P : A -> bool) (a : A) (l : list A) :
  count_if P (a :: l) = ((if P a then 1 else 0) + count_if P l)%Z.
Proof.
  unfold count_if. simpl. destruct (P a); simpl length; lia.
Qed.

Lemma zsum_map_add {A : Type} (f g : A -> Z) (l : list A) :
  zsum (map (fun a => (f a + g a)%Z) l) = (zsum (map f l) + zsum (map g l))%Z.
Proof.
  induction l as [| a l IH]; simpl; [reflexivity | rewrite IH; lia].
Qed.

(** One value falls in exactly one of the bins 1 to [u], or in none. *)
Lemma zsum_indicator (w : Z) (u : nat) :
  zsum (map (fun i => if (Z.of_nat i =? w)%Z then 1%Z else 0%Z) (seq 1 u))
  = if ((1 <=? w) && (w <=? Z.of_nat u))%Z then 1%Z else 0%Z.
Proof.
  induction u as [| u IH].
  - simpl. destruct (Z.leb_spec 1 w), (Z.leb_spec w 0); simpl; try reflexivity; lia.
  - rewrite seq_S, map_app. unfold zsum in *. rewrite fold_right_app.
    cbn [map fold_right Nat.add].
    assert (Hshift : forall (l : list Z) (k : Z),
               fold_right Z.add k l = (fold_right Z.add 0 l + k)%Z).
    { intros l k. induction l as [| a l IHl]; simpl; [lia | rewrite IHl; lia]. }
    rewrite Hshift, IH.
    destruct (Z.eqb_spec (Z.of_nat (S u)) w), (Z.leb_spec 1 w),
      (Z.leb_spec w (Z.of_nat u)), (Z.leb_spec w (Z.of_nat (S u)));
      simpl; try reflexivity; lia.
Qed.

Lemma zsum_counts (W : list Z) (u : nat) :
  zsum (map (fun i => count_eq (Z.of_nat i) W) (seq 1 u))
  = count_if (fun w => ((1 <=? w) && (w <=? Z.of_nat u))%Z) W.
Proof.
  induction W as [| w W IH].
  - unfold count_eq, count_if. simpl.
    induction (seq 1 u) as [| i l IHl]; simpl; [reflexivity | exact IHl].
  - rewrite count_if_cons, <- IH, <- zsum_indicator, <- zsum_map_add.
    f_equal. apply map_ext. intros i. unfold count_eq. simpl.
    destruct (Z.of_nat i =? w)%Z; simpl length; lia.
Qed.

Lemma tl_bincount (W : list Z) :
  W <> [] -> (forall w, In w W -> (1 <= w)%Z) ->
  exists k : nat,
    tl (np_bincount W) = map (fun i => count_eq (Z.of_nat i) W) (seq 1 k)
    /\ forall w, In w W -> (w <= Z.of_nat k)%Z.
Proof.
  destruct W as [| a l]; [congruence |]. intros _ Hpos.
  destruct (fold_left_Zmax l a) as [H1 [H2 H3]].
  set (mx := fold_left Z.max l a) in *.
  assert (Ha : (1 <= a)%Z) by (apply Hpos; now left).
  exists (Z.to_nat mx). split.
  - unfold np_bincount. fold mx. unfold zrange.
    replace (Z.to_nat (mx + 1 - 0)) with (S (Z.to_nat mx)) by lia.
    cbn [seq map tl]. rewrite map_map. apply map_ext. intros i. reflexivity.
  - intros w [<- | Hw]; [lia |]. apply H3 in Hw. lia.
Qed.

Lemma firstn_seq (n s k : nat) : firstn n (seq s k) = seq s (Nat.min n k).
Proof.
  revert s k. induction n as [| n IH]; intros s [| k]; try reflexivity.
  simpl. now rewrite IH.
Qed.

(** The first [t] entries of [np.bincount(whichbin)[1:]] add up to the
    number of pixels put in the bins 1 to [t]. *)
Lemma zsum_nr (W : list Z) (t : Z) :
  W <> [] -> (forall w, In w W -> (1 <= w)%Z) -> (0 <= t)%Z ->
  zsum (firstn (Z.to_nat t) (tl (np_bincount W)))
  = count_if (fun w => (w <=? t)%Z) W.
Proof.
  intros Hne Hpos Ht. destruct (tl_bincount Hne Hpos) as [k [-> Hk]].
  rewrite firstn_map, firstn_seq, zsum_counts.
  apply count_if_ext. intros w Hw.
  pose proof (Hpos w Hw). pose proof (Hk w Hw).
  destruct (Z.leb_spec 1 w), (Z.leb_spec w (Z.of_nat (Nat.min (Z.to_nat t) k))),
    (Z.leb_spec w t); simpl; try reflexivity; lia.
Qed.

Section Counts.
Context {M : LibM}.
Variables (image : ndarray float64) (kw : kwargs) (b : Q).
Hypothesis V : valid_call image kw b.

(** C5 (amended).  With [return_nr] (and neither [steps] nor
    [returnradii]) [azimuthal_average] returns counts [nr] whose first
    entries, one for each retained bin (each bin that has a centre and a
    value in the profile), add up to the number of pixels whose distance
    from the centre lies in the retained range, from 0 to the upper edge
    [bins[len(bin_centers)]] of the last retained bin: all these pixels,
    whatever the mask holds for them. *)
Theorem retained_counts_ignore_mask :
  kw_steps kw = false -> kw_returnradii kw = false -> kw_return_nr kw = true ->
  kw_interpnan kw = false ->
  exists l hi,
    azimuthal_locals image kw = Ok l
    /\ azimuthal_average image kw
       = Ok (WithCounts (l_nr l) (l_bin_centers l) (l_prof l))
    /\ l_r l = distance_map (l_center l) (snd (np_indices (shape image)))
                            (fst (np_indices (shape image)))
    /\ length (l_r l) = size_of (shape image)
    /\ nth_error (l_bins l) (length (l_bin_centers l)) = Some hi
    /\ zsum (firstn (length (l_bin_centers l)) (l_nr l))
       = count_if (fun d => (Fin 0 <=? d)%f64 && (d <? hi)%f64) (l_r l).
Proof.
  intros Hsteps Hradii Hnr Hinterp.
  pose proof (vc_positive V) as Hb.
  destruct (azimuthal_locals_run V) as [c [rm Hrun]]. cbn zeta in Hrun.
  destruct Hrun as [Hc [Hrm [Hsf [Hall [Hlen Hrun]]]]].
  set (r := distance_map c _ _) in *.
  set (nbins := (round_half_even (rm / b) + 1)%Z) in *.
  set (bins := linspace_values _ _ _) in *.
  set (whichbin := map _ r) in *.
  set (nbt := Qfloor (sampling_frequency image / b)) in *.
  assert (Hnb : (1 <= nbins)%Z).
  { unfold nbins. apply Z.le_sub_le_add_r. apply round_half_even_nonneg.
    apply Qle_shift_div_l; [exact Hb | now rewrite Qmult_0_l]. }
  assert (Hrmlt : (rm < inject_Z nbins * b)%Q).
  { assert (E : (rm == rm / b * b)%Q) by (field; lra).
    pose proof (round_half_even_above (rm / b)) as H. fold nbins in H.
    apply (Qmult_lt_compat_r _ _ b Hb) in H. now rewrite <- E in H. }
  assert (Hnbt : (0 <= nbt)%Z).
  { unfold nbt, sampling_frequency. pose proof (vc_cols V) as Hcols.
    change 0%Z with (Qfloor 0). apply Qfloor_resp_le.
    assert (H : (0 <= inject_Z (Z.of_nat (snd (shape image)) - 1))%Q)
      by (change 0%Q with (inject_Z 0); rewrite <- Zle_Qle; lia).
    apply Qle_shift_div_l; [exact Hb |]. rewrite Qmult_0_l.
    apply Qle_shift_div_l; [reflexivity |]. now rewrite Qmult_0_l. }
  assert (Hlt : (nbt < nbins)%Z).
  { pose proof (round_half_even_bounds (rm / b)) as [Hfl _].
    assert (Hdiv : (sampling_frequency image / b <= rm / b)%Q).
    { unfold Qdiv. apply Qmult_le_compat_r; [exact Hsf |].
      apply Qinv_le_0_compat. lra. }
    apply Qfloor_resp_le in Hdiv. unfold nbt, nbins. lia. }
  destruct (linspace_edges Hnb Hb) as [Hbl Hnth]. fold bins in Hbl, Hnth.
  destruct (Hnth (Z.to_nat nbt)) as [e [He Ee]]; [lia |].
  rewrite Z2Nat.id in Ee by exact Hnbt.
  assert (Hcen : length (slice_to nbt (centers_of bins)) = Z.to_nat nbt).
  { unfold slice_to. destruct (Z.leb_spec 0 nbt) as [_ | Hneg]; [| lia].
    unfold centers_of.
    rewrite length_firstn, length_map2, length_tl, removelast_firstn_len,
      length_firstn, Hbl.
    cbn [Init.Nat.pred]. lia. }
  destruct (call_aggregate V whichbin (kw_stddev kw) (kw_sum_bin kw) nbins nbt)
    as [prof [Hagg _]].
  { unfold whichbin. now rewrite length_map. }
  rewrite Hagg, Hinterp in Hrun. cbn [bind] in Hrun.
  eexists. exists (Fin e). split; [exact Hrun |].
  cbn [l_nr l_bin_centers l_prof l_r l_center l_bins]. rewrite Hcen.
  split; [| split; [reflexivity | split; [exact Hlen | split; [exact He |]]]].
  - unfold azimuthal_average. rewrite Hrun. cbn [bind].
    unfold azimuthal_return. rewrite Hsteps, Hradii, Hnr. reflexivity.
  - rewrite zsum_nr.
    + unfold whichbin. rewrite count_if_map. apply count_if_ext.
      intros d Hd. rewrite Forall_forall in Hall.
      destruct (Hall d Hd) as [q [-> [Hq0 Hqm]]].
      assert (Hle : fleb (Fin 0) (Fin q) = true) by now apply fleb_Fin.
      rewrite Hle. cbn [andb].
      assert (Hq : (q < inject_Z nbins * b)%Q) by lra.
      pose proof (searchsorted_le Hnb Hb (Z.to_nat nbt) Hq) as Hiff.
      fold bins in Hiff. rewrite Z2Nat.id in Hiff by exact Hnbt.
      destruct (fltb (Fin q) (Fin e)) eqn:E.
      * apply fltb_Fin in E. rewrite Ee in E. apply Hiff in E.
        apply Z.leb_le. lia.
      * apply fltb_Fin_false in E. rewrite Ee in E. apply Z.leb_gt.
        assert (Hn : ~ (searchsorted_right bins (Fin q) <= Z.to_nat nbt)%nat).
        { intros H. apply Hiff in H. lra. }
        lia.
    + intros E. apply map_eq_nil in E. rewrite E in Hlen.
      pose proof (size_positive V). simpl in Hlen. lia.
    + intros w Hw. unfold whichbin in Hw. apply in_map_iff in Hw as [d [<- Hd]].
      rewrite Forall_forall in Hall. destruct (Hall d Hd) as [q [-> [Hq0 Hqm]]].
      assert (Hq : (q < inject_Z nbins * b)%Q) by lra.
      pose proof (searchsorted_le Hnb Hb 0%nat Hq) as Hiff. fold bins in Hiff.
      assert (Hn : ~ (searchsorted_right bins (Fin q) <= 0)%nat).
      { intros H. apply Hiff in H. change (inject_Z (Z.of_nat 0)) with 0%Q in H.
        lra. }
      lia.
    + exact Hnbt.
Qed.

End Counts.

(** The 5 by 5 image of ones with a mask that leaves out the centre pixel:
    the counts of the retained bins take in the pixels the mask leaves
    out. *)
Lemma retained_counts_ignore_mask_witness :
  valid_call (ones 5 5)
             (set_return_nr true (set_mask (spike 5 5 12 false true) no_kwargs))
             (1 # 2)
  /\ exists l hi,
       azimuthal_locals (ones 5 5)
         (set_return_nr true (set_mask (spike 5 5 12 false true) no_kwargs))
       = Ok l
       /\ azimuthal_average (ones 5 5)
            (set_return_nr true (set_mask (spike 5 5 12 false true) no_kwargs))
          = Ok (WithCounts (l_nr l) (l_bin_centers l) (l_prof l))
       /\ l_r l = distance_map (l_center l) (snd (np_indices (5, 5)%nat))
                               (fst (np_indices (5, 5)%nat))
       /\ length (l_r l) = 25%nat
       /\ nth_error (l_bins l) (length (l_bin_centers l)) = Some hi
       /\ zsum (firstn (length (l_bin_centers l)) (l_nr l))
          = count_if (fun d => (Fin 0 <=? d)%f64 && (d <? hi)%f64) (l_r l).
Proof.
  assert (V : valid_call (ones 5 5)
                (set_return_nr true
                   (set_mask (spike 5 5 12 false true) no_kwargs))
                (1 # 2)).
  { constructor;
      [reflexivity | cbn; lia | cbn; lia | reflexivity | reflexivity
      | intros c E; discriminate E | intros w E; discriminate E |].
    intros m E. injection E as <-. reflexivity. }
  split; [exact V |].
  exact (retained_counts_ignore_mask V eq_refl eq_refl eq_refl eq_refl).
Defined.

(** C5 (as stated, refuted).  On the 5 by 5 image of ones with a mask that
    leaves out the centre pixel, the counts of the four retained bins add up
    to 9, the number of pixels within the distance 2 of the centre; 8 of
    them pass the mask. *)
Lemma counts_include_masked_pixels :
  let mask := spike 5 5 12 false true in
  let r := distance_map (Fin 2, Fin 2) (snd (np_indices (5, 5)%nat))
                        (fst (np_indices (5, 5)%nat)) in
  exists nr bin_centers prof,
    azimuthal_average (ones 5 5) (set_return_nr true (set_mask mask no_kwargs))
    = Ok (WithCounts nr bin_centers prof)
    /\ length prof = 4%nat
    /\ nr = [1; 0; 8; 0; 12; 4]%Z
    /\ zsum (firstn 4 nr) = 9%Z
    /\ count_if (fun p => (Fin 0 <=? fst p)%f64 && (fst p <? Fin 2)%f64 && snd p)
                (combine r (flat mask)) = 8%Z.
Proof.
  vm_compute. do 3 eexists. repeat split.
Qed.

Section Support.
Context {M : LibM}.

(** ** [radial_average] *)

(** Line 229 leaves [nbins] a float, and [np.linspace] (line 231) refuses a
    float count: no call of [radial_average] returns. *)
Lemma radial_average_raises (image : ndarray float64) (kw : kwargs) :
  is_ok (radial_average image kw) = false.
Proof.
  unfold radial_average, radial_locals.
  destruct (np_indices (shape image)) as [y x].
  destruct (resolve_center (kw_center kw) x y) as [c |]; [| reflexivity].
  cbn [bind].
  destruct (kw_weights kw) as [w |]; [destruct (kw_stddev kw) |];
    try reflexivity; cbn [bind];
    (destruct (np_max (theta_deg_of c x y)) as [tmax |]; [| reflexivity]);
    reflexivity.
Qed.

(** ** The configuration check *)

Lemma resolve_center_given (image : ndarray float64) (kw : kwargs)
      (c : float64 * float64) :
  kw_center kw = Some c \/
  (kw_center kw = None /\ (0 < fst (shape image))%nat
   /\ (0 < snd (shape image))%nat) ->
  exists c', resolve_center (kw_center kw) (snd (np_indices (shape image)))
                            (fst (np_indices (shape image))) = Ok c'.
Proof.
  intros [-> | [-> [Hr Hc]]]; [eexists; reflexivity |].
  destruct (shape image) as [rows cols]. cbn [fst snd] in *.
  unfold resolve_center. rewrite (default_center_value Hr Hc). eauto.
Qed.

(** [stddev] with [weights] raises the ValueError of lines 61 and 219 in
    both functions, whenever the centre is given or the image has a
    pixel. *)
Lemma weighted_stddev_raises (image : ndarray float64) (kw : kwargs)
      (w : ndarray float64) (c : float64 * float64) :
  kw_weights kw = Some w -> kw_stddev kw = true ->
  kw_center kw = Some c \/
  (kw_center kw = None /\ (0 < fst (shape image))%nat
   /\ (0 < snd (shape image))%nat) ->
  azimuthal_average image kw = Raise InvalidConfiguration
  /\ radial_average image kw = Raise InvalidConfiguration.
Proof.
  intros Hw Hs Hc. destruct (@resolve_center_given image kw c Hc) as [c' Ec].
  unfold azimuthal_average, azimuthal_locals, radial_average, radial_locals.
  rewrite (surjective_pairing (np_indices (shape image))).
  rewrite Ec, Hw, Hs. split; reflexivity.
Qed.

(** ** The shape of the returned value *)

(** The aggregation reads none of the shape flags. *)
Lemma azimuthal_locals_flags (image : ndarray float64) (kw : kwargs)
      (steps radii nr : bool) :
  azimuthal_locals image
    (mk_kwargs (kw_center kw) (kw_stddev kw) radii nr (kw_return_az kw)
       (kw_return_naz kw) (kw_binsize kw) (kw_weights kw) steps
       (kw_interpnan kw) (kw_left kw) (kw_right kw) (kw_mask kw)
       (kw_sum_bin kw))
  = azimuthal_locals image kw.
Proof. reflexivity. Qed.

(** [steps] wins over [returnradii], which wins over [return_nr]: the
    flags of lower precedence do not change what [azimuthal_average]
    returns. *)
Lemma azimuthal_shape_precedence (image : ndarray float64) (kw : kwargs) :
  (kw_steps kw = true ->
   forall radii nr,
     azimuthal_average image (set_returnradii radii (set_return_nr nr kw))
     = azimuthal_average image kw
     /\ forall o, azimuthal_average image kw = Ok o ->
                  exists xarr yarr, o = StepArrays xarr yarr)
  /\ (kw_steps kw = false -> kw_returnradii kw = true ->
      forall nr,
        azimuthal_average image (set_return_nr nr kw)
        = azimuthal_average image kw
        /\ forall o, azimuthal_average image kw = Ok o ->
                     exists bc prof, o = WithCenters bc prof)
  /\ (kw_steps kw = false -> kw_returnradii kw = false ->
      forall o, azimuthal_average image kw = Ok o ->
                if kw_return_nr kw
                then exists nr bc prof, o = WithCounts nr bc prof
                else exists prof, o = Profile prof).
Proof.
  unfold azimuthal_average. split; [| split].
  - intros H radii nr. split.
    + unfold set_returnradii, set_return_nr.
      cbn [kw_center kw_stddev kw_returnradii kw_return_nr kw_return_az
           kw_return_naz kw_binsize kw_weights kw_steps kw_interpnan kw_left
           kw_right kw_mask kw_sum_bin].
      rewrite azimuthal_locals_flags.
      destruct (azimuthal_locals image kw) as [l |]; [| reflexivity].
      cbn [bind]. unfold azimuthal_return. cbn [kw_steps]. now rewrite H.
    + intros o. destruct (azimuthal_locals image kw) as [l |]; [| discriminate].
      cbn [bind]. unfold azimuthal_return. rewrite H. intros E.
      injection E as <-. eauto.
  - intros H H0 nr. split.
    + unfold set_return_nr.
      cbn [kw_center kw_stddev kw_returnradii kw_return_nr kw_return_az
           kw_return_naz kw_binsize kw_weights kw_steps kw_interpnan kw_left
           kw_right kw_mask kw_sum_bin].
      rewrite azimuthal_locals_flags.
      destruct (azimuthal_locals image kw) as [l |]; [| reflexivity].
      cbn [bind]. unfold azimuthal_return. cbn [kw_steps kw_returnradii].
      now rewrite H, H0.
    + intros o. destruct (azimuthal_locals image kw) as [l |]; [| discriminate].
      cbn [bind]. unfold azimuthal_return. rewrite H, H0. intros E.
      injection E as <-. eauto.
  - intros H H0 o.
    destruct (azimuthal_locals image kw) as [l |]; [| discriminate].
    cbn [bind]. unfold azimuthal_return. rewrite H, H0. intros E.
    injection E as <-. destruct (kw_return_nr kw); eauto.
Qed.

End Support.

(** ** Interpolation at the sample points *)


Lemma fltb_trans (a b c : float64) :
  fltb a b = true -> fltb b c = true -> fltb a c = true.
Proof.
  destruct a as [p | | |], b as [q | | |], c as [r | | |];
    try reflexivity; try discriminate.
  rewrite !fltb_Fin. apply Qlt_trans.
Qed.

Lemma fltb_asym (a b : float64) : fltb a b = true -> fltb b a = false.
Proof.
  destruct a as [p | | |], b as [q | | |]; try reflexivity; try discriminate.
  rewrite fltb_Fin, fltb_Fin_false. apply Qlt_le_weak.
Qed.

Lemma fltb_feqb_refl (a b : float64) :
  fltb a b = true -> feqb a a = true /\ feqb b b = true.
Proof.
  destruct a as [p | | |], b as [q | | |]; try discriminate; intros _;
    split; try reflexivity; apply Qeq_bool_iff; reflexivity.
Qed.

Lemma increasing_head (a : float64) (l : list float64) (v : float64) :
  increasing (a :: l) = true -> In v l -> fltb a v = true.
Proof.
  unfold increasing. revert a. induction l as [| b l IH]; intros a H Hv;
    [destruct Hv |].
  simpl in H. apply andb_true_iff in H. destruct H as [Hab Hl].
  destruct Hv as [<- | Hv]; [exact Hab |].
  apply fltb_trans with b; [exact Hab | now apply IH].
Qed.

Lemma increasing_tail (a : float64) (l : list float64) :
  increasing (a :: l) = true -> increasing l = true.
Proof.
  unfold increasing. destruct l as [| b l]; [reflexivity |].
  simpl. intros H. apply andb_true_iff in H. tauto.
Qed.

Lemma interp_piece_skip (v x0 x1 y0 y1 : float64) (xp fp : list float64) :
  fltb v x1 = false ->
  interp_piece v (x0 :: x1 :: xp) (y0 :: y1 :: fp)
  = interp_piece v (x1 :: xp) (y1 :: fp).
Proof.
  intros H. cbn [interp_piece]. rewrite H. reflexivity.
Qed.

Lemma interp_piece_hit (v x0 x1 y0 y1 : float64) (xp fp : list float64) :
  fltb v x1 = true -> feqb x0 v = true ->
  interp_piece v (x0 :: x1 :: xp) (y0 :: y1 :: fp) = y0.
Proof.
  intros H1 H2. cbn [interp_piece]. now rewrite H1, H2.
Qed.

(** On increasing sample points, the interpolant read at the point of index
    [i] is the value of index [i], NaN included. *)
Lemma interp_piece_at_sample (xp fp : list float64) (i : nat) (v y : float64) :
  increasing xp = true -> length fp = length xp -> feqb v v = true ->
  nth_error xp i = Some v -> nth_error fp i = Some y ->
  interp_piece v xp fp = y.
Proof.
  revert fp i. induction xp as [| x0 xp IH]; intros fp i Hinc Hlen Hv Hx Hy.
  - destruct i; discriminate.
  - destruct fp as [| y0 fp]; [discriminate |].
    destruct xp as [| x1 xp].
    + destruct i as [| [| i]]; try discriminate. simpl in Hy. injection Hy as <-.
      destruct fp; reflexivity.
    + destruct fp as [| y1 fp]; [discriminate |].
      destruct i as [| i].
      * simpl in Hx, Hy. injection Hx as <-. injection Hy as <-.
        assert (H01 : fltb x0 x1 = true)
          by (apply increasing_head with (x1 :: xp); [exact Hinc | now left]).
        now apply interp_piece_hit.
      * simpl in Hx, Hy.
        assert (Hvx1 : fltb v x1 = false).
        { destruct i as [| i].
          - simpl in Hx. injection Hx as <-.
            destruct x1 as [q | | |]; try reflexivity.
            apply fltb_Fin_false, Qle_refl.
          - apply fltb_asym. apply increasing_head with xp.
            + eapply increasing_tail; eassumption.
            + eapply nth_error_In; eassumption. }
        rewrite interp_piece_skip by exact Hvx1.
        apply IH with i.
        -- eapply increasing_tail; eassumption.
        -- simpl in Hlen. simpl. lia.
        -- exact Hv.
        -- exact Hx.
        -- exact Hy.
Qed.

Lemma increasing_not_nan (xp : list float64) (v : float64) :
  increasing xp = true -> (2 <= length xp)%nat -> In v xp -> feqb v v = true.
Proof.
  destruct xp as [| a [| b xp]]; simpl; try lia. intros Hinc _ Hv.
  assert (Hab : fltb a b = true)
    by (apply increasing_head with (b :: xp); [exact Hinc | now left]).
  destruct Hv as [<- | Hv]; [apply (fltb_feqb_refl _ _ Hab) |].
  apply increasing_head with (v := v) in Hinc; [| exact Hv].
  apply (fltb_feqb_refl _ _ Hinc).
Qed.

Lemma last_bounds (xp : list float64) (v : float64) :
  increasing xp = true -> In v xp -> fgtb v (last xp NaN) = false.
Proof.
  unfold fgtb. induction xp as [| a xp IH]; intros Hinc Hv; [destruct Hv |].
  destruct xp as [| b xp].
  - destruct Hv as [<- | []]. simpl.
    destruct a; reflexivity || (apply fltb_Fin_false, Qle_refl).
  - change (last (a :: b :: xp) NaN) with (last (b :: xp) NaN).
    destruct Hv as [<- | Hv].
    + apply fltb_asym. apply increasing_head with (b :: xp); [exact Hinc |].
      clear. revert b. induction xp as [| c xp IH]; intros b; [now left |].
      right. apply IH.
    + apply IH; [eapply increasing_tail; eassumption | exact Hv].
Qed.

Lemma hd_bounds (xp : list float64) (v : float64) :
  increasing xp = true -> In v xp -> fltb v (hd NaN xp) = false.
Proof.
  destruct xp as [| a xp]; intros Hinc Hv; [destruct Hv |].
  destruct Hv as [<- | Hv].
  - simpl. destruct a; reflexivity || (apply fltb_Fin_false, Qle_refl).
  - apply fltb_asym. simpl. now apply increasing_head with xp.
Qed.

(** [np.interp(x, x, fp)] is [fp]: read at its own sample points, the
    interpolant returns the samples, and a NaN among them stays. *)
Lemma np_interp_same_points (xp fp : list float64) (left right : option float64) :
  increasing xp = true -> xp <> [] -> length fp = length xp ->
  np_interp xp xp fp left right = Ok fp.
Proof.
  intros Hinc Hne Hlen. unfold np_interp.
  destruct xp as [| x0 xp]; [congruence |].
  rewrite Hlen, Nat.eqb_refl. cbn [negb].
  destruct xp as [| x1 xp].
  - destruct fp as [| y0 [| y1 fp]]; try discriminate. cbn [map hd].
    unfold fgtb.
    assert (E : fltb x0 x0 = false)
      by (destruct x0; reflexivity || (apply fltb_Fin_false, Qle_refl)).
    now rewrite E.
  - f_equal. set (l := x0 :: x1 :: xp) in *.
    set (lval := match left with Some l0 => l0 | None => hd NaN fp end).
    set (rval := match right with Some r => r | None => last fp NaN end).
    apply nth_error_ext. intros i. rewrite nth_error_map.
    destruct (nth_error l i) as [v |] eqn:Ev.
    + assert (Hin : In v l) by (eapply nth_error_In; eassumption).
      assert (Hi : (i < length fp)%nat)
        by (rewrite Hlen; apply nth_error_Some; rewrite Ev; discriminate).
      destruct (nth_error fp i) as [y |] eqn:Ey;
        [| apply nth_error_None in Ey; lia].
      cbn [option_map]. f_equal. unfold interp_at.
      assert (Hvv : feqb v v = true)
        by (apply increasing_not_nan with l; [exact Hinc | simpl; lia | exact Hin]).
      assert (Hnan : isnan v = false) by (destruct v; try reflexivity; discriminate).
      rewrite Hnan, (last_bounds l v Hinc Hin), (hd_bounds l v Hinc Hin).
      now apply interp_piece_at_sample with i.
    + cbn [option_map]. symmetry. apply nth_error_None.
      apply nth_error_None in Ev. lia.
Qed.

(** ** Bin centres *)

Lemma nth_error_tl {A : Type} (l : list A) (i : nat) :
  nth_error (tl l) i = nth_error l (S i).
Proof. destruct l; [destruct i |]; reflexivity. Qed.

Lemma nth_error_removelast {A : Type} (l : list A) (i : nat) :
  (S i < length l)%nat -> nth_error (removelast l) i = nth_error l i.
Proof.
  intros H. rewrite removelast_firstn_len, nth_error_firstn.
  destruct (Nat.ltb_spec i (Init.Nat.pred (length l))); [reflexivity | lia].
Qed.

Lemma adjacent_all_firstn (p : float64 -> float64 -> bool) (l : list float64)
      (n : nat) :
  adjacent_all p l = true -> adjacent_all p (firstn n l) = true.
Proof.
  revert n. induction l as [| a l IH]; intros n H; [now destruct n |].
  destruct n as [| n]; [reflexivity |].
  destruct l as [| b l]; [now destruct n |].
  destruct n as [| n]; [reflexivity |].
  change (adjacent_all p (a :: b :: l)) with (p a b && adjacent_all p (b :: l)) in H.
  apply andb_true_iff in H as [Hab Hl].
  change (firstn (S (S n)) (a :: b :: l)) with (a :: firstn (S n) (b :: l)).
  specialize (IH (S n) Hl).
  change (firstn (S n) (b :: l)) with (b :: firstn n l) in *.
  change (adjacent_all p (a :: b :: firstn n l))
    with (p a b && adjacent_all p (b :: firstn n l)).
  now rewrite Hab, IH.
Qed.

(** The centres of the bins increase with the bin index. *)
Lemma centers_increase (nb : Z) (b : Q) :
  (1 <= nb)%Z -> (0 < b)%Q ->
  increasing (centers_of (linspace_values (Fin 0) (of_Z nb * Fin b)%f64
                                          (Z.to_nat (nb + 1)))) = true.
Proof.
  intros Hnb Hb. destruct (linspace_edges Hnb Hb) as [Hlen Hnth].
  set (bins := linspace_values _ _ _) in *.
  assert (Hc : forall i v, nth_error (centers_of bins) i = Some v ->
                           exists e e', v = Fin ((e' + e) / 2)
                                        /\ (e == inject_Z (Z.of_nat i) * b)%Q
                                        /\ (e' == inject_Z (Z.of_nat (S i)) * b)%Q).
  { intros i v Hv. unfold centers_of in Hv. rewrite nth_error_map2 in Hv.
    rewrite nth_error_tl in Hv.
    destruct (nth_error bins (S i)) as [hi |] eqn:Ehi; [| discriminate].
    assert (Hi : (S i < length bins)%nat)
      by (apply nth_error_Some; rewrite Ehi; discriminate).
    rewrite nth_error_removelast in Hv by exact Hi.
    destruct (Hnth i) as [e [He Ee]]; [lia |].
    destruct (Hnth (S i)) as [e' [He' Ee']]; [lia |].
    rewrite He in Hv. rewrite Ehi in He'. injection He' as ->.
    injection Hv as <-. exists e, e'. cbv beta. cbn [fst snd fadd]. auto. }
  unfold increasing. apply adjacent_all_nth. intros i u v Hu Hv.
  destruct (Hc i u Hu) as [e0 [e1 [-> [E0 E1]]]].
  destruct (Hc (S i) v Hv) as [e1' [e2 [-> [E1' E2]]]].
  apply fltb_Fin. rewrite E0, E1, E1', E2.
  rewrite !Nat2Z.inj_succ, <- !Z.add_1_r, !inject_Z_plus.
  change (inject_Z 1) with 1%Q.
  apply Qlt_shift_div_l; [reflexivity |].
  assert (E : ((inject_Z (Z.of_nat i) + 1) * b + inject_Z (Z.of_nat i) * b) / 2 * 2
              == (inject_Z (Z.of_nat i) + 1) * b + inject_Z (Z.of_nat i) * b)
    by field.
  rewrite E. lra.
Qed.

(** ** Empty bins *)

Lemma bin_members_empty {A : Type} (a : list A) (mask : list bool)
      (whichbin : list Z) (b : Z) :
  (forall k, nth k mask false && (nth k whichbin 0 =? b)%Z = false) ->
  bin_members a mask whichbin b = [].
Proof.
  unfold bin_members, map2. revert mask whichbin.
  induction a as [| v a IH]; intros mask whichbin H; [reflexivity |].
  destruct mask as [| m mask]; [reflexivity |].
  destruct whichbin as [| w whichbin]; [reflexivity |].
  cbn [map combine filter fst snd].
  rewrite (H 0%nat : m && (w =? b)%Z = false).
  apply IH. intros k. apply (H (S k)).
Qed.

Section Bins.
Context {M : LibM}.
Variables (image : ndarray float64) (kw : kwargs) (b : Q).
Hypothesis V : valid_call image kw b.

(** Without [interpnan] a valid call runs to its end, and its local
    variables are as [computed] says. *)
Lemma azimuthal_locals_computed :
  kw_interpnan kw = false ->
  exists l, azimuthal_locals image kw = Ok l /\ computed image kw b l.
Proof.
  intros Hinterp. pose proof (vc_positive V) as Hb.
  destruct (azimuthal_locals_run V) as [c [rm Hrun]]. cbn zeta in Hrun.
  destruct Hrun as [Hc [Hrm [Hsf [Hall [Hlen Hrun]]]]].
  set (nbins := (round_half_even (rm / b) + 1)%Z) in *.
  pose proof (@centers_increase nbins b) as Hinc.
  set (bins := linspace_values _ _ _) in *.
  set (whichbin := map _ _) in *.
  set (nbt := Qfloor (sampling_frequency image / b)) in *.
  assert (Hnb : (1 <= nbins)%Z).
  { unfold nbins. apply Z.le_sub_le_add_r. apply round_half_even_nonneg.
    apply Qle_shift_div_l; [exact Hb | now rewrite Qmult_0_l]. }
  assert (Hnbt : (0 <= nbt)%Z).
  { unfold nbt, sampling_frequency. pose proof (vc_cols V) as Hcols.
    change 0%Z with (Qfloor 0). apply Qfloor_resp_le.
    assert (H : (0 <= inject_Z (Z.of_nat (snd (shape image)) - 1))%Q)
      by (change 0%Q with (inject_Z 0); rewrite <- Zle_Qle; lia).
    apply Qle_shift_div_l; [exact Hb |]. rewrite Qmult_0_l.
    apply Qle_shift_div_l; [reflexivity |]. now rewrite Qmult_0_l. }
  assert (Hlt : (nbt < nbins)%Z).
  { pose proof (round_half_even_bounds (rm / b)) as [Hfl _].
    assert (Hdiv : (sampling_frequency image / b <= rm / b)%Q).
    { unfold Qdiv. apply Qmult_le_compat_r; [exact Hsf |].
      apply Qinv_le_0_compat. lra. }
    apply Qfloor_resp_le in Hdiv. unfold nbt, nbins. lia. }
  assert (Hw : length whichbin = size_of (shape image))
    by (unfold whichbin; now rewrite length_map).
  destruct (call_aggregate V whichbin (kw_stddev kw) (kw_sum_bin kw) nbins nbt Hw)
    as [prof [Hagg Hprof]].
  rewrite Hagg, Hinterp in Hrun. cbn [bind] in Hrun.
  eexists. split; [exact Hrun |].
  destruct (linspace_edges Hnb Hb) as [Hbl _]. fold bins in Hbl.
  constructor;
    cbn [l_nbins l_nbins_true l_bins l_bin_centers l_prof l_whichbin l_mask
         l_weights]; try assumption; try reflexivity.
  - unfold slice_to. destruct (Z.leb_spec 0 nbt) as [_ | Hneg]; [| lia].
    rewrite length_firstn. unfold centers_of.
    rewrite length_map2, length_tl, removelast_firstn_len, length_firstn, Hbl.
    simpl. lia.
  - unfold slice_to. destruct (Z.leb_spec 0 nbt) as [_ | Hneg]; [| lia].
    apply adjacent_all_firstn. now apply Hinc.
  - destruct (kw_mask kw) as [m |] eqn:E.
    + apply (vc_mask V E).
    + apply repeat_length.
  - destruct (kw_weights kw) as [w |] eqn:E.
    + destruct (vc_weights V E) as [_ [Hs Hws]]. split; [exact Hs |].
      unfold well_shaped in Hws. now rewrite Hs in Hws.
    + split; [reflexivity | apply repeat_length].
Qed.

(** In the mean mode the value of a bin is the weighted mean of the pixels
    the mask lets through to that bin, and of nothing else; a bin no pixel
    reaches holds NaN. *)
Lemma mean_profile_entries :
  kw_stddev kw = false -> kw_sum_bin kw = false -> kw_interpnan kw = false ->
  exists l iw,
    azimuthal_locals image kw = Ok l
    /\ np_mul image (l_weights l) = Ok iw
    /\ length (l_prof l) = Z.to_nat (l_nbins_true l)
    /\ forall i, (i < length (l_prof l))%nat ->
         nth i (l_prof l) (Fin 0)
         = (np_sum (bin_members (flat iw) (l_mask l) (l_whichbin l)
                                (1 + Z.of_nat i))
            / np_sum (bin_members (flat (l_weights l)) (l_mask l)
                                  (l_whichbin l) (1 + Z.of_nat i)))%f64
         /\ ((forall k, nth k (l_mask l) false
                        && (nth k (l_whichbin l) 0 =? 1 + Z.of_nat i)%Z = false) ->
             nth i (l_prof l) (Fin 0) = NaN).
Proof.
  intros Hstd Hsum Hinterp.
  destruct (azimuthal_locals_computed Hinterp) as [l [Hl C]].
  pose proof (cp_prof C) as Hprof. pose proof (cp_whichbin C) as Hw.
  pose proof (cp_mask C) as Hm. pose proof (cp_aggregate C) as Hagg.
  destruct (cp_weights C) as [Hws Hwl].
  rewrite Hstd in Hprof.
  exists l. eexists. split; [exact Hl |].
  split; [apply np_mul_value; exact Hws |]. split; [exact Hprof |].
  intros i Hi.
  unfold aggregate in Hagg. rewrite Hstd, Hsum in Hagg.
  unfold py_range, py_index in Hagg. cbn [bind] in Hagg.
  assert (Hrange : nth_error (zrange 1 (l_nbins_true l + 1)) i
                   = Some (1 + Z.of_nat i)%Z).
  { unfold zrange. rewrite nth_error_map, nth_error_seq.
    destruct (Nat.ltb_spec i (Z.to_nat (l_nbins_true l + 1 - 1))); [| lia].
    reflexivity. }
  destruct (mapM_nth_error _ _ i Hagg Hrange) as [v [Hv Hnth]].
  rewrite np_mul_value in Hv by exact Hws. cbn [bind flat] in Hv.
  assert (Hiw : length (map2 fmul (flat image) (flat (l_weights l)))
                = length (l_whichbin l))
    by (rewrite length_map2, (vc_image V), Hwl, Hw; apply Nat.min_id).
  rewrite !select_bin_value in Hv by congruence. cbn [bind] in Hv.
  injection Hv as <-.
  assert (Hval : nth i (l_prof l) (Fin 0)
                 = (np_sum (bin_members
                              (map2 fmul (flat image) (flat (l_weights l)))
                              (l_mask l) (l_whichbin l) (1 + Z.of_nat i))
                    / np_sum (bin_members (flat (l_weights l)) (l_mask l)
                                          (l_whichbin l) (1 + Z.of_nat i)))%f64)
    by (apply nth_error_nth; exact Hnth).
  split; [exact Hval |].
  intros Hempty. rewrite Hval, !bin_members_empty by exact Hempty. reflexivity.
Qed.

(** In the stddev mode the profile has one value per bin, [nbins] of them,
    and the bin centres are cut to [nbins_true], which is smaller: on every
    valid call the profile is longer than the array of bin centres. *)
Lemma stddev_lengths_differ :
  kw_stddev kw = true -> kw_interpnan kw = false ->
  exists l, azimuthal_locals image kw = Ok l
            /\ (length (l_bin_centers l) < length (l_prof l))%nat.
Proof.
  intros Hstd Hinterp.
  destruct (azimuthal_locals_computed Hinterp) as [l [Hl C]].
  exists l. split; [exact Hl |].
  rewrite (cp_centers C), (cp_prof C), Hstd.
  pose proof (cp_nonneg C). pose proof (cp_fewer C). lia.
Qed.

(** With [steps] in the mean and sum modes the x array holds two samples
    for each of the [nbins] bins and the y array two for each of the
    [nbins_true] retained ones: on every valid call the y array is the
    shorter. *)
Lemma step_lengths_differ :
  kw_stddev kw = false -> kw_steps kw = true -> kw_interpnan kw = false ->
  exists xarr yarr,
    azimuthal_average image kw = Ok (StepArrays xarr yarr)
    /\ (length yarr < length xarr)%nat.
Proof.
  intros Hstd Hsteps Hinterp.
  destruct (azimuthal_locals_computed Hinterp) as [l [Hl C]].
  unfold azimuthal_average. rewrite Hl. cbn [bind].
  unfold azimuthal_return. rewrite Hsteps. do 2 eexists.
  split; [reflexivity |].
  rewrite !length_zip_ravel, length_tl, removelast_firstn_len, length_firstn.
  rewrite (cp_bins C), (cp_prof C), Hstd. cbn [Init.Nat.pred].
  pose proof (cp_nonneg C). pose proof (cp_fewer C). lia.
Qed.

(** Without [interpnan], [azimuthal_average] returns on every valid call,
    in every mode. *)
Lemma azimuthal_average_returns :
  kw_interpnan kw = false -> is_ok (azimuthal_average image kw) = true.
Proof.
  intros Hinterp. destruct (azimuthal_locals_computed Hinterp) as [l [Hl _]].
  unfold azimuthal_average. now rewrite Hl.
Qed.

End Bins.

(** ** [interpnan] *)

Section Interpnan.
Context {M : LibM}.

(** The interpolation is the last step: it reads the bin centres and the
    profile of the call without [interpnan], and replaces the profile. *)
Lemma azimuthal_locals_interpnan (image : ndarray float64) (kw : kwargs) :
  azimuthal_locals image kw
  = (l <- azimuthal_locals image (unset_interpnan kw) ;;
     prof <- (if kw_interpnan kw then
                np_interp (l_bin_centers l) (l_bin_centers l) (l_prof l)
                          (kw_left kw) (kw_right kw)
              else Ok (l_prof l)) ;;
     Ok (mk_azimuthal_vars (l_center l) (l_r l) (l_weights l) (l_mask l)
           (l_nbins l) (l_bins l) (l_whichbin l) (l_nr l) (l_nbins_true l)
           (l_bin_centers l) prof)).
Proof.
  unfold azimuthal_locals, unset_interpnan.
  cbn [kw_center kw_stddev kw_binsize kw_weights kw_interpnan kw_left kw_right
       kw_mask kw_sum_bin].
  destruct (np_indices (shape image)) as [y x].
  destruct (resolve_center (kw_center kw) x y) as [c |]; [| reflexivity].
  cbn [bind].
  destruct (match kw_weights kw with
            | Some w => if kw_stddev kw then Raise InvalidConfiguration else Ok w
            | None => Ok (np_ones (shape image))
            end) as [weights |]; [| reflexivity].
  cbn [bind].
  destruct (np_max (distance_map c x y)) as [rmax |]; [| reflexivity].
  cbn [bind].
  destruct (py_int _) as [nbins |]; [| reflexivity]. cbn [bind].
  destruct (np_linspace _ _ _) as [bins |]; [| reflexivity]. cbn [bind].
  destruct (np_digitize (distance_map c x y) bins) as [whichbin |];
    [| reflexivity].
  cbn [bind].
  destruct (int_max x) as [xmax |]; [| reflexivity]. cbn [bind].
  destruct (int_min x) as [xmin |]; [| reflexivity]. cbn [bind].
  destruct (py_int _) as [nbins_true |]; [| reflexivity]. cbn [bind].
  destruct (aggregate _ _ _ _ _ _ _ _) as [prof |]; [| reflexivity].
  reflexivity.
Qed.

(** In the mean and sum modes, on a valid call with at least one retained
    bin, [interpnan] changes nothing: the profile is interpolated at its own
    bin centres, NaN values among the samples, and comes back as it was. *)
Lemma interpnan_is_identity (image : ndarray float64) (kw : kwargs) (b : Q) :
  valid_call image kw b -> kw_stddev kw = false ->
  (1 <= Qfloor (sampling_frequency image / b))%Z ->
  azimuthal_average image kw = azimuthal_average image (unset_interpnan kw).
Proof.
  intros V Hstd Hbins.
  assert (V0 : valid_call image (unset_interpnan kw) b)
    by (constructor; apply V).
  destruct (azimuthal_locals_computed V0 eq_refl) as [l [Hl C]].
  unfold azimuthal_average. rewrite azimuthal_locals_interpnan, Hl.
  cbn [bind].
  assert (Hlen : length (l_prof l) = length (l_bin_centers l)).
  { rewrite (cp_prof C), (cp_centers C).
    cbn [unset_interpnan kw_stddev]. now rewrite Hstd. }
  assert (Hne : l_bin_centers l <> []).
  { intros E. pose proof (cp_centers C) as Hc. rewrite E, (cp_nbins_true C) in Hc.
    cbn [length] in Hc. lia. }
  assert (Ei : (if kw_interpnan kw then
                  np_interp (l_bin_centers l) (l_bin_centers l) (l_prof l)
                            (kw_left kw) (kw_right kw)
                else Ok (l_prof l)) = Ok (l_prof l)).
  { destruct (kw_interpnan kw); [| reflexivity].
    apply np_interp_same_points; [exact (cp_increasing C) | exact Hne | exact Hlen]. }
  rewrite Ei. cbn [bind]. destruct l. reflexivity.
Qed.

End Interpnan.

(** ** Pixels that no mask lets through *)

(** Boolean indexing reads only the elements whose index entry is true. *)
Lemma flat_getitem_ext {A : Type} (a a' : list A) (idx : list bool) :
  length a' = length a ->
  (forall k, nth k idx false = true -> nth_error a' k = nth_error a k) ->
  flat_getitem a' idx = flat_getitem a idx.
Proof.
  intros Hlen H. unfold flat_getitem. rewrite Hlen.
  destruct (length a <? length idx)%nat; [reflexivity |]. f_equal.
  revert a' idx Hlen H.
  induction a as [| v a IH]; intros [| v' a'] idx Hlen H; try discriminate;
    [reflexivity |].
  destruct idx as [| i idx]; [reflexivity |].
  cbn [combine filter snd]. injection Hlen as Hlen. destruct i.
  - cbn [map fst]. f_equal.
    + specialize (H 0%nat eq_refl). now injection H.
    + apply IH; [exact Hlen |]. intros k. apply (H (S k)).
  - apply IH; [exact Hlen |]. intros k. apply (H (S k)).
Qed.

Lemma select_bin_ext {A : Type} (a a' : list A) (mask : list bool)
      (whichbin : list Z) (b : Z) :
  length a' = length a -> length mask = length whichbin ->
  (forall k, nth k mask false = true -> nth_error a' k = nth_error a k) ->
  select_bin a' mask whichbin b = select_bin a mask whichbin b.
Proof.
  intros Hlen Hm H. unfold select_bin, np_mul_bool.
  rewrite length_map, Hm, Nat.eqb_refl. cbn [bind].
  apply flat_getitem_ext; [exact Hlen |].
  intros k Hk. rewrite nth_map2_andb in Hk.
  apply andb_true_iff in Hk. apply H, Hk.
Qed.

Lemma np_mul_select_ext (image image' weights : ndarray float64)
      (mask : list bool) (whichbin : list Z) (b : Z) :
  shape image' = shape image -> length (flat image') = length (flat image) ->
  length mask = length whichbin ->
  (forall k, nth k mask false = true ->
             nth_error (flat image') k = nth_error (flat image) k) ->
  forall k : list float64 -> result float64,
    (iw <- np_mul image' weights ;;
     sel <- select_bin (flat iw) mask whichbin b ;; k sel)
    = (iw <- np_mul image weights ;;
       sel <- select_bin (flat iw) mask whichbin b ;; k sel).
Proof.
  intros Hs Hl Hm H k. unfold np_mul. rewrite Hs.
  destruct ((fst (shape image) =? fst (shape weights))%nat
            && (snd (shape image) =? snd (shape weights))%nat); [| reflexivity].
  cbn [bind flat].
  rewrite (@select_bin_ext _ (map2 fmul (flat image) (flat weights))
             (map2 fmul (flat image') (flat weights)) mask whichbin b);
    [reflexivity | | exact Hm |].
  - rewrite !length_map2. now rewrite Hl.
  - intros j Hj. rewrite !nth_error_map2. now rewrite (H j Hj).
Qed.

Section Masked.
Context {M : LibM}.

Lemma aggregate_ext (image image' weights : ndarray float64) (mask : list bool)
      (whichbin : list Z) (stddev sum_bin : bool) (nbins nbins_true : Z) :
  shape image' = shape image -> length (flat image') = length (flat image) ->
  length mask = length whichbin ->
  (forall k, nth k mask false = true ->
             nth_error (flat image') k = nth_error (flat image) k) ->
  aggregate image' weights mask whichbin stddev sum_bin nbins nbins_true
  = aggregate image weights mask whichbin stddev sum_bin nbins nbins_true.
Proof.
  intros Hs Hl Hm H. unfold aggregate.
  destruct stddev; [| destruct sum_bin].
  - destruct (py_range 1 (PyInt (nbins + 1))) as [bs |]; [| reflexivity].
    cbn [bind]. apply mapM_ext. intros b _.
    now rewrite (@select_bin_ext _ (flat image) (flat image') mask whichbin b).
  - destruct (py_range 1 (PyInt (nbins_true + 1))) as [bs |]; [| reflexivity].
    cbn [bind]. apply mapM_ext. intros b _.
    apply (@np_mul_select_ext image image' weights mask whichbin b Hs Hl Hm H
             (fun sel => Ok (np_sum sel))).
  - destruct (py_range 1 (PyInt (nbins_true + 1))) as [bs |]; [| reflexivity].
    cbn [bind]. apply mapM_ext. intros b _.
    apply (@np_mul_select_ext image image' weights mask whichbin b Hs Hl Hm H
             (fun num => den <- select_bin (flat weights) mask whichbin b ;;
                         Ok (np_sum num / np_sum den)%f64)).
Qed.

Lemma length_np_digitize (x bins : list float64) (w : list Z) :
  np_digitize x bins = Ok w -> length w = length x.
Proof.
  unfold np_digitize.
  destruct (adjacent_all _ bins); [| destruct (adjacent_all _ bins)];
    intros E; try discriminate; injection E as <-; apply length_map.
Qed.

(** A pixel the mask leaves out has no part in what the call computes:
    another value at that pixel gives the same result. *)
Lemma azimuthal_average_masked (image image' : ndarray float64) (kw : kwargs)
      (m : ndarray bool) :
  kw_mask kw = Some m ->
  shape image' = shape image -> length (flat image') = length (flat image) ->
  length (flat m) = size_of (shape image) ->
  (forall k, nth k (flat m) false = true ->
             nth_error (flat image') k = nth_error (flat image) k) ->
  azimuthal_average image' kw = azimuthal_average image kw.
Proof.
  intros Hmask Hs Hl Hm H. unfold azimuthal_average. f_equal.
  unfold azimuthal_locals. rewrite Hs, Hmask.
  destruct (np_indices (shape image)) as [y x] eqn:Ei.
  destruct (resolve_center (kw_center kw) x y) as [c |]; [| reflexivity].
  cbn [bind].
  destruct (match kw_weights kw with
            | Some w => if kw_stddev kw then Raise InvalidConfiguration else Ok w
            | None => Ok (np_ones (shape image))
            end) as [weights |]; [| reflexivity].
  cbn [bind].
  destruct (np_max (distance_map c x y)) as [rmax |]; [| reflexivity].
  cbn [bind].
  destruct (py_int _) as [nbins |]; [| reflexivity]. cbn [bind].
  destruct (np_linspace _ _ _) as [bins |]; [| reflexivity]. cbn [bind].
  destruct (np_digitize (distance_map c x y) bins) as [whichbin |] eqn:Ed;
    [| reflexivity].
  cbn [bind].
  destruct (int_max x) as [xmax |]; [| reflexivity]. cbn [bind].
  destruct (int_min x) as [xmin |]; [| reflexivity]. cbn [bind].
  destruct (py_int _) as [nbins_true |]; [| reflexivity]. cbn [bind].
  rewrite (@aggregate_ext image image'); try assumption; [reflexivity |].
  rewrite (length_np_digitize _ _ Ed), Hm.
  unfold distance_map. rewrite length_map2.
  assert (Hx : x = snd (np_indices (shape image))) by now rewrite Ei.
  assert (Hy : y = fst (np_indices (shape image))) by now rewrite Ei.
  destruct (shape image) as [rows cols].
  destruct (length_np_indices rows cols) as [Ly Lx].
  rewrite Hx, Hy, Lx, Ly. unfold size_of. cbn [fst snd]. lia.
Qed.

Lemma bins_loop_ext
      (body body' : float64 -> float64 -> result (list float64 * list float64))
      (pairs : list (float64 * float64)) (rr : option (list float64))
      (avlist : list (list float64)) :
  (forall p, In p pairs -> body' (fst p) (snd p) = body (fst p) (snd p)) ->
  bins_loop body' pairs rr avlist = bins_loop body pairs rr avlist.
Proof.
  revert rr avlist. induction pairs as [| [blow bhigh] rest IH];
    intros rr avlist H; [reflexivity |].
  cbn [bins_loop]. pose proof (H (blow, bhigh) (or_introl eq_refl)) as E.
  cbn [fst snd] in E. rewrite E.
  destruct (body blow bhigh) as [[rr' zz] |]; [| reflexivity].
  cbn [bind]. apply IH. intros p Hp. apply H. now right.
Qed.

Lemma length_theta_deg_of (c : float64 * float64) (rows cols : nat) :
  length (theta_deg_of c (snd (np_indices (rows, cols)))
                       (fst (np_indices (rows, cols))))
  = size_of (rows, cols).
Proof.
  unfold theta_deg_of. rewrite length_map2.
  destruct (length_np_indices rows cols) as [-> ->]. apply Nat.min_id.
Qed.

(** A pixel that every sector mask leaves out has no part in the list of
    profiles. *)
Lemma sectors_ignore_masked_pixels (image image' : ndarray float64)
      (azbins : list float64) (symmetric : option Z)
      (center : option (float64 * float64)) (kw : kwargs)
      (c : float64 * float64) :
  shape image' = shape image -> length (flat image') = length (flat image) ->
  resolve_center center (snd (np_indices (shape image)))
                 (fst (np_indices (shape image))) = Ok c ->
  (forall m, In m (sector_masks
                     (theta_deg_of c (snd (np_indices (shape image)))
                                   (fst (np_indices (shape image)))) azbins) ->
             forall k, nth k m false = true ->
                       nth_error (flat image') k = nth_error (flat image) k) ->
  azimuthal_average_bins image' (BinsArray azbins) symmetric center kw
  = azimuthal_average_bins image (BinsArray azbins) symmetric center kw.
Proof.
  intros Hs Hl Hc H. unfold azimuthal_average_bins. rewrite Hs.
  rewrite (surjective_pairing (np_indices (shape image))), Hc.
  cbn [bind sector_setup].
  set (theta_deg := theta_deg_of c _ _) in *.
  rewrite (@bins_loop_ext
             (fun blow bhigh =>
                kw' <- forward_kwargs kw (kw_returnradii kw)
                         (mk_kwargs (Some c) (kw_stddev kw) true (kw_return_nr kw)
                            (kw_return_az kw) (kw_return_naz kw) (kw_binsize kw)
                            (kw_weights kw) (kw_steps kw) (kw_interpnan kw)
                            (kw_left kw) (kw_right kw)
                            (Some (mk_ndarray (shape image)
                                     (sector_mask theta_deg blow bhigh)))
                            (kw_sum_bin kw)) ;;
                o <- azimuthal_average image kw' ;; unpack2 o));
    [reflexivity |].
  intros [blow bhigh] Hp. cbn [fst snd]. unfold forward_kwargs.
  destruct (kw_mask kw); [reflexivity |].
  destruct (kw_returnradii kw); [reflexivity |]. cbn [bind].
  rewrite (@azimuthal_average_masked image image' _
             (mk_ndarray (shape image) (sector_mask theta_deg blow bhigh)));
    try assumption; try reflexivity.
  - cbn [flat]. unfold sector_mask. rewrite length_map2, !length_map, Nat.min_id.
    unfold theta_deg. destruct (shape image) as [rows cols].
    apply length_theta_deg_of.
  - cbn [flat]. apply H. unfold sector_masks. apply in_map_iff.
    exists (blow, bhigh). split; [reflexivity | exact Hp].
Qed.

End Masked.

Lemma sector_boundary_excluded (theta_deg azbins : list float64) (k i : nat)
      (t b : float64) :
  nth_error theta_deg k = Some t ->
  nth_error azbins i = Some b ->
  feqb t (np_mod b (Fin 360)) = true ->
  (forall j m, j = i \/ S j = i ->
               nth_error (sector_masks theta_deg azbins) j = Some m ->
               nth k m false = false)
  /\ (nondecreasing (map (fun c => np_mod c (Fin 360)) azbins) = true ->
      forall m, In m (sector_masks theta_deg azbins) -> nth k m false = false).
Proof.
  intros Hk Hi Ht.
  set (red := fun c => np_mod c (Fin 360)).
  assert (Hi' : nth_error (map red azbins) i = Some (red b))
    by (rewrite nth_error_map, Hi; reflexivity).
  destruct (@bound_in_no_open_interval _ _ _ _ Hi' Ht) as [Hadj Hall].
  split.
  - intros j m Hj Hm. unfold sector_masks in Hm.
    rewrite nth_error_map in Hm.
    destruct (nth_error (consecutive azbins) j) as [[lo hi] |] eqn:Hc;
      [| discriminate].
    injection Hm as <-. cbn [fst snd].
    rewrite (@nth_sector_mask _ _ _ _ _ Hk).
    apply (Hadj j (red lo) (red hi) Hj).
    rewrite consecutive_map, nth_error_map, Hc. reflexivity.
  - intros Hs m Hm. unfold sector_masks in Hm.
    apply in_map_iff in Hm as [[lo hi] [<- Hin]]. cbn [fst snd].
    rewrite (@nth_sector_mask _ _ _ _ _ Hk).
    apply (Hall Hs (red lo) (red hi)).
    rewrite consecutive_map.
    apply in_map_iff. exists (lo, hi). split; [reflexivity | exact Hin].
Qed.

Lemma band_boundary_excluded (r radbins : list float64) (k i : nat)
      (d b : float64) :
  nth_error r k = Some d ->
  nth_error radbins i = Some b ->
  feqb d b = true ->
  (forall j m, j = i \/ S j = i ->
               nth_error (band_masks r radbins) j = Some m ->
               nth k m false = false)
  /\ (nondecreasing radbins = true ->
      forall m, In m (band_masks r radbins) -> nth k m false = false).
Proof.
  intros Hk Hi Hd.
  destruct (@bound_in_no_open_interval _ _ _ _ Hi Hd) as [Hadj Hall].
  split.
  - intros j m Hj Hm. unfold band_masks in Hm.
    rewrite nth_error_map in Hm.
    destruct (nth_error (consecutive radbins) j) as [[lo hi] |] eqn:Hc;
      [| discriminate].
    injection Hm as <-. cbn [fst snd].
    rewrite (@nth_band_mask _ _ _ _ _ Hk), andb_comm.
    exact (Hadj j lo hi Hj Hc).
  - intros Hs m Hm. unfold band_masks in Hm.
    apply in_map_iff in Hm as [[lo hi] [<- Hin]]. cbn [fst snd].
    rewrite (@nth_band_mask _ _ _ _ _ Hk), andb_comm.
    exact (Hall Hs lo hi Hin).
Qed.

Lemma fltb_feqb_l (t u x : float64) :
  feqb t u = true -> fltb t x = fltb u x.
Proof.
  destruct t as [p | | |], u as [q | | |]; try discriminate; try reflexivity.
  rewrite feqb_Fin. intros E. destruct x as [r | | |]; try reflexivity.
  cbn [fltb]. f_equal.
  destruct (Qle_bool r p) eqn:E1, (Qle_bool r q) eqn:E2; try reflexivity; exfalso.
  - apply Qle_bool_iff in E1. rewrite E in E1. apply Qle_bool_iff in E1.
    congruence.
  - apply Qle_bool_iff in E2. rewrite <- E in E2. apply Qle_bool_iff in E2.
    congruence.
Qed.

Lemma fltb_feqb_r (t u x : float64) :
  feqb t u = true -> fltb x t = fltb x u.
Proof.
  destruct t as [p | | |], u as [q | | |]; try discriminate; try reflexivity.
  rewrite feqb_Fin. intros E. destruct x as [r | | |]; try reflexivity.
  cbn [fltb]. f_equal.
  destruct (Qle_bool p r) eqn:E1, (Qle_bool q r) eqn:E2; try reflexivity; exfalso.
  - apply Qle_bool_iff in E1. rewrite E in E1. apply Qle_bool_iff in E1.
    congruence.
  - apply Qle_bool_iff in E2. rewrite <- E in E2. apply Qle_bool_iff in E2.
    congruence.
Qed.

Lemma fltb_irrefl (a : float64) : fltb a a = false.
Proof.
  destruct a as [p | | |]; try reflexivity.
  apply fltb_Fin_false, Qle_refl.
Qed.

Lemma fleb_not_fltb (a b : float64) : fleb a b = true -> fltb b a = false.
Proof.
  destruct a as [p | | |], b as [q | | |]; try reflexivity; try discriminate.
  rewrite fleb_Fin, fltb_Fin_false. auto.
Qed.

(** In a list that does not decrease, a member lies strictly inside no pair
    of consecutive members. *)
Lemma member_in_no_open_interval (bs : list float64) (b lo hi : float64) :
  nondecreasing bs = true -> In b bs -> In (lo, hi) (consecutive bs) ->
  (fgtb b lo && fltb b hi) = false.
Proof.
  intros Hs Hb Hp.
  apply In_nth_error in Hb as [i Hi]. apply In_nth_error in Hp as [j Hj].
  apply nth_error_consecutive in Hj as [Hlo Hhi].
  apply andb_false_iff. unfold fgtb.
  destruct (Nat.lt_trichotomy i j) as [Hlt | [-> | Hgt]].
  - left. apply fleb_not_fltb. eapply nondecreasing_nth; eassumption.
  - left. rewrite Hi in Hlo. injection Hlo as <-. apply fltb_irrefl.
  - right. destruct (Nat.eq_dec i (S j)) as [-> | Hne].
    + rewrite Hi in Hhi. injection Hhi as <-. apply fltb_irrefl.
    + apply fleb_not_fltb.
      apply nondecreasing_nth with bs (S j) i; [assumption | lia | assumption..].
Qed.

(** The reduction modulo 360 of a boundary of one turn: itself below 360,
    and 0 at 360. *)
Lemma np_mod_within_turn (q : Q) :
  (0 <= q <= 360)%Q ->
  exists r, np_mod (Fin q) (Fin 360) = Fin r
            /\ ((q < 360 /\ r == q) \/ (q == 360 /\ r == 0))%Q.
Proof.
  intros [H0 H1]. cbn [np_mod]. change (Qeq_bool 360 0) with false. cbv iota.
  eexists. split; [reflexivity |].
  pose proof (Qfloor_le (q / 360)) as Hf1.
  pose proof (Qlt_floor (q / 360)) as Hf2.
  assert (E : (q == q / 360 * 360)%Q) by (field; discriminate).
  destruct (Qlt_le_dec q 360) as [Hlt | Hge].
  - left. split; [exact Hlt |].
    assert (Hz : Qfloor (q / 360) = 0%Z).
    { assert (H : (0 <= q / 360 < 1)%Q).
      { split.
        - apply Qle_shift_div_l; [reflexivity | now rewrite Qmult_0_l].
        - apply Qlt_shift_div_r; [reflexivity | now rewrite Qmult_1_l]. }
      destruct H as [Ha Hb].
      assert (Hlo : (-1 < Qfloor (q / 360))%Z).
      { rewrite Zlt_Qlt. rewrite inject_Z_plus in Hf2.
        change (inject_Z 1) with 1%Q in Hf2.
        change (inject_Z (-1)) with (-1)%Q. lra. }
      assert (Hhi : (Qfloor (q / 360) < 1)%Z).
      { rewrite Zlt_Qlt. change (inject_Z 1) with 1%Q. lra. }
      lia. }
    rewrite Hz. change (inject_Z 0) with 0%Q. lra.
  - right. assert (Hq : (q == 360)%Q) by lra. split; [exact Hq |].
    assert (Hz : Qfloor (q / 360) = 1%Z).
    { assert (H : (q / 360 == 1)%Q) by (rewrite Hq; reflexivity).
      rewrite H. reflexivity. }
    rewrite Hz. change (inject_Z 1) with 1%Q. lra.
Qed.

(** Boundaries that do not decrease within one turn, as those of an integer
    [azbins] are: none lies inside a sector, although the last one is
    reduced to 0. *)
Lemma turn_outside_sectors (azbins : list float64) (b : float64) :
  nondecreasing azbins = true -> within_turn azbins = true -> In b azbins ->
  outside_sectors azbins b = true.
Proof.
  intros Hs Hw Hb. unfold outside_sectors. apply forallb_forall.
  intros [lo hi] Hp. cbn [fst snd]. apply negb_true_iff.
  pose proof (@member_in_no_open_interval _ _ _ _ Hs Hb Hp) as Hout.
  assert (Hin : forall c, In c azbins ->
                          exists q, c = Fin q /\ (0 <= q <= 360)%Q).
  { intros c Hc. unfold within_turn in Hw.
    rewrite forallb_forall in Hw. specialize (Hw c Hc).
    apply andb_true_iff in Hw as [H0 H1].
    destruct c as [q | | |]; try discriminate.
    exists q. split; [reflexivity |]. now rewrite fleb_Fin in H0, H1. }
  assert (Hlohi : In lo azbins /\ In hi azbins /\ fleb lo hi = true).
  { apply In_nth_error in Hp as [j Hj].
    apply nth_error_consecutive in Hj as [Hlo Hhi].
    split; [eapply nth_error_In; eassumption |].
    split; [eapply nth_error_In; eassumption |].
    apply nondecreasing_nth with azbins j (S j); [assumption | lia | assumption..]. }
  destruct Hlohi as [Hinlo [Hinhi Hle]].
  destruct (Hin b Hb) as [q [-> Hq]].
  destruct (Hin lo Hinlo) as [l [-> Hl]].
  destruct (Hin hi Hinhi) as [h [-> Hh]].
  rewrite fleb_Fin in Hle.
  destruct (np_mod_within_turn Hq) as [rq [-> Erq]].
  destruct (np_mod_within_turn Hl) as [rl [-> Erl]].
  destruct (np_mod_within_turn Hh) as [rh [-> Erh]].
  apply andb_false_iff in Hout. unfold fgtb in *.
  rewrite !fltb_Fin_false in Hout.
  apply andb_false_iff. rewrite !fltb_Fin_false.
  destruct Erh as [[Hh1 Erh] | [Hh1 Erh]].
  - destruct Erl as [[Hl1 Erl] | [Hl1 Erl]]; [| lra].
    destruct Erq as [[Hq1 Erq] | [Hq1 Erq]].
    + destruct Hout as [H | H]; [left | right]; lra.
    + left. lra.
  - right. destruct Erq as [[Hq1 Erq] | [Hq1 Erq]]; lra.
Qed.

(** Boundaries whose reductions do not decrease. *)
Lemma reduced_outside_sectors (azbins : list float64) (b : float64) :
  nondecreasing (map (fun c => np_mod c (Fin 360)) azbins) = true ->
  In b azbins -> outside_sectors azbins b = true.
Proof.
  intros Hs Hb. unfold outside_sectors. apply forallb_forall.
  intros [lo hi] Hp. cbn [fst snd]. apply negb_true_iff.
  apply member_in_no_open_interval
    with (map (fun c => np_mod c (Fin 360)) azbins); [exact Hs | |].
  - apply in_map_iff. exists b. auto.
  - rewrite consecutive_map. apply in_map_iff. exists (lo, hi). auto.
Qed.

Lemma sorted_outside_bands (radbins : list float64) (b : float64) :
  nondecreasing radbins = true -> In b radbins ->
  outside_bands radbins b = true.
Proof.
  intros Hs Hb. unfold outside_bands. apply forallb_forall.
  intros [lo hi] Hp. cbn [fst snd]. apply negb_true_iff. rewrite andb_comm.
  now apply member_in_no_open_interval with radbins.
Qed.

(** The masks leave the pixel out exactly when its boundary lies inside no
    sector. *)
Lemma sectors_exclude_iff (theta_deg azbins : list float64) (k : nat)
      (t b : float64) :
  nth_error theta_deg k = Some t ->
  feqb t (np_mod b (Fin 360)) = true ->
  outside_sectors azbins b = true
  <-> (forall m, In m (sector_masks theta_deg azbins) -> nth k m false = false).
Proof.
  intros Hk Ht. unfold outside_sectors, sector_masks.
  rewrite forallb_forall. split.
  - intros H m Hm. apply in_map_iff in Hm as [[lo hi] [<- Hp]]. cbn [fst snd].
    rewrite (@nth_sector_mask _ _ _ _ _ Hk). unfold fgtb.
    rewrite (@fltb_feqb_r _ _ _ Ht), (@fltb_feqb_l _ _ _ Ht).
    specialize (H (lo, hi) Hp). cbn [fst snd] in H.
    now apply negb_true_iff in H.
  - intros H [lo hi] Hp. cbn [fst snd]. apply negb_true_iff.
    specialize (H (sector_mask theta_deg lo hi)).
    rewrite (@nth_sector_mask _ _ _ _ _ Hk) in H. unfold fgtb in *.
    rewrite (@fltb_feqb_r _ _ _ Ht), (@fltb_feqb_l _ _ _ Ht) in H.
    apply H. apply in_map_iff. exists (lo, hi). auto.
Qed.

Lemma bands_exclude_iff (r radbins : list float64) (k : nat) (d b : float64) :
  nth_error r k = Some d ->
  feqb d b = true ->
  outside_bands radbins b = true
  <-> (forall m, In m (band_masks r radbins) -> nth k m false = false).
Proof.
  intros Hk Hd. unfold outside_bands, band_masks.
  rewrite forallb_forall. split.
  - intros H m Hm. apply in_map_iff in Hm as [[lo hi] [<- Hp]]. cbn [fst snd].
    rewrite (@nth_band_mask _ _ _ _ _ Hk). unfold fgtb.
    rewrite (@fltb_feqb_r _ _ _ Hd), (@fltb_feqb_l _ _ _ Hd).
    specialize (H (lo, hi) Hp). cbn [fst snd] in H.
    now apply negb_true_iff in H.
  - intros H [lo hi] Hp. cbn [fst snd]. apply negb_true_iff.
    specialize (H (band_mask r lo hi)).
    rewrite (@nth_band_mask _ _ _ _ _ Hk) in H. unfold fgtb in *.
    rewrite (@fltb_feqb_r _ _ _ Hd), (@fltb_feqb_l _ _ _ Hd) in H.
    apply H. apply in_map_iff. exists (lo, hi). auto.
Qed.

(** C10 (amended).  A pixel whose angle equals a sector boundary reduced
    modulo 360 is masked out of the two sectors that meet at that boundary,
    and a pixel whose distance equals a band boundary is masked out of the
    two bands that meet there, because both comparisons of a mask are
    strict.  It is masked out of every sector (band) exactly when the
    boundary lies strictly inside no other sector (band), as 450, reduced
    to 90, lies inside the sector from 0 to 180.  No boundary does when the
    sector boundaries do not decrease within one turn from 0 to 360, as
    those of an integer [azbins] are, or when they do not decrease after
    the reduction, or when the band boundaries do not decrease.  The pixel
    then contributes to no profile of the list [azimuthal_average_bins]
    returns: another value at that pixel gives the same result. *)
Theorem boundary_pixel_excluded {M : LibM} :
  (forall (theta_deg azbins : list float64) (k i : nat) (t b : float64),
      nth_error theta_deg k = Some t ->
      nth_error azbins i = Some b ->
      feqb t (np_mod b (Fin 360)) = true ->
      (forall j m, j = i \/ S j = i ->
                   nth_error (sector_masks theta_deg azbins) j = Some m ->
                   nth k m false = false)
      /\ (outside_sectors azbins b = true
          <-> forall m, In m (sector_masks theta_deg azbins) ->
                        nth k m false = false))
  /\ (forall (r radbins : list float64) (k i : nat) (d b : float64),
         nth_error r k = Some d ->
         nth_error radbins i = Some b ->
         feqb d b = true ->
         (forall j m, j = i \/ S j = i ->
                      nth_error (band_masks r radbins) j = Some m ->
                      nth k m false = false)
         /\ (outside_bands radbins b = true
             <-> forall m, In m (band_masks r radbins) ->
                           nth k m false = false))
  /\ (forall (azbins : list float64) (b : float64),
         In b azbins ->
         (nondecreasing azbins = true /\ within_turn azbins = true)
         \/ nondecreasing (map (fun c => np_mod c (Fin 360)) azbins) = true ->
         outside_sectors azbins b = true)
  /\ (forall (radbins : list float64) (b : float64),
         In b radbins -> nondecreasing radbins = true ->
         outside_bands radbins b = true)
  /\ (forall (image image' : ndarray float64) (azbins : list float64)
             (symmetric : option Z) (center : option (float64 * float64))
             (kw : kwargs) (c : float64 * float64) (k i : nat) (t b : float64),
         shape image' = shape image ->
         length (flat image') = length (flat image) ->
         (forall j, j <> k ->
                    nth_error (flat image') j = nth_error (flat image) j) ->
         resolve_center center (snd (np_indices (shape image)))
                        (fst (np_indices (shape image))) = Ok c ->
         nth_error (theta_deg_of c (snd (np_indices (shape image)))
                                 (fst (np_indices (shape image)))) k = Some t ->
         nth_error azbins i = Some b ->
         feqb t (np_mod b (Fin 360)) = true ->
         outside_sectors azbins b = true ->
         azimuthal_average_bins image' (BinsArray azbins) symmetric center kw
         = azimuthal_average_bins image (BinsArray azbins) symmetric center kw).
Proof.
  split; [| split; [| split; [| split]]].
  - intros theta_deg azbins k i t b Hk Hi Ht. split.
    + exact (proj1 (@sector_boundary_excluded _ _ _ _ _ _ Hk Hi Ht)).
    + now apply sectors_exclude_iff with t.
  - intros r radbins k i d b Hk Hi Hd. split.
    + exact (proj1 (@band_boundary_excluded _ _ _ _ _ _ Hk Hi Hd)).
    + now apply bands_exclude_iff with d.
  - intros azbins b Hb [[Hs Hw] | Hs].
    + now apply turn_outside_sectors.
    + now apply reduced_outside_sectors.
  - intros radbins b Hb Hs. now apply sorted_outside_bands.
  - intros image image' azbins symmetric center kw c k i t b
           Hs Hl Hrest Hc Hk Hi Ht Hout.
    apply sectors_ignore_masked_pixels with c; try assumption.
    intros m Hm j Hj.
    destruct (Nat.eq_dec j k) as [-> | Hne]; [| now apply Hrest].
    rewrite (proj1 (@sectors_exclude_iff _ azbins _ _ b Hk Ht) Hout m Hm) in Hj.
    discriminate.
Qed.

(** The boundaries 0, 90, 180, 270, 360 of four sectors: the angle 0 is the
    last boundary reduced.  The band boundaries 0, 1, 2 and the distance 1.
    The pixel below the centre of a 5 by 5 image, at the angle 0, set to 1
    or to 0. *)
Lemma boundary_pixel_excluded_witness :
  (nth_error [Fin 0] 0 = Some (Fin 0)
   /\ nth_error [Fin 0; Fin 90; Fin 180; Fin 270; Fin 360] 4 = Some (Fin 360)
   /\ feqb (Fin 0) (np_mod (Fin 360) (Fin 360)) = true
   /\ In (Fin 360) [Fin 0; Fin 90; Fin 180; Fin 270; Fin 360]
   /\ nondecreasing [Fin 0; Fin 90; Fin 180; Fin 270; Fin 360] = true
   /\ within_turn [Fin 0; Fin 90; Fin 180; Fin 270; Fin 360] = true
   /\ outside_sectors [Fin 0; Fin 90; Fin 180; Fin 270; Fin 360] (Fin 360) = true
   /\ forall m,
        In m (sector_masks [Fin 0] [Fin 0; Fin 90; Fin 180; Fin 270; Fin 360]) ->
        nth 0 m false = false)
  /\ (nth_error [Fin 1] 0 = Some (Fin 1)
      /\ nth_error [Fin 0; Fin 1; Fin 2] 1 = Some (Fin 1)
      /\ feqb (Fin 1) (Fin 1) = true
      /\ In (Fin 1) [Fin 0; Fin 1; Fin 2]
      /\ nondecreasing [Fin 0; Fin 1; Fin 2] = true
      /\ outside_bands [Fin 0; Fin 1; Fin 2] (Fin 1) = true
      /\ forall m, In m (band_masks [Fin 1] [Fin 0; Fin 1; Fin 2]) ->
                   nth 0 m false = false)
  /\ azimuthal_average_bins (spike 5 5 17 (Fin 1) (Fin 0))
       (BinsArray [Fin 0; Fin 90; Fin 180; Fin 270; Fin 360]) None None no_kwargs
     = azimuthal_average_bins (spike 5 5 17 (Fin 0) (Fin 0))
         (BinsArray [Fin 0; Fin 90; Fin 180; Fin 270; Fin 360]) None None
         no_kwargs.
Proof.
  destruct (@boundary_pixel_excluded libm_model)
    as [Hsec [Hband [Hturn [Hsorted Hprof]]]].
  assert (Hin : In (Fin 360) [Fin 0; Fin 90; Fin 180; Fin 270; Fin 360])
    by (simpl; tauto).
  assert (Hout : outside_sectors [Fin 0; Fin 90; Fin 180; Fin 270; Fin 360]
                                 (Fin 360) = true).
  { apply Hturn; [exact Hin |]. left. split; reflexivity. }
  assert (Hin1 : In (Fin 1) [Fin 0; Fin 1; Fin 2]) by (simpl; tauto).
  assert (Hout1 : outside_bands [Fin 0; Fin 1; Fin 2] (Fin 1) = true)
    by (apply Hsorted; [exact Hin1 | reflexivity]).
  split; [| split].
  - split; [reflexivity |]. split; [reflexivity |]. split; [reflexivity |].
    split; [exact Hin |]. split; [reflexivity |]. split; [reflexivity |].
    split; [exact Hout |].
    apply (proj1 (proj2 (Hsec [Fin 0] [Fin 0; Fin 90; Fin 180; Fin 270; Fin 360]
                              0%nat 4%nat (Fin 0) (Fin 360)
                              eq_refl eq_refl eq_refl))).
    exact Hout.
  - split; [reflexivity |]. split; [reflexivity |]. split; [reflexivity |].
    split; [exact Hin1 |]. split; [reflexivity |]. split; [exact Hout1 |].
    apply (proj1 (proj2 (Hband [Fin 1] [Fin 0; Fin 1; Fin 2] 0%nat 1%nat
                               (Fin 1) (Fin 1) eq_refl eq_refl eq_refl))).
    exact Hout1.
  - eapply (Hprof (spike 5 5 17 (Fin 0) (Fin 0)) (spike 5 5 17 (Fin 1) (Fin 0))
                  [Fin 0; Fin 90; Fin 180; Fin 270; Fin 360] None None
                  no_kwargs _ 17%nat 4%nat _ (Fin 360)).
    + reflexivity.
    + reflexivity.
    + intros j Hj.
      do 26 (destruct j as [| j]; [try reflexivity; congruence |]).
      reflexivity.
    + reflexivity.
    + vm_compute. reflexivity.
    + reflexivity.
    + vm_compute. reflexivity.
    + exact Hout.
Defined.

(** C10 (as stated, refuted).  Sector boundaries 0, 180, 450, 540 on a 5 by 5
    image: the pixel right of the centre has the angle 90 = 450 mod 360, is
    selected by the mask of the first sector (0, 180), and its value is one
    of the three averaged in the third radial bin of that sector's
    profile. *)
Lemma boundary_pixel_counted_in_other_sector :
  let azbins := [Fin 0; Fin 180; Fin 450; Fin 540] in
  let theta_deg :=
    theta_deg_of (Fin 2, Fin 2) (snd (np_indices (5, 5)%nat))
                 (fst (np_indices (5, 5)%nat)) in
  (exists t, nth_error theta_deg 13 = Some t
             /\ feqb t (np_mod (Fin 450) (Fin 360)) = true)
  /\ nth 13 (nth 0 (sector_masks theta_deg azbins) []) false = true
  /\ (exists bounds rr azavlist,
         azimuthal_average_bins (spike 5 5 13 (Fin 1) (Fin 0)) (BinsArray azbins)
                                None None no_kwargs
         = Ok (bounds, rr, azavlist)
         /\ map canon (nth 0 azavlist []) = [NaN; NaN; Fin (1 # 3); NaN])
  /\ (exists bounds rr azavlist,
         azimuthal_average_bins (spike 5 5 13 (Fin 0) (Fin 0)) (BinsArray azbins)
                                None None no_kwargs
         = Ok (bounds, rr, azavlist)
         /\ map canon (nth 0 azavlist []) = [NaN; NaN; Fin 0; NaN]).
Proof.
  vm_compute. repeat split.
  - eexists. split; reflexivity.
  - do 3 eexists. split; reflexivity.
  - do 3 eexists. split; reflexivity.
Qed.

(** ** Sectors from an integer count *)

Lemma length_linspace_values (start stop : float64) (n : nat) :
  length (linspace_values start stop n) = n.
Proof.
  destruct n as [| [| n]]; try reflexivity.
  unfold linspace_values. rewrite length_app, length_map, length_seq.
  simpl. lia.
Qed.

Lemma length_consecutive (l : list float64) :
  length (consecutive l) = (length l - 1)%nat.
Proof.
  unfold consecutive.
  rewrite length_combine, length_tl, removelast_firstn_len, length_firstn.
  lia.
Qed.

Lemma consecutive_snoc (l : list float64) (s : float64) :
  l <> [] -> consecutive (l ++ [s]) = consecutive l ++ [(last l NaN, s)].
Proof.
  destruct l as [| a l]; [congruence |]. intros _.
  revert a. induction l as [| b l IH]; intros a; [reflexivity |].
  change ((a :: b :: l) ++ [s]) with (a :: b :: (l ++ [s])).
  rewrite !consecutive_cons.
  change (b :: l ++ [s]) with ((b :: l) ++ [s]). rewrite IH. reflexivity.
Qed.

(** [np.linspace(start, stop, n)] for [n >= 2] ends with the pair
    [(_, stop)]: [n] samples bound [n - 1] intervals. *)
Lemma consecutive_linspace (start stop : float64) (n : nat) :
  (2 <= n)%nat ->
  exists (pairs : list (float64 * float64)) (blow : float64),
    consecutive (linspace_values start stop n) = pairs ++ [(blow, stop)]
    /\ length pairs = (n - 2)%nat.
Proof.
  intros Hn. destruct n as [| [| n]]; try lia.
  unfold linspace_values.
  set (l := map _ (seq 0 (S n))).
  assert (Hl : l <> []) by (unfold l; simpl; discriminate).
  rewrite (consecutive_snoc _ Hl). do 2 eexists. split; [reflexivity |].
  rewrite length_consecutive. unfold l. rewrite length_map, length_seq. lia.
Qed.

Section IntegerCount.
Context {M : LibM}.

(** The angle map holds degrees from 0 up to, not including, 360. *)
Lemma theta_deg_range (c : float64 * float64) (x y : list Z) :
  isfinite (fst c) = true -> isfinite (snd c) = true ->
  Forall (fun v => exists t : Q, v = Fin t /\ (0 <= t < 360)%Q)
         (theta_deg_of c x y).
Proof.
  intros Hx Hy. destruct c as [[cx | | |] [cy | | |]]; try discriminate.
  unfold theta_deg_of, map2. apply Forall_forall. intros v Hv.
  apply in_map_iff in Hv as [[xi yi] [<- _]]. cbn [fst snd].
  unfold of_Z. cbn [fsub fopp fadd].
  destruct (np_arctan2_range (inject_Z xi + - cx) (inject_Z yi + - cy))
    as [t [-> Ht]].
  assert (Hpi : (3 < pi_q)%Q) by reflexivity.
  assert (Hpi0 : (0 < pi_q)%Q) by lra.
  unfold np_pi.
  destruct (fltb (Fin t) (Fin 0)) eqn:E.
  - apply fltb_Fin in E. cbn [fmul fadd]. rewrite fdiv_Fin by exact Hpi0.
    eexists. split; [reflexivity |]. split.
    + apply Qle_shift_div_l; [exact Hpi0 |]. lra.
    + apply Qlt_shift_div_r; [exact Hpi0 |]. lra.
  - apply fltb_Fin_false in E. cbn [fmul]. rewrite fdiv_Fin by exact Hpi0.
    eexists. split; [reflexivity |]. split.
    + apply Qle_shift_div_l; [exact Hpi0 |]. lra.
    + apply Qlt_shift_div_r; [exact Hpi0 |]. lra.
Qed.

(** A sector whose upper boundary is 360 selects no pixel: [360 % 360] is
    0, and no angle is below 0. *)
Lemma sector_up_to_360_is_empty (c : float64 * float64) (x y : list Z)
      (blow : float64) (k : nat) :
  isfinite (fst c) = true -> isfinite (snd c) = true ->
  nth k (sector_mask (theta_deg_of c x y) blow (Fin 360)) false = false.
Proof.
  intros Hx Hy.
  destruct (nth_error (theta_deg_of c x y) k) as [v |] eqn:E.
  - rewrite (@nth_sector_mask _ _ _ _ _ E).
    pose proof (theta_deg_range c x y Hx Hy) as Hall.
    rewrite Forall_forall in Hall.
    destruct (Hall v (nth_error_In _ _ E)) as [t [-> Ht]].
    apply andb_false_iff. right.
    change (np_mod (Fin 360) (Fin 360))
      with (Fin (360 - 360 * inject_Z (Qfloor (360 / 360)))).
    apply fltb_Fin_false.
    assert (E0 : (360 - 360 * inject_Z (Qfloor (360 / 360)) == 0)%Q)
      by reflexivity.
    rewrite E0. lra.
  - apply nth_overflow. apply nth_error_None in E.
    unfold sector_mask. rewrite length_map2, !length_map, Nat.min_id. exact E.
Qed.

Lemma bins_loop_total
      (body : float64 -> float64 -> result (list float64 * list float64))
      (pairs : list (float64 * float64)) (rr : option (list float64))
      (avlist : list (list float64)) :
  (forall p, In p pairs -> is_ok (body (fst p) (snd p)) = true) ->
  exists rr' avlist',
    bins_loop body pairs rr avlist = Ok (rr', avlist')
    /\ length avlist' = (length avlist + length pairs)%nat
    /\ (pairs <> [] \/ rr <> None -> rr' <> None).
Proof.
  revert rr avlist. induction pairs as [| [blow bhigh] rest IH];
    intros rr avlist H.
  - exists rr, avlist. simpl. repeat split; [lia |]. intros [E | E]; congruence.
  - cbn [bins_loop]. pose proof (H (blow, bhigh) (or_introl eq_refl)) as Hb.
    cbn [fst snd] in Hb.
    destruct (body blow bhigh) as [[rr1 zz] |]; [| discriminate]. cbn [bind].
    destruct (IH (Some rr1) (avlist ++ [zz])) as [rr' [av' [E [Hlen Hrr]]]].
    { intros p Hp. apply H. now right. }
    exists rr', av'. split; [exact E |]. split.
    + rewrite Hlen, length_app. simpl. lia.
    + intros _. apply Hrr. right. discriminate.
Qed.

End IntegerCount.

Section IntegerSectors.
Context {M : LibM}.
Variables (image : ndarray float64) (kw : kwargs) (b : Q).
Hypothesis V : valid_call image kw b.
Hypothesis Hmask : kw_mask kw = None.
Hypothesis Hradii : kw_returnradii kw = false.
Hypothesis Hinterp : kw_interpnan kw = false.

(** Each pass of the loop of [azimuthal_average_bins] runs to its end. *)
Lemma sector_pass_returns (c : float64 * float64) (mask : list bool) :
  isfinite (fst c) = true -> isfinite (snd c) = true ->
  length mask = size_of (shape image) ->
  is_ok (kw' <- forward_kwargs kw (kw_returnradii kw)
                  (mk_kwargs (Some c) (kw_stddev kw) true (kw_return_nr kw)
                     (kw_return_az kw) (kw_return_naz kw) (kw_binsize kw)
                     (kw_weights kw) (kw_steps kw) (kw_interpnan kw)
                     (kw_left kw) (kw_right kw)
                     (Some (mk_ndarray (shape image) mask)) (kw_sum_bin kw)) ;;
         o <- azimuthal_average image kw' ;; unpack2 o) = true.
Proof.
  intros Hcx Hcy Hlen. unfold forward_kwargs. rewrite Hmask, Hradii.
  cbn [bind].
  set (kw' := mk_kwargs _ _ _ _ _ _ _ _ _ _ _ _ _ _).
  assert (V' : valid_call image kw' b).
  { constructor; try apply V.
    - intros c' E. injection E as <-. auto.
    - intros m E. injection E as <-. exact Hlen. }
  destruct (azimuthal_locals_computed V' Hinterp) as [l [Hl _]].
  unfold azimuthal_average. rewrite Hl. cbn [bind].
  unfold azimuthal_return. cbn [kw_steps kw_returnradii kw'].
  destruct (kw_steps kw); reflexivity.
Qed.

(** An integer [N >= 2] as [azbins] gives [N] boundaries from 0 to 360 and
    so [N - 1] sectors and profiles, the last sector reaching up to 360,
    where it selects no pixel. *)
Lemma integer_azbins_sectors (N : Z) (center : option (float64 * float64)) :
  (forall c, center = Some c ->
             isfinite (fst c) = true /\ isfinite (snd c) = true) ->
  (2 <= N)%Z ->
  exists c pairs blow rr azavlist,
    resolve_center center (snd (np_indices (shape image)))
                   (fst (np_indices (shape image))) = Ok c
    /\ azimuthal_average_bins image (BinsInt N) None center kw
       = Ok (linspace_values (Fin 0) (Fin 360) (Z.to_nat N), rr, azavlist)
    /\ length azavlist = (Z.to_nat N - 1)%nat
    /\ consecutive (linspace_values (Fin 0) (Fin 360) (Z.to_nat N))
       = pairs ++ [(blow, Fin 360)]
    /\ forall k,
         nth k (sector_mask
                  (theta_deg_of c (snd (np_indices (shape image)))
                                (fst (np_indices (shape image))))
                  blow (Fin 360)) false = false.
Proof.
  intros Hcenter HN.
  pose proof (vc_rows V) as Hr. pose proof (vc_cols V) as Hc.
  assert (Ec : exists c,
             resolve_center center (snd (np_indices (shape image)))
                            (fst (np_indices (shape image))) = Ok c
             /\ isfinite (fst c) = true /\ isfinite (snd c) = true).
  { unfold resolve_center. destruct center as [c |].
    - exists c. split; [reflexivity | now apply Hcenter].
    - destruct (shape image) as [rows cols]. cbn [fst snd] in *.
      rewrite (default_center_value Hr Hc). eexists. split; [reflexivity |].
      split; reflexivity. }
  destruct Ec as [c [Ec [Hcx Hcy]]].
  destruct (consecutive_linspace (Fin 0) (Fin 360) (n := Z.to_nat N))
    as [pairs [blow [Epairs Hlen]]]; [lia |].
  set (theta_deg := theta_deg_of c (snd (np_indices (shape image)))
                                 (fst (np_indices (shape image)))).
  destruct (@bins_loop_total
              (fun blow bhigh =>
                 kw' <- forward_kwargs kw (kw_returnradii kw)
                          (mk_kwargs (Some c) (kw_stddev kw) true (kw_return_nr kw)
                             (kw_return_az kw) (kw_return_naz kw) (kw_binsize kw)
                             (kw_weights kw) (kw_steps kw) (kw_interpnan kw)
                             (kw_left kw) (kw_right kw)
                             (Some (mk_ndarray (shape image)
                                      (sector_mask theta_deg blow bhigh)))
                             (kw_sum_bin kw)) ;;
                 o <- azimuthal_average image kw' ;; unpack2 o)
              (consecutive (linspace_values (Fin 0) (Fin 360) (Z.to_nat N)))
              None [])
    as [rr' [avl [Eloop [Havl Hrr]]]].
  { intros p _. cbn [fst snd]. apply sector_pass_returns; try assumption.
    unfold sector_mask. rewrite length_map2, !length_map, Nat.min_id.
    unfold theta_deg. destruct (shape image) as [rows cols].
    apply length_theta_deg_of. }
  destruct rr' as [rr |].
  2:{ exfalso. apply Hrr; [| reflexivity]. left. rewrite Epairs.
      destruct pairs; discriminate. }
  exists c, pairs, blow, rr, avl. split; [exact Ec |]. split.
  - unfold azimuthal_average_bins.
    rewrite (surjective_pairing (np_indices (shape image))), Ec.
    cbn [bind sector_setup]. unfold np_linspace, py_index. cbn [bind].
    destruct (Z.ltb_spec N 0) as [Hneg | _]; [lia |]. cbn [bind].
    fold theta_deg. rewrite Eloop. reflexivity.
  - split; [| split; [exact Epairs |]].
    + rewrite Havl, length_consecutive, length_linspace_values. simpl. lia.
    + intros k. now apply sector_up_to_360_is_empty.
Qed.

End IntegerSectors.

(** ** The calls of the worked examples, evaluated *)

(** C1.  [azimuthal_average(np.ones((5, 5)), stddev=True, binsize=1.0,
    returnradii=True)] returns two bin centres and a profile of four
    values: the stddev branch runs over [range(1, nbins + 1)] where the
    bin centres are cut to [nbins_true]. *)
Theorem stddev_profile_outruns_bin_centers :
  exists bin_centers prof,
    azimuthal_average (ones 5 5)
      (set_returnradii true (set_binsize (Fin 1) (set_stddev no_kwargs)))
    = Ok (WithCenters bin_centers prof)
    /\ map canon bin_centers = [Fin (1 # 2); Fin (3 # 2)]
    /\ length prof = 4%nat.
Proof.
  vm_compute. do 2 eexists. repeat split.
Qed.

(** C2.  [azimuthal_average(np.ones((5, 5)), interpnan=True,
    returnradii=True)]: the second bin is empty, its neighbours hold 1, the
    line through them gives 1 at its centre, and the call returns NaN
    there, as it does without [interpnan]. *)
Theorem interpnan_leaves_empty_bin_nan :
  exists bin_centers prof,
    azimuthal_average (ones 5 5) (set_returnradii true (set_interpnan no_kwargs))
    = Ok (WithCenters bin_centers prof)
    /\ map canon bin_centers = [Fin (1 # 4); Fin (3 # 4); Fin (5 # 4); Fin (7 # 4)]
    /\ map canon prof = [Fin 1; NaN; Fin 1; NaN]
    /\ canon (lerp (nth 0 bin_centers NaN) (nth 0 prof NaN)
                   (nth 2 bin_centers NaN) (nth 2 prof NaN)
                   (nth 1 bin_centers NaN)) = Fin 1
    /\ azimuthal_average (ones 5 5) (set_returnradii true no_kwargs)
       = Ok (WithCenters bin_centers prof).
Proof.
  vm_compute. do 2 eexists. repeat split.
Qed.

(** C3.  On [np.ones((5, 5))] with [stddev=True]: both functions raise the
    ValueError when [weights] is given; without [weights]
    [azimuthal_average] returns and [radial_average] raises a TypeError. *)
Theorem stddev_calls_on_ones :
  azimuthal_average (ones 5 5) (set_weights (ones 5 5) (set_stddev no_kwargs))
  = Raise InvalidConfiguration
  /\ radial_average (ones 5 5) (set_weights (ones 5 5) (set_stddev no_kwargs))
     = Raise InvalidConfiguration
  /\ is_ok (azimuthal_average (ones 5 5) (set_stddev no_kwargs)) = true
  /\ radial_average (ones 5 5) (set_stddev no_kwargs) = Raise float_count_error.
Proof.
  vm_compute. repeat split.
Qed.

(** C6.  [azimuthal_average_bins(np.ones((5, 5)), 4)]: the four samples of
    [np.linspace(0, 360, 4)] bound three sectors of 120 degrees, and the
    last one, whose upper boundary is reduced to 0, selects no pixel. *)
Theorem four_azbins_give_three_sectors :
  exists bounds rr azavlist,
    azimuthal_average_bins (ones 5 5) (BinsInt 4) None None no_kwargs
    = Ok (bounds, rr, azavlist)
    /\ map canon bounds = [Fin 0; Fin 120; Fin 240; Fin 360]
    /\ length azavlist = 3%nat
    /\ map (map canon) azavlist
       = [[NaN; NaN; Fin 1; NaN]; [NaN; NaN; Fin 1; NaN]; [NaN; NaN; NaN; NaN]].
Proof.
  vm_compute. do 3 eexists. repeat split.
Qed.

(** C7.  [azimuthal_average(np.ones((5, 5)), steps=True, binsize=1.0)]: the
    x array holds the edges of all four bins, the y array the two retained
    values twice. *)
Theorem step_arrays_differ_in_length :
  exists xarr yarr,
    azimuthal_average (ones 5 5) (set_steps (set_binsize (Fin 1) no_kwargs))
    = Ok (StepArrays xarr yarr)
    /\ map canon xarr
       = [Fin 0; Fin 1; Fin 1; Fin 2; Fin 2; Fin 3; Fin 3; Fin 4]
    /\ map canon yarr = [Fin 1; Fin 1; Fin 1; Fin 1].
Proof.
  vm_compute. do 2 eexists. repeat split.
Qed.

(** C8.  On [np.ones((5, 5))] with the default arguments:
    [azimuthal_average] returns NaN in its two empty bins and 1 in the
    others; [radial_average] raises a TypeError. *)
Theorem empty_bins_on_ones :
  (exists prof,
     azimuthal_average (ones 5 5) no_kwargs = Ok (Profile prof)
     /\ map canon prof = [Fin 1; NaN; Fin 1; NaN])
  /\ radial_average (ones 5 5) no_kwargs = Raise float_count_error.
Proof.
  vm_compute. split; [eexists; repeat split | reflexivity].
Qed.

(** C9.  With [steps], and both other shape flags set as well:
    [azimuthal_average] returns the step arrays; [radial_average] raises a
    TypeError and returns no shape at all. *)
Theorem all_shape_flags_on_ones :
  (exists xarr yarr,
     azimuthal_average (ones 5 5)
       (set_steps (set_returnradii true (set_return_nr true no_kwargs)))
     = Ok (StepArrays xarr yarr))
  /\ radial_average (ones 5 5)
       (set_steps (set_return_az true (set_return_naz true no_kwargs)))
     = Raise float_count_error.
Proof.
  vm_compute. split; [do 2 eexists; reflexivity | reflexivity].
Qed.

(** * Further properties of the four functions *)

(** ** Calls that raise *)

Ltac valid_call_of_defaults :=
  constructor;
  [reflexivity | cbn; lia | cbn; lia | reflexivity | reflexivity
  | intros ? E; discriminate E | intros ? E; discriminate E
  | intros ? E; discriminate E].

Lemma np_indices_empty (s : nat * nat) :
  size_of s = 0%nat -> np_indices s = ([], []).
Proof.
  destruct s as [rows cols]. unfold size_of. cbn [fst snd]. intros H.
  destruct (length_np_indices rows cols) as [H1 H2]. rewrite H in H1, H2.
  apply length_zero_iff_nil in H1, H2.
  rewrite (surjective_pairing (np_indices (rows, cols))). now rewrite H1, H2.
Qed.

Lemma resolve_center_known (image : ndarray float64)
      (center : option (float64 * float64)) :
  center_known image center ->
  exists c, resolve_center center (snd (np_indices (shape image)))
                           (fst (np_indices (shape image))) = Ok c.
Proof.
  intros [H | [Hr Hc]]; (destruct center as [c |]; [eexists; reflexivity |]);
    [congruence |].
  destruct (shape image) as [rows cols]. cbn [fst snd] in *.
  unfold resolve_center. rewrite (default_center_value Hr Hc). eauto.
Qed.

Section Errors.
Context {M : LibM}.

(** X1.  [radial_average] returns on no input at all.  On an image that has
    a pixel, unless [weights] and [stddev] are given together, what it
    raises is the TypeError of the float count [nbins] of line 229. *)
Theorem radial_average_never_returns (image : ndarray float64) (kw : kwargs) :
  is_ok (radial_average image kw) = false
  /\ ((0 < fst (shape image))%nat -> (0 < snd (shape image))%nat ->
      kw_weights kw = None \/ kw_stddev kw = false ->
      radial_average image kw = Raise float_count_error).
Proof.
  split; [apply radial_average_raises |].
  intros Hr Hc Hw.
  destruct (@resolve_center_known image (kw_center kw)) as [c Ec];
    [right; auto |].
  unfold radial_average, radial_locals.
  rewrite (surjective_pairing (np_indices (shape image))), Ec. cbn [bind].
  assert (Ew : match kw_weights kw with
               | None => Ok (np_ones (shape image))
               | Some w => if kw_stddev kw then Raise InvalidConfiguration
                           else Ok w
               end
               = Ok (get (kw_weights kw) (np_ones (shape image)))).
  { destruct Hw as [-> | ->]; [reflexivity |].
    destruct (kw_weights kw); reflexivity. }
  rewrite Ew. cbn [bind].
  destruct (theta_deg_of c (snd (np_indices (shape image)))
                         (fst (np_indices (shape image)))) as [| t l] eqn:E.
  - exfalso. apply (f_equal (@length _)) in E.
    destruct (shape image) as [rows cols]. rewrite length_theta_deg_of in E.
    unfold size_of in E. cbn [fst snd length] in *. nia.
  - reflexivity.
Qed.

(** X2.  [radial_average_bins] returns on no input: with fewer than two
    boundaries the loop binds no [az], and its first pass calls
    [radial_average], which raises. *)
Theorem radial_average_bins_never_returns (image : ndarray float64)
        (radbins : bins_arg) (corners : bool)
        (center : option (float64 * float64)) (kw : kwargs) :
  is_ok (radial_average_bins image radbins corners center kw) = false.
Proof.
  unfold radial_average_bins.
  destruct (np_indices (shape image)) as [y x].
  destruct (resolve_center center x y) as [c |]; [| reflexivity]. cbn [bind].
  destruct (band_setup _ _ _ _ _ _) as [bounds |]; [| reflexivity]. cbn [bind].
  destruct (consecutive bounds) as [| [blow bhigh] rest]; [reflexivity |].
  cbn [bins_loop].
  destruct (forward_kwargs _ _ _) as [kw' |]; [| reflexivity]. cbn [bind].
  pose proof (radial_average_raises image kw') as H.
  destruct (radial_average image kw'); [discriminate | reflexivity].
Qed.

(** X3.  Boundaries that are neither an array nor an integer are refused
    with a ValueError by both functions, before the keyword arguments are
    looked at. *)
Theorem invalid_bin_specification (image : ndarray float64)
        (symmetric : option Z) (corners : bool)
        (center : option (float64 * float64)) (kw : kwargs) :
  center_known image center ->
  azimuthal_average_bins image BinsOther symmetric center kw
  = Raise (ValueError "azbins must be an ndarray or an integer")
  /\ radial_average_bins image BinsOther corners center kw
     = Raise (ValueError "radbins must be an ndarray or an integer").
Proof.
  intros Hc. destruct (resolve_center_known Hc) as [c Ec].
  unfold azimuthal_average_bins, radial_average_bins.
  rewrite (surjective_pairing (np_indices (shape image))), Ec.
  split; reflexivity.
Qed.

(** X4.  Fewer than two sector boundaries leave the loop of
    [azimuthal_average_bins] without a pass, and the return statement
    raises UnboundLocalError for [rr]: so for an array of at most one
    boundary and for the integers 0 and 1.  A negative integer is refused
    by [np.linspace] with a ValueError. *)
Theorem too_few_sector_boundaries (image : ndarray float64)
        (symmetric : option Z) (center : option (float64 * float64))
        (kw : kwargs) :
  center_known image center ->
  (forall a, (length a <= 1)%nat ->
             exists msg,
               azimuthal_average_bins image (BinsArray a) symmetric center kw
               = Raise (UnboundLocalError msg))
  /\ (forall N, (0 <= N <= 1)%Z ->
                exists msg,
                  azimuthal_average_bins image (BinsInt N) symmetric center kw
                  = Raise (UnboundLocalError msg))
  /\ (forall N, (N < 0)%Z ->
                exists msg,
                  azimuthal_average_bins image (BinsInt N) symmetric center kw
                  = Raise (ValueError msg)).
Proof.
  intros Hc. destruct (resolve_center_known Hc) as [c Ec].
  unfold azimuthal_average_bins.
  rewrite (surjective_pairing (np_indices (shape image))), Ec. cbn [bind].
  split; [| split].
  - intros a Ha. cbn [sector_setup bind].
    destruct a as [| a0 [| a1 a]];
      [eexists; reflexivity | eexists; reflexivity |].
    simpl in Ha. lia.
  - intros N HN.
    assert (E : N = 0%Z \/ N = 1%Z) by lia.
    destruct E as [-> | ->];
      destruct symmetric as [[| [p | [p | p |] |] | p] |];
      eexists; reflexivity.
  - intros N HN. unfold sector_setup, np_linspace, py_index. cbn [bind].
    destruct (Z.ltb_spec N 0) as [_ | H]; [| lia].
    destruct symmetric as [[| [p | [p | p |] |] | p] |]; eexists; reflexivity.
Qed.

(** X5.  [azimuthal_average_bins] passes [mask] and [returnradii] itself:
    a call that gives either of them among its keyword arguments, with at
    least two boundaries, raises a TypeError. *)
Theorem duplicate_keyword_argument (image : ndarray float64)
        (a : list float64) (symmetric : option Z)
        (center : option (float64 * float64)) (kw : kwargs) :
  center_known image center -> (2 <= length a)%nat ->
  kw_mask kw <> None \/ kw_returnradii kw = true ->
  exists msg,
    azimuthal_average_bins image (BinsArray a) symmetric center kw
    = Raise (TypeError msg).
Proof.
  intros Hc Ha Hkw. destruct (resolve_center_known Hc) as [c Ec].
  unfold azimuthal_average_bins.
  rewrite (surjective_pairing (np_indices (shape image))), Ec.
  cbn [bind sector_setup].
  destruct a as [| a0 [| a1 a]]; try (simpl in Ha; lia).
  rewrite consecutive_cons. cbn [bins_loop]. unfold forward_kwargs.
  destruct (kw_mask kw) as [m |]; [eexists; reflexivity |].
  destruct Hkw as [H | ->]; [congruence |]. eexists; reflexivity.
Qed.

(** X6.  An image without a pixel makes [azimuthal_average] and
    [radial_average] raise the ValueError of a maximum over an empty array
    (at [x.max()] when the centre is computed, at [r.max()] or
    [theta_deg.max()] when it is given), unless the centre, [weights] and
    [stddev] are all given, which is refused first. *)
Theorem empty_image_raises (image : ndarray float64) (kw : kwargs) :
  size_of (shape image) = 0%nat ->
  kw_center kw = None \/ kw_weights kw = None \/ kw_stddev kw = false ->
  azimuthal_average image kw = Raise zero_size_max
  /\ radial_average image kw = Raise zero_size_max.
Proof.
  intros Hs Hkw.
  unfold azimuthal_average, azimuthal_locals, radial_average, radial_locals.
  rewrite (np_indices_empty _ Hs).
  destruct (kw_center kw) as [c |]; [| split; reflexivity].
  cbn [resolve_center bind].
  destruct Hkw as [H | [-> | ->]]; [discriminate | split; reflexivity |].
  destruct (kw_weights kw); split; reflexivity.
Qed.

End Errors.

Lemma radial_average_never_returns_witness :
  (0 < fst (shape (ones 5 5)))%nat /\ (0 < snd (shape (ones 5 5)))%nat
  /\ radial_average (ones 5 5) no_kwargs = Raise float_count_error.
Proof.
  split; [cbn; lia |]. split; [cbn; lia |].
  apply (proj2 (radial_average_never_returns (ones 5 5) no_kwargs));
    [cbn; lia | cbn; lia | left; reflexivity].
Defined.

Lemma invalid_bin_specification_witness :
  center_known (ones 5 5) None
  /\ azimuthal_average_bins (ones 5 5) BinsOther None None no_kwargs
     = Raise (ValueError "azbins must be an ndarray or an integer")
  /\ radial_average_bins (ones 5 5) BinsOther true None no_kwargs
     = Raise (ValueError "radbins must be an ndarray or an integer").
Proof.
  assert (H : center_known (ones 5 5) None) by (right; cbn; lia).
  split; [exact H |].
  exact (invalid_bin_specification None true no_kwargs H).
Defined.

Lemma too_few_sector_boundaries_witness :
  center_known (ones 5 5) None
  /\ (length [Fin 90] <= 1)%nat
  /\ (exists msg,
        azimuthal_average_bins (ones 5 5) (BinsArray [Fin 90]) None None
                               no_kwargs
        = Raise (UnboundLocalError msg))
  /\ (0 <= 1 <= 1)%Z
  /\ (exists msg,
        azimuthal_average_bins (ones 5 5) (BinsInt 1) None None no_kwargs
        = Raise (UnboundLocalError msg))
  /\ (-1 < 0)%Z
  /\ exists msg,
       azimuthal_average_bins (ones 5 5) (BinsInt (-1)) None None no_kwargs
       = Raise (ValueError msg).
Proof.
  assert (H : center_known (ones 5 5) None) by (right; cbn; lia).
  destruct (too_few_sector_boundaries None no_kwargs H) as [H1 [H2 H3]].
  split; [exact H |].
  split; [cbn; lia |]. split; [apply H1; cbn; lia |].
  split; [lia |]. split; [apply H2; lia |].
  split; [lia |]. apply H3. lia.
Defined.

Lemma duplicate_keyword_argument_witness :
  center_known (ones 5 5) None
  /\ (2 <= length [Fin 0; Fin 90])%nat
  /\ kw_returnradii (set_returnradii true no_kwargs) = true
  /\ exists msg,
       azimuthal_average_bins (ones 5 5) (BinsArray [Fin 0; Fin 90]) None None
                              (set_returnradii true no_kwargs)
       = Raise (TypeError msg).
Proof.
  assert (H : center_known (ones 5 5) None) by (right; cbn; lia).
  split; [exact H |]. split; [cbn; lia |]. split; [reflexivity |].
  apply (@duplicate_keyword_argument _ (ones 5 5) [Fin 0; Fin 90] None None
           (set_returnradii true no_kwargs) H); [cbn; lia | right; reflexivity].
Defined.

Lemma empty_image_raises_witness :
  size_of (shape (ones 0 5)) = 0%nat
  /\ azimuthal_average (ones 0 5) no_kwargs = Raise zero_size_max
  /\ radial_average (ones 0 5) no_kwargs = Raise zero_size_max.
Proof.
  split; [reflexivity |].
  apply (@empty_image_raises _ (ones 0 5) no_kwargs);
    [reflexivity | left; reflexivity].
Defined.

(** ** Degenerate bin sizes *)

Section Maximum.
Context {M : LibM}.

(** The largest distance of a non-empty image from a finite centre: finite,
    and at least half the horizontal extent. *)
Lemma np_max_distance_map (rows cols : nat) (c : float64 * float64) :
  (0 < rows)%nat -> (0 < cols)%nat ->
  isfinite (fst c) = true -> isfinite (snd c) = true ->
  exists rm,
    np_max (distance_map c (snd (np_indices (rows, cols)))
                         (fst (np_indices (rows, cols)))) = Ok (Fin rm)
    /\ (inject_Z (Z.of_nat cols - 1) / 2 <= rm)%Q.
Proof.
  intros Hr Hc Hcx Hcy.
  set (x := snd (np_indices (rows, cols))).
  set (y := fst (np_indices (rows, cols))).
  assert (Hlen : length (distance_map c x y) = (rows * cols)%nat).
  { rewrite length_distance_map. unfold x, y.
    destruct (length_np_indices rows cols) as [-> ->]. apply Nat.min_id. }
  destruct (np_max_finite (l := distance_map c x y)) as [rm [Emax [Hrm Hall]]].
  { intros E. rewrite E in Hlen. simpl in Hlen. nia. }
  { now apply distance_map_finite. }
  exists rm. split; [exact Emax |].
  unfold x, y in Hall.
  destruct c as [[cx | | |] [cy | | |]]; try discriminate.
  destruct (@distance_first_row _ cx cy rows cols 0%nat Hr Hc)
    as [q0 [Hin0 Hq0]].
  destruct (@distance_first_row _ cx cy rows cols (cols - 1)%nat Hr)
    as [q1 [Hin1 Hq1]]; [lia |].
  rewrite Forall_forall in Hall.
  destruct (Hall _ Hin0) as [q0' [E0 Hle0]]. injection E0 as <-.
  destruct (Hall _ Hin1) as [q1' [E1 Hle1]]. injection E1 as <-.
  apply Qabs_Qle_condition in Hq0, Hq1.
  replace (Z.of_nat (cols - 1)) with (Z.of_nat cols - 1)%Z in Hq1 by lia.
  change (inject_Z (Z.of_nat 0)) with 0%Q in Hq0.
  apply Qle_shift_div_r; [reflexivity |]. lra.
Qed.

(** X7.  A bin size of zero makes [azimuthal_average] raise OverflowError
    on every image of two columns or more ([r.max() / 0] is infinite and
    [int] refuses it), and a NaN bin size makes it raise ValueError: in
    both cases at line 71. *)
Theorem degenerate_binsize_raises (image : ndarray float64) (kw : kwargs) :
  (0 < fst (shape image))%nat -> (2 <= snd (shape image))%nat ->
  (forall c, kw_center kw = Some c ->
             isfinite (fst c) = true /\ isfinite (snd c) = true) ->
  kw_weights kw = None \/ kw_stddev kw = false ->
  (kw_binsize kw = Some (Fin 0) ->
   azimuthal_average image kw
   = Raise (OverflowError "cannot convert float infinity to integer"))
  /\ (kw_binsize kw = Some NaN ->
      azimuthal_average image kw
      = Raise (ValueError "cannot convert float NaN to integer")).
Proof.
  intros Hr Hc Hcenter Hw.
  assert (Ec : exists c,
             resolve_center (kw_center kw) (snd (np_indices (shape image)))
                            (fst (np_indices (shape image))) = Ok c
             /\ isfinite (fst c) = true /\ isfinite (snd c) = true).
  { unfold resolve_center. destruct (kw_center kw) as [c |].
    - exists c. split; [reflexivity | now apply Hcenter].
    - destruct (shape image) as [rows cols]. cbn [fst snd] in *.
      rewrite default_center_value by lia. eexists. split; [reflexivity |].
      split; reflexivity. }
  destruct Ec as [c [Ec [Hcx Hcy]]].
  assert (Emax : exists rm,
             np_max (distance_map c (snd (np_indices (shape image)))
                                  (fst (np_indices (shape image))))
             = Ok (Fin rm) /\ (0 < rm)%Q).
  { destruct (shape image) as [rows cols]. cbn [fst snd] in *.
    destruct (@np_max_distance_map rows cols c) as [rm [E Hrm]];
      try assumption; [lia |].
    exists rm. split; [exact E |].
    assert (H : (1 <= inject_Z (Z.of_nat cols - 1))%Q)
      by (change 1%Q with (inject_Z 1); rewrite <- Zle_Qle; lia).
    eapply Qlt_le_trans; [| exact Hrm].
    apply Qlt_shift_div_l; [reflexivity |]. lra. }
  destruct Emax as [rm [Emax Hrm]].
  assert (Ew : match kw_weights kw with
               | None => Ok (np_ones (shape image))
               | Some w => if kw_stddev kw then Raise InvalidConfiguration
                           else Ok w
               end
               = Ok (get (kw_weights kw) (np_ones (shape image)))).
  { destruct Hw as [-> | ->]; [reflexivity |].
    destruct (kw_weights kw); reflexivity. }
  unfold azimuthal_average, azimuthal_locals.
  rewrite (surjective_pairing (np_indices (shape image))), Ec. cbn [bind].
  rewrite Ew. cbn [bind]. rewrite Emax. cbn [bind].
  split; intros ->; cbn [get].
  - assert (Ediv : (Fin rm / Fin 0)%f64 = PInf).
    { unfold fdiv. change (Qeq_bool 0 0) with true. cbv iota.
      destruct (0 ?= rm)%Q eqn:E; [| reflexivity |].
      - apply Qeq_alt in E. lra.
      - apply Qgt_alt in E. lra. }
    rewrite Ediv. reflexivity.
  - reflexivity.
Qed.

End Maximum.

Lemma degenerate_binsize_raises_witness :
  (0 < fst (shape (ones 5 5)))%nat /\ (2 <= snd (shape (ones 5 5)))%nat
  /\ azimuthal_average (ones 5 5) (set_binsize (Fin 0) no_kwargs)
     = Raise (OverflowError "cannot convert float infinity to integer")
  /\ azimuthal_average (ones 5 5) (set_binsize NaN no_kwargs)
     = Raise (ValueError "cannot convert float NaN to integer").
Proof.
  split; [cbn; lia |]. split; [cbn; lia |]. split.
  - apply (proj1 (@degenerate_binsize_raises _ (ones 5 5)
                    (set_binsize (Fin 0) no_kwargs)
                    ltac:(cbn; lia) ltac:(cbn; lia)
                    ltac:(intros c E; discriminate E)
                    (or_introl eq_refl))).
    reflexivity.
  - apply (proj2 (@degenerate_binsize_raises _ (ones 5 5)
                    (set_binsize NaN no_kwargs)
                    ltac:(cbn; lia) ltac:(cbn; lia)
                    ltac:(intros c E; discriminate E)
                    (or_introl eq_refl))).
    reflexivity.
Defined.

(** ** [interpnan], case by case *)

Section InterpnanCases.
Context {M : LibM}.
Variables (image : ndarray float64) (kw : kwargs) (b : Q).
Hypothesis V : valid_call image kw b.

Lemma valid_unset_interpnan : valid_call image (unset_interpnan kw) b.
Proof. constructor; apply V. Qed.

(** X8.  When [interpnan] is set and no bin is retained
    ([floor(sampling_frequency / binsize)] is 0: a single column, or a bin
    size above half the width), [np.interp] is given no sample point and
    raises ValueError; in the stddev mode with a retained bin it is given
    a profile longer than the bin centres and raises ValueError too.  So
    [interpnan] with [stddev] never returns. *)
Theorem interpnan_raises :
  kw_interpnan kw = true ->
  (Qfloor (sampling_frequency image / b) = 0%Z ->
   azimuthal_average image kw
   = Raise (ValueError "array of sample points is empty"))
  /\ (kw_stddev kw = true -> (1 <= Qfloor (sampling_frequency image / b))%Z ->
      azimuthal_average image kw
      = Raise (ValueError "fp and xp are not of the same length."))
  /\ (kw_stddev kw = true -> is_ok (azimuthal_average image kw) = false).
Proof.
  intros Hinterp.
  destruct (azimuthal_locals_computed valid_unset_interpnan eq_refl) as [l [Hl C]].
  pose proof (cp_centers C) as Hcen. pose proof (cp_prof C) as Hprof.
  pose proof (cp_fewer C) as Hlt. pose proof (cp_nonneg C) as Hnn.
  rewrite (cp_nbins_true C) in *.
  cbn [unset_interpnan kw_stddev] in Hprof.
  unfold azimuthal_average.
  rewrite azimuthal_locals_interpnan, Hl, Hinterp. cbn [bind].
  assert (Hempty : Qfloor (sampling_frequency image / b) = 0%Z ->
                   np_interp (l_bin_centers l) (l_bin_centers l) (l_prof l)
                             (kw_left kw) (kw_right kw)
                   = Raise (ValueError "array of sample points is empty")).
  { intros E. rewrite E in Hcen.
    destruct (l_bin_centers l); [reflexivity | discriminate]. }
  assert (Hlonger : kw_stddev kw = true ->
                    (1 <= Qfloor (sampling_frequency image / b))%Z ->
                    np_interp (l_bin_centers l) (l_bin_centers l) (l_prof l)
                              (kw_left kw) (kw_right kw)
                    = Raise (ValueError "fp and xp are not of the same length.")).
  { intros Hstd Hbins. rewrite Hstd in Hprof. unfold np_interp.
    destruct (l_bin_centers l) as [| x0 xp] eqn:E;
      [cbn [length] in Hcen; lia |].
    destruct (Nat.eqb_spec (length (l_prof l)) (length (x0 :: xp))) as [E' | _];
      [| reflexivity].
    rewrite Hcen, Hprof in E'. lia. }
  split; [| split].
  - intros E. now rewrite (Hempty E).
  - intros Hstd Hbins. now rewrite (Hlonger Hstd Hbins).
  - intros Hstd.
    destruct (Z.eq_dec (Qfloor (sampling_frequency image / b)) 0) as [E | E].
    + now rewrite (Hempty E).
    + rewrite (Hlonger Hstd); [reflexivity | lia].
Qed.

(** X9.  In the mean and sum modes with at least one retained bin, a call
    with [interpnan] returns, and returns what the same call without
    [interpnan] returns, whatever [left] and [right] are: no NaN of the
    profile is filled. *)
Theorem interpnan_fills_nothing :
  kw_interpnan kw = true -> kw_stddev kw = false ->
  (1 <= Qfloor (sampling_frequency image / b))%Z ->
  exists o, azimuthal_average image kw = Ok o
            /\ azimuthal_average image (unset_interpnan kw) = Ok o.
Proof.
  intros _ Hstd Hbins.
  pose proof (azimuthal_average_returns valid_unset_interpnan eq_refl) as Hok.
  rewrite (interpnan_is_identity V Hstd Hbins).
  destruct (azimuthal_average image (unset_interpnan kw)) as [o |];
    [eauto | discriminate].
Qed.

End InterpnanCases.

Lemma interpnan_raises_witness :
  valid_call (ones 5 1) (set_interpnan no_kwargs) (1 # 2)
  /\ valid_call (ones 5 5) (set_interpnan (set_stddev no_kwargs)) (1 # 2)
  /\ azimuthal_average (ones 5 1) (set_interpnan no_kwargs)
     = Raise (ValueError "array of sample points is empty")
  /\ azimuthal_average (ones 5 5) (set_interpnan (set_stddev no_kwargs))
     = Raise (ValueError "fp and xp are not of the same length.")
  /\ is_ok (azimuthal_average (ones 5 5) (set_interpnan (set_stddev no_kwargs)))
     = false.
Proof.
  assert (V1 : valid_call (ones 5 1) (set_interpnan no_kwargs) (1 # 2))
    by valid_call_of_defaults.
  assert (V2 : valid_call (ones 5 5) (set_interpnan (set_stddev no_kwargs))
                          (1 # 2))
    by valid_call_of_defaults.
  split; [exact V1 |]. split; [exact V2 |]. split; [| split].
  - apply (proj1 (interpnan_raises V1 eq_refl)). reflexivity.
  - apply (proj1 (proj2 (interpnan_raises V2 eq_refl)));
      [reflexivity | vm_compute; discriminate].
  - apply (proj2 (proj2 (interpnan_raises V2 eq_refl))). reflexivity.
Defined.

Lemma interpnan_fills_nothing_witness :
  valid_call (ones 5 5) (set_interpnan no_kwargs) (1 # 2)
  /\ exists o, azimuthal_average (ones 5 5) (set_interpnan no_kwargs) = Ok o
               /\ azimuthal_average (ones 5 5)
                    (unset_interpnan (set_interpnan no_kwargs)) = Ok o.
Proof.
  assert (V : valid_call (ones 5 5) (set_interpnan no_kwargs) (1 # 2))
    by valid_call_of_defaults.
  split; [exact V |].
  apply (interpnan_fills_nothing V eq_refl eq_refl). vm_compute. discriminate.
Defined.

(** ** Sums over the members of a bin *)

Lemma np_sum_repeat_from (v a : Q) (k : nat) :
  exists q, fold_left fadd (repeat (Fin v) k) (Fin a) = Fin q
            /\ (q == a + inject_Z (Z.of_nat k) * v)%Q.
Proof.
  revert a. induction k as [| k IH]; intros a.
  - exists a. split; [reflexivity |]. change (inject_Z (Z.of_nat 0)) with 0%Q. lra.
  - cbn [repeat fold_left fadd]. destruct (IH (a + v)%Q) as [q [E Hq]].
    exists q. split; [exact E |].
    rewrite Hq, Nat2Z.inj_succ, <- Z.add_1_r, inject_Z_plus.
    change (inject_Z 1) with 1%Q. lra.
Qed.

Lemma np_sum_repeat (v : Q) (k : nat) :
  exists q, np_sum (repeat (Fin v) k) = Fin q
            /\ (q == inject_Z (Z.of_nat k) * v)%Q.
Proof.
  destruct (np_sum_repeat_from v 0 k) as [q [E Hq]]. exists q.
  split; [exact E |]. rewrite Hq. lra.
Qed.

(** Boolean indexing of a constant array gives a constant array, as long as
    the number of selected entries. *)
Lemma bin_members_repeat {A : Type} (v : A) (n : nat) (mask : list bool)
      (whichbin : list Z) (b : Z) :
  bin_members (repeat v n) mask whichbin b
  = repeat v (length (bin_members (repeat tt n) mask whichbin b)).
Proof.
  unfold bin_members. generalize (map2 andb mask (map (fun w => Z.eqb w b) whichbin)).
  intros idx. revert idx. induction n as [| n IH]; intros idx; [reflexivity |].
  destruct idx as [| [|] idx]; cbn [repeat combine filter snd map fst length];
    [reflexivity | f_equal; apply IH | apply IH].
Qed.

Section Modes.
Context {M : LibM}.
Variables (image : ndarray float64) (kw : kwargs) (b : Q).
Hypothesis V : valid_call image kw b.

(** X10.  In the sum mode ([sum_bin] without [stddev]) the profile has one
    value for each bin centre; every retained bin holds the sum of
    [image * weights] over the pixels of that bin the mask lets through,
    and a bin that no pixel reaches holds 0, not NaN. *)
Theorem sum_mode_empty_bin_is_zero :
  kw_stddev kw = false -> kw_sum_bin kw = true -> kw_interpnan kw = false ->
  exists l iw,
    azimuthal_locals image kw = Ok l
    /\ azimuthal_average image kw = Ok (azimuthal_return kw l)
    /\ np_mul image (l_weights l) = Ok iw
    /\ length (l_prof l) = length (l_bin_centers l)
    /\ forall i, (i < length (l_prof l))%nat ->
         nth i (l_prof l) NaN
         = np_sum (bin_members (flat iw) (l_mask l) (l_whichbin l)
                               (1 + Z.of_nat i))
         /\ ((forall k, nth k (l_mask l) false
                        && (nth k (l_whichbin l) 0 =? 1 + Z.of_nat i)%Z = false) ->
             nth i (l_prof l) NaN = Fin 0).
Proof.
  intros Hstd Hsum Hinterp.
  destruct (azimuthal_locals_computed V Hinterp) as [l [Hl C]].
  pose proof (cp_prof C) as Hprof. pose proof (cp_whichbin C) as Hw.
  pose proof (cp_mask C) as Hm. pose proof (cp_aggregate C) as Hagg.
  destruct (cp_weights C) as [Hws Hwl].
  rewrite Hstd in Hprof.
  exists l. eexists. split; [exact Hl |].
  split; [unfold azimuthal_average; now rewrite Hl |].
  split; [apply np_mul_value; exact Hws |].
  split; [now rewrite Hprof, (cp_centers C) |].
  intros i Hi.
  unfold aggregate in Hagg. rewrite Hstd, Hsum in Hagg.
  unfold py_range, py_index in Hagg. cbn [bind] in Hagg.
  assert (Hrange : nth_error (zrange 1 (l_nbins_true l + 1)) i
                   = Some (1 + Z.of_nat i)%Z).
  { unfold zrange. rewrite nth_error_map, nth_error_seq.
    destruct (Nat.ltb_spec i (Z.to_nat (l_nbins_true l + 1 - 1))); [| lia].
    reflexivity. }
  destruct (mapM_nth_error _ _ i Hagg Hrange) as [v [Hv Hnth]].
  rewrite np_mul_value in Hv by exact Hws. cbn [bind flat] in Hv.
  assert (Hiw : length (map2 fmul (flat image) (flat (l_weights l)))
                = length (l_whichbin l))
    by (rewrite length_map2, (vc_image V), Hwl, Hw; apply Nat.min_id).
  rewrite select_bin_value in Hv by congruence. cbn [bind] in Hv.
  injection Hv as <-.
  assert (Hval : nth i (l_prof l) NaN
                 = np_sum (bin_members
                             (map2 fmul (flat image) (flat (l_weights l)))
                             (l_mask l) (l_whichbin l) (1 + Z.of_nat i)))
    by (apply nth_error_nth; exact Hnth).
  split; [exact Hval |].
  intros Hempty. rewrite Hval, bin_members_empty by exact Hempty. reflexivity.
Qed.

End Modes.

Lemma sum_mode_empty_bin_is_zero_witness :
  valid_call (ones 5 5) (set_sum_bin no_kwargs) (1 # 2)
  /\ exists l iw,
       azimuthal_locals (ones 5 5) (set_sum_bin no_kwargs) = Ok l
       /\ azimuthal_average (ones 5 5) (set_sum_bin no_kwargs)
          = Ok (azimuthal_return (set_sum_bin no_kwargs) l)
       /\ np_mul (ones 5 5) (l_weights l) = Ok iw
       /\ length (l_prof l) = length (l_bin_centers l)
       /\ forall i, (i < length (l_prof l))%nat ->
            nth i (l_prof l) NaN
            = np_sum (bin_members (flat iw) (l_mask l) (l_whichbin l)
                                  (1 + Z.of_nat i))
            /\ ((forall k, nth k (l_mask l) false
                           && (nth k (l_whichbin l) 0 =? 1 + Z.of_nat i)%Z
                           = false) ->
                nth i (l_prof l) NaN = Fin 0).
Proof.
  assert (V : valid_call (ones 5 5) (set_sum_bin no_kwargs) (1 # 2))
    by valid_call_of_defaults.
  split; [exact V |].
  exact (sum_mode_empty_bin_is_zero V eq_refl eq_refl eq_refl).
Defined.

Section Ones.
Context {M : LibM}.
Variables (rows cols : nat) (kw : kwargs) (b : Q).
Hypothesis V : valid_call (ones rows cols) kw b.

(** X11.  On an image of ones of any size, with the default weights and in
    the mean mode, every value of the profile is exactly 1 when a pixel of
    its bin passes the mask, and NaN when none does. *)
Theorem ones_profile_is_one_or_nan :
  kw_weights kw = None -> kw_stddev kw = false -> kw_sum_bin kw = false ->
  kw_interpnan kw = false ->
  exists l,
    azimuthal_locals (ones rows cols) kw = Ok l
    /\ azimuthal_average (ones rows cols) kw = Ok (azimuthal_return kw l)
    /\ forall i, (i < length (l_prof l))%nat ->
         match bin_members (flat (ones rows cols)) (l_mask l) (l_whichbin l)
                           (1 + Z.of_nat i) with
         | [] => nth i (l_prof l) (Fin 0) = NaN
         | _ :: _ => exists q, nth i (l_prof l) (Fin 0) = Fin q /\ (q == 1)%Q
         end.
Proof.
  intros Hweights Hstd Hsum Hinterp.
  destruct (mean_profile_entries V Hstd Hsum Hinterp)
    as [l [iw [Hl [Hiw [Hlen Hval]]]]].
  assert (Hw : l_weights l = np_ones (rows, cols)).
  { destruct (azimuthal_locals_run V) as [c [rm Hrun]]. cbn zeta in Hrun.
    destruct Hrun as [_ [_ [_ [_ [_ Hrun]]]]].
    rewrite Hl, Hweights, Hinterp in Hrun.
    destruct (aggregate _ _ _ _ _ _ _ _) as [prof |]; [| discriminate].
    cbn [bind] in Hrun. injection Hrun as ->. reflexivity. }
  exists l. split; [exact Hl |].
  split; [unfold azimuthal_average; now rewrite Hl |].
  intros i Hi. destruct (Hval i Hi) as [Hv _].
  rewrite Hw in Hiw, Hv.
  unfold np_mul in Hiw. cbn [ones np_ones shape fst snd] in Hiw.
  rewrite !Nat.eqb_refl in Hiw. cbn [andb flat] in Hiw. injection Hiw as <-.
  cbn [flat ones np_ones] in Hv |- *.
  assert (Emul : map2 fmul (repeat (Fin 1) (size_of (rows, cols)))
                           (repeat (Fin 1) (size_of (rows, cols)))
                 = repeat (Fin (1 * 1)) (size_of (rows, cols))).
  { unfold map2. generalize (size_of (rows, cols)). intros n.
    induction n as [| n IH]; [reflexivity |]. cbn [repeat combine map fst snd].
    now rewrite IH. }
  rewrite Emul in Hv.
  rewrite (bin_members_repeat (Fin (1 * 1))),
          (bin_members_repeat (Fin 1)) in Hv.
  rewrite (bin_members_repeat (Fin 1)).
  set (k := length (bin_members (repeat tt (size_of (rows, cols))) (l_mask l)
                                (l_whichbin l) (1 + Z.of_nat i))) in *.
  destruct (np_sum_repeat (1 * 1) k) as [p [Ep Hp]].
  destruct (np_sum_repeat 1 k) as [q [Eq Hq]].
  rewrite Ep, Eq in Hv.
  destruct k as [| k].
  - cbn [repeat]. rewrite Hv. cbn [np_sum repeat fold_left] in Ep, Eq.
    injection Ep as <-. injection Eq as <-. reflexivity.
  - cbn [repeat].
    assert (Hk : (0 < inject_Z (Z.of_nat (S k)))%Q)
      by (change 0%Q with (inject_Z 0); rewrite <- Zlt_Qlt; lia).
    assert (Hq0 : (0 < q)%Q) by (rewrite Hq; lra).
    rewrite fdiv_Fin in Hv by exact Hq0.
    eexists. split; [exact Hv |]. rewrite Hp, Hq. field. lra.
Qed.

End Ones.

Lemma ones_profile_is_one_or_nan_witness :
  valid_call (ones 5 5) no_kwargs (1 # 2)
  /\ exists l,
       azimuthal_locals (ones 5 5) no_kwargs = Ok l
       /\ azimuthal_average (ones 5 5) no_kwargs
          = Ok (azimuthal_return no_kwargs l)
       /\ forall i, (i < length (l_prof l))%nat ->
            match bin_members (flat (ones 5 5)) (l_mask l) (l_whichbin l)
                              (1 + Z.of_nat i) with
            | [] => nth i (l_prof l) (Fin 0) = NaN
            | _ :: _ => exists q, nth i (l_prof l) (Fin 0) = Fin q /\ (q == 1)%Q
            end.
Proof.
  assert (V : valid_call (ones 5 5) no_kwargs (1 # 2))
    by valid_call_of_defaults.
  split; [exact V |].
  exact (ones_profile_is_one_or_nan V eq_refl eq_refl eq_refl eq_refl).
Defined.

(** ** Bin edges, bin centres and counts *)



Section Geometry.
Context {M : LibM}.
Variables (image : ndarray float64) (kw : kwargs) (b : Q).
Hypothesis V : valid_call image kw b.


(** X13.  In the mean and sum modes the profile returned with
    [returnradii] has one value for each bin centre returned with it (the
    invariant of the comment at line 85, which the stddev mode breaks), and
    the bin centres increase strictly. *)
Theorem profile_matches_bin_centers :
  kw_stddev kw = false -> kw_steps kw = false -> kw_returnradii kw = true ->
  kw_interpnan kw = false ->
  exists bin_centers prof,
    azimuthal_average image kw = Ok (WithCenters bin_centers prof)
    /\ length prof = length bin_centers
    /\ increasing bin_centers = true.
Proof.
  intros Hstd Hsteps Hradii Hinterp.
  destruct (azimuthal_locals_computed V Hinterp) as [l [Hl C]].
  exists (l_bin_centers l), (l_prof l). split; [| split].
  - unfold azimuthal_average. rewrite Hl. cbn [bind].
    unfold azimuthal_return. now rewrite Hsteps, Hradii.
  - now rewrite (cp_prof C), Hstd, (cp_centers C).
  - exact (cp_increasing C).
Qed.


End Geometry.


Lemma profile_matches_bin_centers_witness :
  valid_call (ones 5 5) (set_returnradii true no_kwargs) (1 # 2)
  /\ exists bin_centers prof,
       azimuthal_average (ones 5 5) (set_returnradii true no_kwargs)
       = Ok (WithCenters bin_centers prof)
       /\ length prof = length bin_centers
       /\ increasing bin_centers = true.
Proof.
  assert (V : valid_call (ones 5 5) (set_returnradii true no_kwargs) (1 # 2))
    by valid_call_of_defaults.
  split; [exact V |].
  exact (profile_matches_bin_centers V eq_refl eq_refl eq_refl eq_refl).
Defined.


(** ** What the result depends on *)

Section GeometryOnly.
Context {M : LibM}.

(** The bins, the assignment of the pixels to them, the counts and the bin
    centres are computed from the shape of the image, the centre and the
    bin size, and from nothing else. *)
Lemma geometry_only (image image' : ndarray float64) (kw kw' : kwargs)
      (l l' : azimuthal_vars) :
  shape image' = shape image -> kw_center kw' = kw_center kw ->
  kw_binsize kw' = kw_binsize kw ->
  azimuthal_locals image kw = Ok l -> azimuthal_locals image' kw' = Ok l' ->
  l_center l' = l_center l /\ l_r l' = l_r l /\ l_nbins l' = l_nbins l
  /\ l_bins l' = l_bins l /\ l_whichbin l' = l_whichbin l
  /\ l_nr l' = l_nr l /\ l_nbins_true l' = l_nbins_true l
  /\ l_bin_centers l' = l_bin_centers l.
Proof.
  intros Hs Hc Hb H H'. unfold azimuthal_locals in H, H'.
  rewrite Hs, Hc, Hb in H'.
  destruct (np_indices (shape image)) as [y x].
  destruct (resolve_center (kw_center kw) x y) as [c |]; [| discriminate].
  cbn [bind] in H, H'.
  destruct (match kw_weights kw with
            | Some w => if kw_stddev kw then Raise InvalidConfiguration else Ok w
            | None => Ok (np_ones (shape image))
            end) as [weights |]; [| discriminate].
  destruct (match kw_weights kw' with
            | Some w => if kw_stddev kw' then Raise InvalidConfiguration else Ok w
            | None => Ok (np_ones (shape image))
            end) as [weights' |]; [| discriminate].
  cbn [bind] in H, H'.
  destruct (np_max (distance_map c x y)) as [rmax |]; [| discriminate].
  cbn [bind] in H, H'.
  destruct (py_int _) as [nbins |]; [| discriminate]. cbn [bind] in H, H'.
  destruct (np_linspace _ _ _) as [bins |]; [| discriminate].
  cbn [bind] in H, H'.
  destruct (np_digitize (distance_map c x y) bins) as [whichbin |];
    [| discriminate].
  cbn [bind] in H, H'.
  destruct (int_max x) as [xmax |]; [| discriminate]. cbn [bind] in H, H'.
  destruct (int_min x) as [xmin |]; [| discriminate]. cbn [bind] in H, H'.
  destruct (py_int _) as [nbins_true |]; [| discriminate]. cbn [bind] in H, H'.
  destruct (aggregate image _ _ _ _ _ _ _) as [prof |]; [| discriminate].
  destruct (aggregate image' _ _ _ _ _ _ _) as [prof' |]; [| discriminate].
  cbn [bind] in H, H'.
  destruct (if kw_interpnan kw then _ else _) as [p |]; [| discriminate].
  destruct (if kw_interpnan kw' then _ else _) as [p' |]; [| discriminate].
  cbn [bind] in H, H'. injection H as <-. injection H' as <-.
  repeat split.
Qed.

(** X15.  Two calls on images of one shape, with the same centre and bin
    size, return the same counts and the same bin centres, whatever the
    pixel values, the weights, the mask and the aggregation mode are. *)
Theorem counts_and_centers_ignore_the_data
        (image image' : ndarray float64) (kw kw' : kwargs)
        (nr nr' : list Z) (bin_centers bin_centers' prof prof' : list float64) :
  shape image' = shape image -> kw_center kw' = kw_center kw ->
  kw_binsize kw' = kw_binsize kw ->
  azimuthal_average image kw = Ok (WithCounts nr bin_centers prof) ->
  azimuthal_average image' kw' = Ok (WithCounts nr' bin_centers' prof') ->
  nr' = nr /\ bin_centers' = bin_centers.
Proof.
  intros Hs Hc Hb H H'. unfold azimuthal_average in H, H'.
  destruct (azimuthal_locals image kw) as [l |] eqn:El; [| discriminate].
  destruct (azimuthal_locals image' kw') as [l' |] eqn:El'; [| discriminate].
  destruct (@geometry_only image image' kw kw' l l' Hs Hc Hb El El') as [_ [_ [_ [_ [_ [Hnr [_ Hbc]]]]]]].
  cbn [bind] in H, H'. unfold azimuthal_return in H, H'.
  destruct (kw_steps kw); [discriminate |].
  destruct (kw_returnradii kw); [discriminate |].
  destruct (kw_return_nr kw); [| discriminate].
  destruct (kw_steps kw'); [discriminate |].
  destruct (kw_returnradii kw'); [discriminate |].
  destruct (kw_return_nr kw'); [| discriminate].
  injection H as <- <- _. injection H' as <- <- _. auto.
Qed.

(** X16.  A pixel that the mask leaves out has no part in the result:
    another value at that pixel, NaN or infinite ones included, gives the
    same result of [azimuthal_average]. *)
Theorem masked_pixels_do_not_contribute
        (image image' : ndarray float64) (kw : kwargs) (m : ndarray bool) :
  kw_mask kw = Some m ->
  shape image' = shape image -> length (flat image') = length (flat image) ->
  length (flat m) = size_of (shape image) ->
  (forall k, nth k (flat m) false = true ->
             nth_error (flat image') k = nth_error (flat image) k) ->
  azimuthal_average image' kw = azimuthal_average image kw.
Proof.
  intros Hm Hs Hl Hlen H. eapply azimuthal_average_masked; eassumption.
Qed.

End GeometryOnly.

Lemma counts_and_centers_ignore_the_data_witness :
  shape (spike 5 5 3 (Fin 7) (Fin 0)) = shape (ones 5 5)
  /\ kw_center (set_mask (spike 5 5 12 false true)
                  (set_stddev (set_return_nr true no_kwargs)))
     = kw_center (set_return_nr true no_kwargs)
  /\ kw_binsize (set_mask (spike 5 5 12 false true)
                   (set_stddev (set_return_nr true no_kwargs)))
     = kw_binsize (set_return_nr true no_kwargs)
  /\ exists nr bin_centers prof prof',
       azimuthal_average (ones 5 5) (set_return_nr true no_kwargs)
       = Ok (WithCounts nr bin_centers prof)
       /\ azimuthal_average (spike 5 5 3 (Fin 7) (Fin 0))
            (set_mask (spike 5 5 12 false true)
               (set_stddev (set_return_nr true no_kwargs)))
          = Ok (WithCounts nr bin_centers prof').
Proof.
  split; [reflexivity |]. split; [reflexivity |]. split; [reflexivity |].
  destruct (azimuthal_average (ones 5 5) (set_return_nr true no_kwargs))
    as [[| | nr bc prof |] |] eqn:E;
    try (vm_compute in E; discriminate E).
  destruct (azimuthal_average (spike 5 5 3 (Fin 7) (Fin 0))
              (set_mask (spike 5 5 12 false true)
                 (set_stddev (set_return_nr true no_kwargs))))
    as [[| | nr' bc' prof' |] |] eqn:E';
    try (vm_compute in E'; discriminate E').
  destruct (@counts_and_centers_ignore_the_data _ (ones 5 5)
              (spike 5 5 3 (Fin 7) (Fin 0)) (set_return_nr true no_kwargs)
              (set_mask (spike 5 5 12 false true)
                 (set_stddev (set_return_nr true no_kwargs)))
              nr nr' bc bc' prof prof'
              eq_refl eq_refl eq_refl E E') as [-> ->].
  exists nr, bc, prof, prof'. split; reflexivity.
Defined.

Lemma masked_pixels_do_not_contribute_witness :
  kw_mask (set_mask (spike 5 5 12 false true) no_kwargs)
  = Some (spike 5 5 12 false true)
  /\ shape (spike 5 5 12 NaN (Fin 1)) = shape (ones 5 5)
  /\ length (flat (spike 5 5 12 false true)) = size_of (shape (ones 5 5))
  /\ azimuthal_average (spike 5 5 12 NaN (Fin 1))
       (set_mask (spike 5 5 12 false true) no_kwargs)
     = azimuthal_average (ones 5 5)
         (set_mask (spike 5 5 12 false true) no_kwargs).
Proof.
  split; [reflexivity |]. split; [reflexivity |]. split; [reflexivity |].
  apply (@masked_pixels_do_not_contribute _ (ones 5 5)
           (spike 5 5 12 NaN (Fin 1))
           (set_mask (spike 5 5 12 false true) no_kwargs)
           (spike 5 5 12 false true));
    try reflexivity.
  intros k Hk.
  do 25 (destruct k as [| k]; [try reflexivity; discriminate Hk |]).
  destruct k; discriminate Hk.
Defined.

(** ** The loop over the sectors *)

Lemma bins_loop_shared
      (body : float64 -> float64 -> result (list float64 * list float64))
      (rr0 : list float64) (P : list float64 -> Prop)
      (pairs : list (float64 * float64)) (rr : option (list float64))
      (avlist : list (list float64)) :
  (forall p, In p pairs ->
             exists zz, body (fst p) (snd p) = Ok (rr0, zz) /\ P zz) ->
  Forall P avlist ->
  exists avlist',
    bins_loop body pairs rr avlist
    = Ok (match pairs with [] => rr | _ :: _ => Some rr0 end, avlist')
    /\ length avlist' = (length avlist + length pairs)%nat
    /\ Forall P avlist'.
Proof.
  revert rr avlist. induction pairs as [| [blow bhigh] rest IH];
    intros rr avlist H Hall.
  - exists avlist. simpl. repeat split; [lia | exact Hall].
  - cbn [bins_loop].
    destruct (H (blow, bhigh) (or_introl eq_refl)) as [zz [Ezz Hzz]].
    cbn [fst snd] in Ezz. rewrite Ezz. cbn [bind].
    destruct (IH (Some rr0) (avlist ++ [zz])) as [av' [E [Hlen Hav]]].
    { intros p Hp. apply H. now right. }
    { apply Forall_app. split; [exact Hall | now constructor]. }
    exists av'. split; [| split; [| exact Hav]].
    + rewrite E. destruct rest; reflexivity.
    + rewrite Hlen, length_app. simpl. lia.
Qed.

Section Sectors.
Context {M : LibM}.
Variables (image : ndarray float64) (kw : kwargs) (b : Q).
Hypothesis V : valid_call image kw b.
Hypothesis Hmask : kw_mask kw = None.
Hypothesis Hradii : kw_returnradii kw = false.
Hypothesis Hinterp : kw_interpnan kw = false.
Hypothesis Hsteps : kw_steps kw = false.

Variable c : float64 * float64.
Hypothesis Hcx : isfinite (fst c) = true.
Hypothesis Hcy : isfinite (snd c) = true.

Lemma valid_sector_call (mask : list bool) :
  length mask = size_of (shape image) ->
  valid_call image (sector_kwargs kw c (mk_ndarray (shape image) mask)) b.
Proof.
  intros Hlen. constructor; try apply V.
  - intros c' E. injection E as <-. auto.
  - intros m E. injection E as <-. exact Hlen.
Qed.

Lemma valid_whole_call : valid_call image (whole_kwargs kw c) b.
Proof.
  constructor; try apply V.
  - intros c' E. injection E as <-. auto.
  - intros m E. discriminate E.
Qed.

(** Every pass returns the bin centres of the call without a mask, and a
    profile of [nbins_true] values ([nbins] in the stddev mode). *)
Lemma sector_pass_value (mask : list bool) :
  length mask = size_of (shape image) ->
  exists rr0 prof0,
    azimuthal_average image (whole_kwargs kw c) = Ok (WithCenters rr0 prof0)
    /\ length rr0 = Z.to_nat (Qfloor (sampling_frequency image / b))
    /\ exists zz,
         (kw' <- forward_kwargs kw (kw_returnradii kw)
                   (sector_kwargs kw c (mk_ndarray (shape image) mask)) ;;
          o <- azimuthal_average image kw' ;; unpack2 o) = Ok (rr0, zz)
         /\ length zz = length prof0.
Proof.
  intros Hlen. unfold forward_kwargs. rewrite Hmask, Hradii. cbn [bind].
  destruct (azimuthal_locals_computed valid_whole_call Hinterp) as [l0 [Hl0 C0]].
  destruct (azimuthal_locals_computed (@valid_sector_call mask Hlen) Hinterp)
    as [l [Hl C]].
  destruct (@geometry_only _ image image (whole_kwargs kw c)
              (sector_kwargs kw c (mk_ndarray (shape image) mask)) l0 l
              eq_refl eq_refl eq_refl Hl0 Hl)
    as [_ [_ [Hnb [_ [_ [_ [Hnbt Hbc]]]]]]].
  exists (l_bin_centers l0), (l_prof l0). split; [| split].
  - unfold azimuthal_average. rewrite Hl0. cbn [bind].
    unfold azimuthal_return. cbn [whole_kwargs kw_steps kw_returnradii].
    now rewrite Hsteps.
  - rewrite (cp_centers C0), (cp_nbins_true C0). reflexivity.
  - exists (l_prof l). split.
    + unfold azimuthal_average. rewrite Hl. cbn [bind].
      unfold azimuthal_return. cbn [sector_kwargs kw_steps kw_returnradii].
      rewrite Hsteps. cbn [unpack2]. now rewrite Hbc.
    + rewrite (cp_prof C), (cp_prof C0), Hnb, Hnbt. reflexivity.
Qed.

End Sectors.

Section SectorLists.
Context {M : LibM}.
Variables (image : ndarray float64) (kw : kwargs) (b : Q).
Hypothesis V : valid_call image kw b.
Hypothesis Hmask : kw_mask kw = None.
Hypothesis Hradii : kw_returnradii kw = false.
Hypothesis Hinterp : kw_interpnan kw = false.
Hypothesis Hsteps : kw_steps kw = false.

Variable center : option (float64 * float64).
Hypothesis Hcenter :
  forall c, center = Some c -> isfinite (fst c) = true /\ isfinite (snd c) = true.

Lemma sector_center :
  exists c, resolve_center center (snd (np_indices (shape image)))
                           (fst (np_indices (shape image))) = Ok c
            /\ isfinite (fst c) = true /\ isfinite (snd c) = true.
Proof.
  pose proof (vc_rows V) as Hr. pose proof (vc_cols V) as Hc.
  unfold resolve_center. destruct center as [c |].
  - exists c. split; [reflexivity | now apply Hcenter].
  - destruct (shape image) as [rows cols]. cbn [fst snd] in *.
    rewrite (default_center_value Hr Hc). eexists. split; [reflexivity |].
    split; reflexivity.
Qed.

(** Once the boundaries are set up, at least two of them, the loop returns
    one profile for each pair of consecutive boundaries, all of one length,
    with the bin centres of the call without a mask. *)
Lemma sector_loop_returns (azbins : bins_arg) (symmetric : option Z)
      (c : float64 * float64) (bounds theta : list float64) :
  resolve_center center (snd (np_indices (shape image)))
                 (fst (np_indices (shape image))) = Ok c ->
  isfinite (fst c) = true -> isfinite (snd c) = true ->
  sector_setup (theta_deg_of c (snd (np_indices (shape image)))
                             (fst (np_indices (shape image))))
               azbins symmetric = Ok (bounds, theta) ->
  length theta = size_of (shape image) ->
  (2 <= length bounds)%nat ->
  exists rr prof0 azavlist,
    azimuthal_average_bins image azbins symmetric center kw
    = Ok (bounds, rr, azavlist)
    /\ azimuthal_average image (whole_kwargs kw c) = Ok (WithCenters rr prof0)
    /\ length rr = Z.to_nat (Qfloor (sampling_frequency image / b))
    /\ length azavlist = (length bounds - 1)%nat
    /\ Forall (fun zz => length zz = length prof0) azavlist.
Proof.
  intros Ec Hcx Hcy Esetup Htheta Hbounds.
  destruct (@sector_pass_value _ image kw b V Hmask Hradii Hinterp Hsteps c
              Hcx Hcy (repeat true (size_of (shape image)))
              (repeat_length _ _))
    as [rr0 [prof0 [Hwhole [Hrr0 _]]]].
  destruct (@bins_loop_shared
              (fun blow bhigh =>
                 kw' <- forward_kwargs kw (kw_returnradii kw)
                          (mk_kwargs (Some c) (kw_stddev kw) true (kw_return_nr kw)
                             (kw_return_az kw) (kw_return_naz kw) (kw_binsize kw)
                             (kw_weights kw) (kw_steps kw) (kw_interpnan kw)
                             (kw_left kw) (kw_right kw)
                             (Some (mk_ndarray (shape image)
                                      (sector_mask theta blow bhigh)))
                             (kw_sum_bin kw)) ;;
                 o <- azimuthal_average image kw' ;; unpack2 o)
              rr0 (fun zz => length zz = length prof0)
              (consecutive bounds) None [])
    as [avl [Eloop [Havl Hall]]].
  { intros p _.
    destruct (@sector_pass_value _ image kw b V Hmask Hradii Hinterp Hsteps c
                Hcx Hcy (sector_mask theta (fst p) (snd p)))
      as [rr1 [prof1 [Hwhole1 [_ [zz [Ezz Hzz]]]]]].
    { unfold sector_mask. rewrite length_map2, !length_map, Nat.min_id.
      exact Htheta. }
    rewrite Hwhole in Hwhole1. injection Hwhole1 as <- <-.
    exists zz. split; [exact Ezz | exact Hzz]. }
  { constructor. }
  exists rr0, prof0, avl. split; [| split; [exact Hwhole | split; [exact Hrr0 |]]].
  - unfold azimuthal_average_bins.
    rewrite (surjective_pairing (np_indices (shape image))), Ec. cbn [bind].
    rewrite Esetup. cbn [bind]. rewrite Eloop. cbn [bind].
    destruct (consecutive bounds) eqn:E; [| reflexivity].
    apply (f_equal (@length _)) in E. rewrite length_consecutive in E.
    simpl in E. lia.
  - split; [| exact Hall]. rewrite Havl, length_consecutive. simpl. lia.
Qed.

(** X17.  For an array of at least two sector boundaries (and keyword
    arguments without [mask], [returnradii], [steps] and [interpnan])
    [azimuthal_average_bins] returns the boundaries as given, one profile
    for each pair of consecutive boundaries, and the bin centres of the
    call on the whole image: every sector is binned on the same radii, and
    all the profiles have one length. *)
Theorem explicit_sectors_share_bin_centers (a : list float64)
        (symmetric : option Z) :
  (2 <= length a)%nat ->
  exists c rr prof0 azavlist,
    resolve_center center (snd (np_indices (shape image)))
                   (fst (np_indices (shape image))) = Ok c
    /\ azimuthal_average_bins image (BinsArray a) symmetric center kw
       = Ok (a, rr, azavlist)
    /\ azimuthal_average image (whole_kwargs kw c) = Ok (WithCenters rr prof0)
    /\ length azavlist = (length a - 1)%nat
    /\ Forall (fun zz => length zz = length prof0) azavlist.
Proof.
  intros Ha. destruct sector_center as [c [Ec [Hcx Hcy]]].
  destruct (@sector_loop_returns (BinsArray a) symmetric c a
              (theta_deg_of c (snd (np_indices (shape image)))
                            (fst (np_indices (shape image))))
              Ec Hcx Hcy eq_refl)
    as [rr [prof0 [avl [H1 [H2 [_ [H4 H5]]]]]]]; [| exact Ha |].
  { destruct (shape image) as [rows cols]. apply length_theta_deg_of. }
  exists c, rr, prof0, avl. auto.
Qed.

(** X18.  An integer [N >= 2] as [azbins] gives the [N] boundaries
    [np.linspace(0, top, N)], where [top] is 90 for [symmetric=2], 180 for
    [symmetric=1] and 360 otherwise, and [N - 1] profiles of one length,
    on the bin centres of the call on the whole image. *)
Theorem integer_sectors_under_symmetry (N : Z) (symmetric : option Z) :
  (2 <= N)%Z ->
  exists c rr prof0 azavlist,
    resolve_center center (snd (np_indices (shape image)))
                   (fst (np_indices (shape image))) = Ok c
    /\ azimuthal_average_bins image (BinsInt N) symmetric center kw
       = Ok (linspace_values (Fin 0) (sector_range symmetric) (Z.to_nat N),
             rr, azavlist)
    /\ azimuthal_average image (whole_kwargs kw c) = Ok (WithCenters rr prof0)
    /\ length azavlist = (Z.to_nat N - 1)%nat
    /\ Forall (fun zz => length zz = length prof0) azavlist.
Proof.
  intros HN. destruct sector_center as [c [Ec [Hcx Hcy]]].
  set (theta := theta_deg_of c (snd (np_indices (shape image)))
                             (fst (np_indices (shape image)))).
  assert (Htheta : length theta = size_of (shape image)).
  { unfold theta. destruct (shape image) as [rows cols].
    apply length_theta_deg_of. }
  assert (Esetup : exists theta',
             sector_setup theta (BinsInt N) symmetric
             = Ok (linspace_values (Fin 0) (sector_range symmetric) (Z.to_nat N),
                   theta')
             /\ length theta' = size_of (shape image)).
  { unfold sector_setup, np_linspace, py_index. cbn [bind].
    destruct (Z.ltb_spec N 0) as [Hneg | _]; [lia |]. cbn [bind].
    destruct symmetric as [[| [p | [p | p |] |] | p] |];
      eexists; (split; [reflexivity |]); rewrite ?length_map; exact Htheta. }
  destruct Esetup as [theta' [Esetup Hlen']].
  destruct (@sector_loop_returns (BinsInt N) symmetric c _ theta'
              Ec Hcx Hcy Esetup Hlen')
    as [rr [prof0 [avl [H1 [H2 [_ [H4 H5]]]]]]].
  { rewrite length_linspace_values. lia. }
  rewrite length_linspace_values in H4.
  exists c, rr, prof0, avl. auto.
Qed.

End SectorLists.

Lemma explicit_sectors_share_bin_centers_witness :
  valid_call (ones 5 5) no_kwargs (1 # 2)
  /\ (2 <= length [Fin 0; Fin 90; Fin 180])%nat
  /\ exists c rr prof0 azavlist,
       resolve_center None (snd (np_indices (shape (ones 5 5))))
                      (fst (np_indices (shape (ones 5 5)))) = Ok c
       /\ azimuthal_average_bins (ones 5 5) (BinsArray [Fin 0; Fin 90; Fin 180])
                                 None None no_kwargs
          = Ok ([Fin 0; Fin 90; Fin 180], rr, azavlist)
       /\ azimuthal_average (ones 5 5) (whole_kwargs no_kwargs c)
          = Ok (WithCenters rr prof0)
       /\ length azavlist = 2%nat
       /\ Forall (fun zz => length zz = length prof0) azavlist.
Proof.
  assert (V : valid_call (ones 5 5) no_kwargs (1 # 2))
    by valid_call_of_defaults.
  split; [exact V |]. split; [cbn; lia |].
  apply (@explicit_sectors_share_bin_centers _ (ones 5 5) no_kwargs (1 # 2) V
           eq_refl eq_refl eq_refl eq_refl None
           ltac:(intros c E; discriminate E) [Fin 0; Fin 90; Fin 180] None).
  cbn; lia.
Defined.

Lemma integer_sectors_under_symmetry_witness :
  valid_call (ones 5 5) no_kwargs (1 # 2)
  /\ (2 <= 3)%Z
  /\ exists c rr prof0 azavlist,
       resolve_center None (snd (np_indices (shape (ones 5 5))))
                      (fst (np_indices (shape (ones 5 5)))) = Ok c
       /\ azimuthal_average_bins (ones 5 5) (BinsInt 3) (Some 2%Z) None no_kwargs
          = Ok (linspace_values (Fin 0) (Fin 90) 3, rr, azavlist)
       /\ azimuthal_average (ones 5 5) (whole_kwargs no_kwargs c)
          = Ok (WithCenters rr prof0)
       /\ length azavlist = 2%nat
       /\ Forall (fun zz => length zz = length prof0) azavlist.
Proof.
  assert (V : valid_call (ones 5 5) no_kwargs (1 # 2))
    by valid_call_of_defaults.
  split; [exact V |]. split; [lia |].
  apply (@integer_sectors_under_symmetry _ (ones 5 5) no_kwargs (1 # 2) V
           eq_refl eq_refl eq_refl eq_refl None
           ltac:(intros c E; discriminate E) 3%Z (Some 2%Z)).
  lia.
Defined.

(** ** The default centre *)

(** X19.  Without a [center] argument the centre is the midpoint of the
    index ranges, [((cols - 1) / 2, (rows - 1) / 2)], column first. *)
Theorem default_center_is_midpoint (rows cols : nat) :
  (0 < rows)%nat -> (0 < cols)%nat ->
  resolve_center None (snd (np_indices (rows, cols)))
                 (fst (np_indices (rows, cols)))
  = Ok (Fin (inject_Z (Z.of_nat cols - 1) / 2),
        Fin (inject_Z (Z.of_nat rows - 1) / 2)).
Proof.
  intros Hr Hc. unfold resolve_center.
  rewrite (default_center_value Hr Hc), !Z.sub_0_r. reflexivity.
Qed.

Lemma default_center_is_midpoint_witness :
  (0 < 4)%nat /\ (0 < 5)%nat
  /\ resolve_center None (snd (np_indices (4, 5)%nat))
                    (fst (np_indices (4, 5)%nat))
     = Ok (Fin (inject_Z (Z.of_nat 5 - 1) / 2),
           Fin (inject_Z (Z.of_nat 4 - 1) / 2)).
Proof.
  split; [lia |]. split; [lia |].
  apply (@default_center_is_midpoint 4 5); lia.
Defined.

(** ** A mask of the wrong length *)

Section MaskLength.
Context {M : LibM}.

(** The mask enters the call at the aggregation only. *)
Lemma azimuthal_locals_set_mask (image : ndarray float64) (kw : kwargs)
      (m : ndarray bool) (l : azimuthal_vars) :
  azimuthal_locals image kw = Ok l ->
  is_ok (azimuthal_locals image (set_mask m kw))
  = is_ok (prof <- aggregate image (l_weights l) (flat m) (l_whichbin l)
                     (kw_stddev kw) (kw_sum_bin kw) (l_nbins l)
                     (l_nbins_true l) ;;
           if kw_interpnan kw then
             np_interp (l_bin_centers l) (l_bin_centers l) prof
                       (kw_left kw) (kw_right kw)
           else Ok prof)
  /\ (forall e,
        aggregate image (l_weights l) (flat m) (l_whichbin l)
                  (kw_stddev kw) (kw_sum_bin kw) (l_nbins l) (l_nbins_true l)
        = Raise e ->
        azimuthal_locals image (set_mask m kw) = Raise e).
Proof.
  unfold azimuthal_locals, set_mask.
  cbn [kw_center kw_stddev kw_binsize kw_weights kw_interpnan kw_left kw_right
       kw_mask kw_sum_bin].
  destruct (np_indices (shape image)) as [y x].
  destruct (resolve_center (kw_center kw) x y) as [c |]; [| discriminate].
  cbn [bind].
  destruct (match kw_weights kw with
            | Some w => if kw_stddev kw then Raise InvalidConfiguration else Ok w
            | None => Ok (np_ones (shape image))
            end) as [weights |]; [| discriminate].
  cbn [bind].
  destruct (np_max (distance_map c x y)) as [rmax |]; [| discriminate].
  cbn [bind].
  destruct (py_int _) as [nbins |]; [| discriminate]. cbn [bind].
  destruct (np_linspace _ _ _) as [bins |]; [| discriminate]. cbn [bind].
  destruct (np_digitize (distance_map c x y) bins) as [whichbin |];
    [| discriminate].
  cbn [bind].
  destruct (int_max x) as [xmax |]; [| discriminate]. cbn [bind].
  destruct (int_min x) as [xmin |]; [| discriminate]. cbn [bind].
  destruct (py_int _) as [nbins_true |]; [| discriminate]. cbn [bind].
  destruct (aggregate image weights _ whichbin _ _ _ _) as [prof |];
    [| discriminate].
  cbn [bind].
  destruct (if kw_interpnan kw then _ else _) as [p |]; [| discriminate].
  cbn [bind]. intros H. injection H as <-.
  cbn [l_weights l_whichbin l_nbins l_nbins_true l_bin_centers].
  split.
  - destruct (aggregate image weights (flat m) whichbin _ _ _ _) as [prof' |];
      [| reflexivity].
    cbn [bind]. destruct (if kw_interpnan kw then _ else _); reflexivity.
  - intros e E. rewrite E. reflexivity.
Qed.

Lemma np_mul_bool_mismatch (a b : list bool) :
  length a <> length b -> length a <> 1%nat -> length b <> 1%nat ->
  np_mul_bool a b
  = Raise (ValueError "operands could not be broadcast together").
Proof.
  intros H Ha Hb. unfold np_mul_bool.
  destruct (Nat.eqb_spec (length a) (length b)) as [E | _]; [contradiction |].
  destruct a as [| u [| u' a]]; [| simpl in Ha; lia |];
    (destruct b as [| v [| v' b]]; [| simpl in Hb; lia |]);
    reflexivity.
Qed.

Variables (image : ndarray float64) (kw : kwargs) (b : Q).
Hypothesis V : valid_call image kw b.

(** X20.  A mask whose length is neither 1 nor the number of pixels is not
    silently accepted: as soon as one bin is aggregated (always in the
    stddev mode, and with a retained bin otherwise) the product of the
    mask with the bin membership cannot be broadcast, and the call raises
    ValueError. *)
Theorem mask_of_wrong_length_raises (m : ndarray bool) :
  kw_interpnan kw = false ->
  (2 <= size_of (shape image))%nat ->
  length (flat m) <> size_of (shape image) -> length (flat m) <> 1%nat ->
  kw_stddev kw = true \/ (1 <= Qfloor (sampling_frequency image / b))%Z ->
  exists msg, azimuthal_average image (set_mask m kw) = Raise (ValueError msg).
Proof.
  intros Hinterp Hsize Hlen Hone Hbins.
  exists "operands could not be broadcast together"%string.
  destruct (azimuthal_locals_computed V Hinterp) as [l [Hl C]].
  destruct (@azimuthal_locals_set_mask image kw m l Hl) as [_ Hraise].
  unfold azimuthal_average.
  rewrite (Hraise (ValueError "operands could not be broadcast together"));
    [reflexivity |].
  pose proof (cp_whichbin C) as Hw. pose proof (cp_nbins C) as Hnb.
  pose proof (cp_nbins_true C) as Hnbt. destruct (cp_weights C) as [Hws _].
  assert (Hsel : forall A (a : list A) bn,
             select_bin a (flat m) (l_whichbin l) bn
             = Raise (ValueError "operands could not be broadcast together")).
  { intros A a bn. unfold select_bin.
    rewrite np_mul_bool_mismatch; [reflexivity | | exact Hone |];
      rewrite length_map, Hw; [exact Hlen | lia]. }
  unfold aggregate, py_range, py_index. cbn [bind].
  destruct (kw_stddev kw) eqn:Hstd.
  - unfold zrange. replace (l_nbins l + 1 - 1)%Z with (l_nbins l) by lia.
    destruct (Z.to_nat (l_nbins l)) as [| n] eqn:En; [lia |].
    cbn [seq map mapM]. rewrite Hsel. reflexivity.
  - destruct Hbins as [H | Hbins]; [discriminate H |].
    rewrite Hnbt. unfold zrange.
    replace (Qfloor (sampling_frequency image / b) + 1 - 1)%Z
      with (Qfloor (sampling_frequency image / b)) by lia.
    destruct (Z.to_nat (Qfloor (sampling_frequency image / b))) as [| n] eqn:En;
      [lia |].
    destruct (kw_sum_bin kw); cbn [seq map mapM];
      rewrite np_mul_value by exact Hws; cbn [bind]; rewrite Hsel; reflexivity.
Qed.

(** X21.  In the stddev mode the profile has one value for each of the
    [nbins] bins while the bin centres are cut to the retained bins, which
    are fewer: on every valid call the profile returned with
    [returnradii] is longer than the array of bin centres. *)
Theorem stddev_profile_is_longer_than_bin_centers :
  kw_stddev kw = true -> kw_interpnan kw = false ->
  kw_steps kw = false -> kw_returnradii kw = true ->
  exists bin_centers prof,
    azimuthal_average image kw = Ok (WithCenters bin_centers prof)
    /\ (length bin_centers < length prof)%nat.
Proof.
  intros Hstd Hinterp Hsteps Hradii.
  destruct (azimuthal_locals_computed V Hinterp) as [l [Hl C]].
  exists (l_bin_centers l), (l_prof l). split.
  - unfold azimuthal_average. rewrite Hl. cbn [bind].
    unfold azimuthal_return. now rewrite Hsteps, Hradii.
  - rewrite (cp_centers C), (cp_prof C), Hstd.
    pose proof (cp_nonneg C). pose proof (cp_fewer C). lia.
Qed.

End MaskLength.

Lemma mask_of_wrong_length_raises_witness :
  valid_call (ones 5 5) no_kwargs (1 # 2)
  /\ (2 <= size_of (shape (ones 5 5)))%nat
  /\ length (flat (spike 2 3 0 false true)) <> size_of (shape (ones 5 5))
  /\ length (flat (spike 2 3 0 false true)) <> 1%nat
  /\ exists msg,
       azimuthal_average (ones 5 5)
                         (set_mask (spike 2 3 0 false true) no_kwargs)
       = Raise (ValueError msg).
Proof.
  assert (V : valid_call (ones 5 5) no_kwargs (1 # 2))
    by valid_call_of_defaults.
  split; [exact V |]. split; [cbn; lia |].
  split; [cbn; lia |]. split; [cbn; lia |].
  apply (@mask_of_wrong_length_raises _ (ones 5 5) no_kwargs (1 # 2) V
           (spike 2 3 0 false true) eq_refl);
    [cbn; lia | cbn; lia | cbn; lia | right; vm_compute; discriminate].
Defined.

Lemma stddev_profile_is_longer_than_bin_centers_witness :
  valid_call (ones 5 5) (set_returnradii true (set_stddev no_kwargs)) (1 # 2)
  /\ exists bin_centers prof,
       azimuthal_average (ones 5 5) (set_returnradii true (set_stddev no_kwargs))
       = Ok (WithCenters bin_centers prof)
       /\ (length bin_centers < length prof)%nat.
Proof.
  assert (V : valid_call (ones 5 5) (set_returnradii true (set_stddev no_kwargs))
                         (1 # 2))
    by valid_call_of_defaults.
  split; [exact V |].
  exact (stddev_profile_is_longer_than_bin_centers V eq_refl eq_refl eq_refl
                                                   eq_refl).
Defined.
